(** * ImageFromImage: the submission orchestration engine

    A shallow embedding of the JavaScript sources
    [src/manager.js], [src/handlers/chatgpt_handler.js],
    [src/handlers/gemini_handler.js], [src/services/chatgpt_service.js],
    [src/services/gemini_service.js], [src/exif_writer.js],
    [src/file_manager.js] and [src/config.js].

    The browser page, the exiftool process, the file system, Node's
    [path] module and the package p-limit are external.  Each is
    represented by a value that the embedded code threads through its
    calls: what the page will show on the n-th attempt, whether the
    n-th exiftool call succeeds, what a directory contains, what
    [path.resolve] and [path.join] return.  Waits and delays have no
    effect on the state that the code keeps, so they appear only as
    log entries where the code logs them. *)

From stdpp Require Import base option list strings gmap sorting.
From Stdlib Require Import Lia.

(** ** JavaScript values *)

Module Js.

(** An [Error] object: the code inspects [error.name] and
    [error.message] only. *)
Record error := Error { name : string; message : string }.

(** [hay.includes(needle)]. *)
Fixpoint includes (needle hay : string) : bool :=
  String.prefix needle hay ||
  match hay with
  | EmptyString => false
  | String _ rest => includes needle rest
  end.

(** Truthiness of a string: every string but the empty one. *)
Definition truthy (s : string) : bool := negb (String.eqb s "").

(** [new Error(msg)] has name ["Error"]. *)
Definition newError (msg : string) : error := Error "Error" msg.

(** A number, as far as the code and [p-limit] tell numbers apart: an
    integer, a finite number that is not one, an infinity, [NaN]. *)
Inductive number :=
| Integer (z : Z)
| NonInteger
| PositiveInfinity
| NegativeInfinity
| NaN.

(** How an awaited call ends: with a value or with a thrown error. *)
Inductive outcome (A : Type) :=
| Ok (a : A)
| Thrown (e : error).
Arguments Ok {A} a.
Arguments Thrown {A} e.

End Js.

(** ** src/config.js and the options assembled by src/cli.js *)

(** One platform's entry of [options.selectors]: the [readySelectors]
    array (empty when the key is missing, as [|| []] reads it) and the
    keys that hold one selector string. *)
Module Selectors.

Record t := {
  readySelectors : list string;
  named : gmap string string
}.

End Selectors.

Record Options := {
  prompt : string;
  exifAppName : string;
  exifSuccessKey : string;
  exifFailedKey : string;
  (** [--skipIfCreated]; [None] is [undefined]. *)
  skipIfCreated : option bool;
  concurrency : Js.number;
  (** [options.selectors?.gemini] and [options.selectors?.chatgpt];
      [None] when there is no such object. *)
  geminiSelectors : option Selectors.t;
  chatgptSelectors : option Selectors.t
}.

(** [options.selectors?.[platformKey]?.readySelectors || []] *)
Definition geminiReadySelectors (o : Options) : list string :=
  default [] (Selectors.readySelectors <$> geminiSelectors o).

Definition chatgptReadySelectors (o : Options) : list string :=
  default [] (Selectors.readySelectors <$> chatgptSelectors o).

(** [submitButton] of [options.selectors.chatgpt], as a template
    literal shows it. *)
Definition chatgptSubmitButton (o : Options) : string :=
  default "undefined" (chatgptSelectors o ≫= λ selectors,
                         Selectors.named selectors !! "submitButton").

(** A string literal cannot hold the double quote of the selectors,
    so it is built from its character code. *)
Definition dquote : string := String (Ascii.ascii_of_nat 34) EmptyString.

Definition defaultConfig : Options := {|
  prompt := "Render this image as a richly textured oil painting, resembling a museum-quality handmade canvas artwork. Style of Raja Ravi Varma. Wide aspect ratio.";
  exifAppName := "imageFromImage";
  exifSuccessKey := "successCount";
  exifFailedKey := "failedCount";
  skipIfCreated := Some true;
  concurrency := Js.Integer 4;
  geminiSelectors := Some
    {| Selectors.readySelectors :=
         ["div.ql-editor.textarea.new-input-ui";
          "button[aria-label=" +:+ dquote +:+ "Open upload file menu" +:+ dquote +:+ "]"];
       Selectors.named :=
         {[ "promptTextarea" := "div.ql-editor.textarea.new-input-ui";
            "uploadButtonInitiator" :=
              "button[aria-label=" +:+ dquote +:+ "Open upload file menu" +:+ dquote +:+ "]";
            "uploadButtonLocalImage" := "button#image-uploader-local";
            "imagePreviewConfirmation" :=
              "img[data-test-id=" +:+ dquote +:+ "image-preview" +:+ dquote +:+ "]";
            "submitButton" := "button.send-button.submit";
            "responseArea" := "model-response";
            "imageInResponse" := "img";
            "loadingIndicator" := "progress-indicator" ]} |};
  chatgptSelectors := Some
    {| Selectors.readySelectors :=
         ["button[aria-label=" +:+ dquote +:+ "Upload files and more" +:+ dquote +:+ "]"];
       Selectors.named :=
         {[ "promptTextarea" := "#prompt-textarea";
            "uploadButtonInitiator" :=
              "button[aria-label=" +:+ dquote +:+ "Upload files and more" +:+ dquote +:+ "]";
            "fileInputHidden" :=
              "input[type=" +:+ dquote +:+ "file" +:+ dquote +:+ "][tabindex=" +:+
              dquote +:+ "-1" +:+ dquote +:+ "]";
            "imagePreviewConfirmation" :=
              "div.w-fit span[style*=" +:+ dquote +:+ "background-image" +:+ dquote +:+ "]";
            "submitButton" :=
              "button[data-testid=" +:+ dquote +:+ "send-button" +:+ dquote +:+ "]";
            "loadingIndicator" :=
              "button[data-testid=" +:+ dquote +:+ "stop-button" +:+ dquote +:+ "]";
            "responseArea" :=
              "div[data-message-author-role=" +:+ dquote +:+ "assistant" +:+ dquote +:+ "]";
            "imageInResponse" :=
              "img[alt=" +:+ dquote +:+ "Generated image" +:+ dquote +:+ "]" ]} |}
|}.

(** ** src/exif_writer.js *)

Module ExifWriter.

(** The exiftool process.  [files] maps a file path to the data kept
    under the application's name in the target tag (a JSON object
    from counter key to count); a path without an entry has no such
    data.  The [calls]-th call to the tool fails when
    [healthy calls] is [false]. *)
Record ExifTool := {
  files : gmap string (gmap string nat);
  healthy : nat → bool;
  calls : nat
}.

Record t := {
  successKey : string;
  failedKey : string;
  exiftool : ExifTool
}.

Definition new (options : Options) (tool : ExifTool) : t :=
  {| successKey := exifSuccessKey options;
     failedKey := exifFailedKey options;
     exiftool := tool |}.

Definition called (w : t) (tool : ExifTool) : t :=
  {| successKey := successKey w; failedKey := failedKey w;
     exiftool := {| files := files tool; healthy := healthy tool;
                    calls := S (calls tool) |} |}.

(** A read error is caught and gives [null], as a missing tag does. *)
Definition _readAppDataInternal (w : t) (filePath : string)
  : option (gmap string nat) * t :=
  let tool := exiftool w in
  if healthy tool (calls tool)
  then (files tool !! filePath, called w tool)
  else (None, called w tool).

Definition getAppData (w : t) (filePath : string)
  : option (gmap string nat) * t :=
  _readAppDataInternal w filePath.

Definition incrementCounter (w : t) (filePath keyToIncrement : string)
  : bool * t :=
  if negb (String.eqb keyToIncrement (successKey w)) &&
     negb (String.eqb keyToIncrement (failedKey w))
  then (false, w)
  else
    let '(read, w1) := _readAppDataInternal w filePath in
    let defaultData : gmap string nat :=
      <[failedKey w := 0]> (<[successKey w := 0]> ∅) in
    (* { ...defaultData, ...(currentAppData || {}) } *)
    let currentAppData := default ∅ read ∪ defaultData in
    let currentAppData :=
      <[keyToIncrement := S (default 0 (currentAppData !! keyToIncrement))]>
        currentAppData in
    let tool := exiftool w1 in
    if healthy tool (calls tool)
    then (true,
          called w1 {| files := <[filePath := currentAppData]> (files tool);
                       healthy := healthy tool; calls := calls tool |})
    else (false, called w1 tool).

End ExifWriter.

(** ** src/handlers/base_handler.js: the handler contract *)

(** The objects that the handlers of the repository resolve to:
    [{submitted, successStatusOfPrevious}] from the ChatGPT handler,
    [{success}] from the Gemini handler. *)
Inductive AttemptResult :=
| SubmitReport (submitted successStatusOfPrevious : bool)
| SuccessReport (success : bool).

Inductive Completion :=
| Returns (r : AttemptResult)
| Throws (e : Js.error).

(** A handler value holds the page that it drives; [processImage]
    returns the handler after the call together with the result. *)
Class BaseHandler (H : Type) := {
  platformKey : H → string;
  processImage : H → string → string → Completion * H
}.

(** ** src/file_manager.js *)

Module FileManager.

(** A directory entry as [fs.readdir] with [withFileTypes] gives it. *)
Record Dirent := { name : string; isDirectory : bool }.

(** Node's [path] module as FileManager calls it: [path.resolve] of
    one path, which depends on the working directory of the process,
    and [path.join] of a directory and the name of an entry. *)
Record Path := {
  resolve : string → string;
  join : string → string → string
}.

(** The host that FileManager runs on: the [path] module, and the
    entries of a directory as [fs.readdir] gives them, or its error. *)
Record Fs := {
  path : Path;
  readdir : string → Js.outcome (list Dirent)
}.

(** Whether a byte is a continuation byte of UTF-8. *)
Definition continuation (b : Ascii.ascii) : bool :=
  ((128 <=? Ascii.N_of_ascii b) && (Ascii.N_of_ascii b <? 192))%N.

Definition low6 (b : Ascii.ascii) : N := (Ascii.N_of_ascii b - 128)%N.

(** The surrogate pair of a code point from U+10000 on. *)
Definition surrogates (codePoint : N) : list N :=
  [(55296 + (codePoint - 65536) / 1024)%N; (56320 + (codePoint - 65536) mod 1024)%N].

(** The UTF-16 code units of a JavaScript string, which a [string]
    holds in UTF-8: one unit for a code point below U+10000, two
    surrogates for one above. A byte that does not start a complete
    sequence counts as a unit of its own. *)
Fixpoint codeUnits (s : string) : list N :=
  match s with
  | EmptyString => []
  | String b1 rest =>
      let n1 := Ascii.N_of_ascii b1 in
      let alone := n1 :: codeUnits rest in
      if (n1 <? 192)%N then alone
      else if (n1 <? 224)%N then
        match rest with
        | String b2 r2 =>
            if continuation b2
            then ((n1 - 192) * 64 + low6 b2)%N :: codeUnits r2
            else alone
        | _ => alone
        end
      else if (n1 <? 240)%N then
        match rest with
        | String b2 (String b3 r3) =>
            if continuation b2 && continuation b3
            then ((n1 - 224) * 4096 + low6 b2 * 64 + low6 b3)%N :: codeUnits r3
            else alone
        | _ => alone
        end
      else if (n1 <? 248)%N then
        match rest with
        | String b2 (String b3 (String b4 r4)) =>
            if continuation b2 && continuation b3 && continuation b4
            then
              surrogates ((n1 - 240) * 262144 + low6 b2 * 4096 + low6 b3 * 64 + low6 b4)%N
              ++ codeUnits r4
            else alone
        | _ => alone
        end
      else alone
  end.

(** Unit by unit, the shorter of two lists first when one begins the
    other. *)
Fixpoint unitsLe (a b : list N) : bool :=
  match a, b with
  | [], _ => true
  | _ :: _, [] => false
  | x :: a', y :: b' =>
      if (x <? y)%N then true
      else if (y <? x)%N then false
      else unitsLe a' b'
  end.

(** The order of [Array.prototype.sort] without a comparator, on
    strings: UTF-16 code unit by code unit. *)
Definition codeUnitOrder : relation string :=
  λ a b, unitsLe (codeUnits a) (codeUnits b).

Definition findSubdirectories (fs : Fs) (basePath : string)
  : Js.outcome (list string) :=
  let absoluteBasePath := resolve (path fs) basePath in
  match readdir fs absoluteBasePath with
  | Js.Thrown _ =>
      Js.Thrown (Js.newError
        ("Failed to list subdirectories for path: " +:+ absoluteBasePath))
  | Js.Ok entries =>
      let subdirectories :=
        (λ entry, join (path fs) absoluteBasePath (name entry)) <$>
          filter (λ entry, isDirectory entry) entries in
      Js.Ok (merge_sort codeUnitOrder subdirectories)
  end.

End FileManager.

(** ** The package p-limit *)

Module PLimit.

(** [pLimit(concurrency)] checks its argument before it returns the
    limiter: the package, which is not part of the repository, throws
    a [TypeError] unless the number is an integer or [Infinity], and
    at least 1.  [None] when the limiter is returned. *)
Definition pLimit (concurrency : Js.number) : option Js.error :=
  match concurrency with
  | Js.Integer z => if (0 <? z)%Z then None
                    else Some (Js.Error "TypeError"
                                 "Expected `concurrency` to be a number from 1 and up")
  | Js.PositiveInfinity => None
  | _ => Some (Js.Error "TypeError"
                 "Expected `concurrency` to be a number from 1 and up")
  end.

End PLimit.

(** ** src/manager.js *)

Module Manager.

Record Summary := {
  processed : nat;
  skipped : nat;
  success : nat;
  failed : nat;
  submitErrors : nat;
  exifErrors : nat
}.

Definition zeroSummary : Summary :=
  {| processed := 0; skipped := 0; success := 0; failed := 0;
     submitErrors := 0; exifErrors := 0 |}.

Definition incProcessed (s : Summary) : Summary :=
  {| processed := S (processed s); skipped := skipped s;
     success := success s; failed := failed s;
     submitErrors := submitErrors s; exifErrors := exifErrors s |}.
Definition incSkipped (s : Summary) : Summary :=
  {| processed := processed s; skipped := S (skipped s);
     success := success s; failed := failed s;
     submitErrors := submitErrors s; exifErrors := exifErrors s |}.
Definition incSuccess (s : Summary) : Summary :=
  {| processed := processed s; skipped := skipped s;
     success := S (success s); failed := failed s;
     submitErrors := submitErrors s; exifErrors := exifErrors s |}.
Definition incFailed (s : Summary) : Summary :=
  {| processed := processed s; skipped := skipped s;
     success := success s; failed := S (failed s);
     submitErrors := submitErrors s; exifErrors := exifErrors s |}.
Definition incSubmitErrors (s : Summary) : Summary :=
  {| processed := processed s; skipped := skipped s;
     success := success s; failed := failed s;
     submitErrors := S (submitErrors s); exifErrors := exifErrors s |}.
Definition incExifErrors (s : Summary) : Summary :=
  {| processed := processed s; skipped := skipped s;
     success := success s; failed := failed s;
     submitErrors := submitErrors s; exifErrors := S (exifErrors s) |}.

(** Where in [processImageBatch] a counter is incremented: at the
    head of the loop iteration with the given [fileIndex], in the
    branch after the loop for a known status, or in the branch after
    the loop for an undetermined status. *)
Inductive Phase :=
| InLoop (fileIndex : nat)
| FinalKnown
| FinalUndetermined.

(** The log lines of [processImageBatch] that record an action. *)
Inductive Event :=
| EvIncrement (ph : Phase) (filePath key : string) (exifUpdated : bool)
| EvSkip (fileIndex : nat) (imagePath : string)
| EvSubmit (fileIndex : nat) (imagePath : string)
| EvWait (fileIndex : nat).

Section Batch.
Context {H : Type} `{BaseHandler H}.
Variable options : Options.

(** The local variables of [processImageBatch], the two objects it
    was given and the log. [None] is [null]. *)
Record Loop := {
  summary : Summary;
  previousImagePath : option string;
  successStatusForPreviousImage : option bool;
  fileIndex : nat;
  exifWriterInstance : ExifWriter.t;
  handler : H;
  log : list Event
}.

Definition start (h : H) (w : ExifWriter.t) : Loop :=
  {| summary := zeroSummary; previousImagePath := None;
     successStatusForPreviousImage := None; fileIndex := 0;
     exifWriterInstance := w; handler := h; log := [] |}.

(** [previousImagePath && successStatusForPreviousImage !== null] *)
Definition statusKnown (st : Loop) : option (string * bool) :=
  match previousImagePath st, successStatusForPreviousImage st with
  | Some prev, Some status =>
      if Js.truthy prev then Some (prev, status) else None
  | _, _ => None
  end.

(** The EXIF update for the previous image, shared by the head of
    the loop body and the first branch after the loop. *)
Definition updatePrevious (ph : Phase) (st : Loop) : Loop :=
  match statusKnown st with
  | Some (prev, status) =>
      let keyToIncrement :=
        if status then exifSuccessKey options else exifFailedKey options in
      let '(exifUpdated, w) :=
        ExifWriter.incrementCounter (exifWriterInstance st) prev keyToIncrement in
      {| summary :=
           if exifUpdated
           then (if status then incSuccess (summary st)
                 else incFailed (summary st))
           else incExifErrors (summary st);
         previousImagePath := previousImagePath st;
         successStatusForPreviousImage := successStatusForPreviousImage st;
         fileIndex := fileIndex st;
         exifWriterInstance := w;
         handler := handler st;
         log := log st ++ [EvIncrement ph prev keyToIncrement exifUpdated] |}
  | None => st
  end.

(** [fileIndex++], the update for the previous image, then
    [successStatusForPreviousImage = null]. *)
Definition prepare (st : Loop) : Loop :=
  let st1 := updatePrevious (InLoop (S (fileIndex st)))
    {| summary := summary st;
       previousImagePath := previousImagePath st;
       successStatusForPreviousImage := successStatusForPreviousImage st;
       fileIndex := S (fileIndex st);
       exifWriterInstance := exifWriterInstance st;
       handler := handler st;
       log := log st |} in
  {| summary := summary st1;
     previousImagePath := previousImagePath st1;
     successStatusForPreviousImage := None;
     fileIndex := fileIndex st1;
     exifWriterInstance := exifWriterInstance st1;
     handler := handler st1;
     log := log st1 |}.

(** [this.options.skipIfCreated !== false] *)
Definition skipEnabled : bool :=
  match skipIfCreated options with
  | Some false => false
  | _ => true
  end.

(** [existingData?.[this.options.exifSuccessKey] || 0] *)
Definition existingSuccessCount (existingData : option (gmap string nat)) : nat :=
  default 0 (existingData ≫= λ d, d !! exifSuccessKey options).

(** The skip check and, when the image is not skipped, the
    submission.  [getAppData] catches its own errors, so the
    [catch (readError)] of the source is never entered. *)
Definition skipOrSubmit (total : nat) (currentImagePath : string)
    (st : Loop) : Loop :=
  let '(existingData, w) :=
    ExifWriter.getAppData (exifWriterInstance st) currentImagePath in
  if (0 <? existingSuccessCount existingData) && skipEnabled
  then
    {| summary := incSkipped (summary st);
       previousImagePath := None;
       successStatusForPreviousImage := successStatusForPreviousImage st;
       fileIndex := fileIndex st;
       exifWriterInstance := w;
       handler := handler st;
       log := log st ++ [EvSkip (fileIndex st) currentImagePath] |}
  else
    let summary1 := incProcessed (summary st) in
    let '(attemptResult, h) :=
      processImage (handler st) currentImagePath (prompt options) in
    let '(status, summary2) :=
      match attemptResult with
      | Returns (SubmitReport submitted successStatusOfPrevious) =>
          (successStatusOfPrevious,
           if submitted then summary1 else incSubmitErrors summary1)
      | Returns (SuccessReport _) =>
          (* no [submitted] field: "did not return expected result object" *)
          (false, incSubmitErrors summary1)
      | Throws _ =>
          (false, incSubmitErrors summary1)
      end in
    {| summary := summary2;
       previousImagePath := Some currentImagePath;
       successStatusForPreviousImage := Some status;
       fileIndex := fileIndex st;
       exifWriterInstance := w;
       handler := h;
       log := log st ++ [EvSubmit (fileIndex st) currentImagePath] ++
              (if fileIndex st <? total then [EvWait (fileIndex st)] else []) |}.

Definition loopBody (total : nat) (currentImagePath : string)
    (st : Loop) : Loop :=
  skipOrSubmit total currentImagePath (prepare st).

(** [for (const currentImagePath of imagePaths)] *)
Fixpoint forOf (total : nat) (imagePaths : list string) (st : Loop) : Loop :=
  match imagePaths with
  | [] => st
  | currentImagePath :: rest =>
      forOf total rest (loopBody total currentImagePath st)
  end.

(** The two branches after the loop. *)
Definition finish (st : Loop) : Loop :=
  match statusKnown st with
  | Some _ => updatePrevious FinalKnown st
  | None =>
      match previousImagePath st, successStatusForPreviousImage st with
      | Some prev, None =>
          if Js.truthy prev && (0 <? processed (summary st))
          then
            let keyToIncrement := exifFailedKey options in
            let '(exifUpdated, w) :=
              ExifWriter.incrementCounter (exifWriterInstance st) prev
                keyToIncrement in
            {| summary :=
                 if exifUpdated then incFailed (summary st)
                 else incExifErrors (summary st);
               previousImagePath := previousImagePath st;
               successStatusForPreviousImage := successStatusForPreviousImage st;
               fileIndex := fileIndex st;
               exifWriterInstance := w;
               handler := handler st;
               log := log st ++
                 [EvIncrement FinalUndetermined prev keyToIncrement exifUpdated] |}
          else st
      | _, _ => st
      end
  end.

Definition runBatch (h : H) (w : ExifWriter.t) (imagePaths : list string) : Loop :=
  finish (forOf (length imagePaths) imagePaths (start h w)).

Definition processImageBatch (h : H) (w : ExifWriter.t)
    (imagePaths : list string) : Summary :=
  summary (runBatch h w imagePaths).

End Batch.

Arguments Loop H : clear implicits.

(** *** runRecursiveMode *)

Section Recursive.
Context {H : Type} `{BaseHandler H}.
Variable options : Options.
(** [options.input] and [options.userDataDir]. *)
Variable input userDataDir : string.
Variable fs : FileManager.Fs.

(** What a task finds when it opens its own browser on a profile and
    lists the images of its input directory: the error of the first
    step that throws before the batch starts (launch, handler choice,
    new page, navigation, readiness), the handler bound to the page,
    the exiftool process for the task's own writer, the image files. *)
Record Session := {
  startupFails : option Js.error;
  sessionHandler : H;
  sessionExiftool : ExifWriter.ExifTool;
  imagePaths : list string
}.

Variable launch : string → string → Session.

(** The [task] closure; what it returns is [pairResult]. *)
Definition task (currentInputPath currentUserDataPath : string) : Summary :=
  let pairResult := zeroSummary in
  let session := launch currentInputPath currentUserDataPath in
  match startupFails session with
  | Some _ => pairResult
  | None =>
      if 0 <? length (imagePaths session)
      then processImageBatch options (sessionHandler session)
             (ExifWriter.new options (sessionExiftool session))
             (imagePaths session)
      else pairResult
  end.

Inductive Warning :=
| MismatchCount (inputs profiles pairs : nat)
| NoMatchingPairs.

(** [aggregateSummary.x += summary.x] for every field. *)
Definition accumulate (aggregateSummary summary : Summary) : Summary :=
  {| processed := processed aggregateSummary + processed summary;
     skipped := skipped aggregateSummary + skipped summary;
     success := success aggregateSummary + success summary;
     failed := failed aggregateSummary + failed summary;
     submitErrors := submitErrors aggregateSummary + submitErrors summary;
     exifErrors := exifErrors aggregateSummary + exifErrors summary |}.

(** What a run in recursive mode did: the pairs for which a task was
    created, the warnings, the results that [Promise.all] resolved to
    and the aggregated summary. *)
Record Report := {
  numPairs : nat;
  tasks : list (string * string);
  warnings : list Warning;
  results : list Summary;
  aggregateSummary : Summary
}.

Definition noTasks (n : nat) (ws : list Warning) : Report :=
  {| numPairs := n; tasks := []; warnings := ws; results := [];
     aggregateSummary := zeroSummary |}.

(** An error of [pLimit(this.options.concurrency)] is thrown inside
    the [try], after the pairs have been counted and before any task
    is created; it is caught and logged.  Every task catches its own
    errors, so [Promise.all] resolves to the results of all tasks in
    the order of [tasks]; every result is an object, so the guard
    [if (summary)] of the aggregation holds. *)
Definition runRecursiveMode : Report :=
  match FileManager.findSubdirectories fs input with
  | Js.Thrown _ => noTasks 0 []
  | Js.Ok inputSubDirs =>
      match FileManager.findSubdirectories fs userDataDir with
      | Js.Thrown _ => noTasks 0 []
      | Js.Ok userDataSubDirs =>
          let numPairs := length inputSubDirs `min` length userDataSubDirs in
          let ws :=
            if negb (length inputSubDirs =? length userDataSubDirs)
            then [MismatchCount (length inputSubDirs) (length userDataSubDirs) numPairs]
            else [] in
          if numPairs =? 0
          then noTasks numPairs (ws ++ [NoMatchingPairs])
          else
            match PLimit.pLimit (concurrency options) with
            | Some _ => noTasks numPairs ws
            | None =>
                let tasks :=
                  (λ i, (inputSubDirs !!! i, userDataSubDirs !!! i)) <$> seq 0 numPairs in
                let results := (λ pair, task pair.1 pair.2) <$> tasks in
                {| numPairs := numPairs; tasks := tasks; warnings := ws;
                   results := results;
                   aggregateSummary := fold_left accumulate results zeroSummary |}
            end
      end
  end.

End Recursive.

End Manager.

(** ** src/services/chatgpt_service.js *)

Module ChatGptService.

(** The latest response block as the image count check finds it. *)
Inductive LatestBlock :=
| NoBlocks
| Detached
| Images (count : nat)
| CheckFails (e : Js.error).

(** What the page does during one attempt of the handler; [None]
    means that the awaited call resolves. *)
Record View := {
  readyVisible : bool;
  uploadFails : option Js.error;
  promptFails : option Js.error;
  gateFails : option Js.error;
  latestBlock : LatestBlock;
  clickFails : option Js.error;
  reloadFails : option Js.error
}.

(** The page: the view of every attempt, the number of attempts made
    and the number of reloads. *)
Record Page := {
  views : nat → View;
  attempts : nat;
  reloads : nat
}.

Definition requiredSelectors : list string :=
  ["promptTextarea"; "submitButton"; "uploadButtonInitiator"; "fileInputHidden";
   "imagePreviewConfirmation"; "responseArea"; "imageInResponse"].

(** The first of the required keys that is not [in this.selectors]. *)
Fixpoint firstMissing (selectors : Selectors.t) (keys : list string) : option string :=
  match keys with
  | [] => None
  | key :: rest =>
      match Selectors.named selectors !! key with
      | Some _ => firstMissing selectors rest
      | None => Some key
      end
  end.

(** The constructor: the error that it throws, or [None] when the
    service is built. *)
Definition new (o : Options) : option Js.error :=
  match chatgptSelectors o with
  | None => Some (Js.newError "ChatGPT selectors not found in configuration.")
  | Some selectors =>
      match firstMissing selectors requiredSelectors with
      | Some key =>
          Some (Js.newError ("Required ChatGPT selector 'selectors.chatgpt." +:+ key
                             +:+ "' is missing."))
      | None => None
      end
  end.

Definition uploadImage (v : View) : Js.outcome unit :=
  match uploadFails v with
  | Some error =>
      Js.Thrown (Js.newError ("ChatGPT Image upload failed: " +:+ Js.message error))
  | None => Js.Ok ()
  end.

Definition enterPrompt (v : View) : Js.outcome unit :=
  match promptFails v with
  | Some error =>
      Js.Thrown (Js.newError ("Entering prompt failed: " +:+ Js.message error))
  | None => Js.Ok ()
  end.

(** The message thrown when the submit button stays disabled;
    [enableTimeout / 1000] is 360. *)
Definition gateTimeoutMessage : string :=
  "Submit button did not become enabled within the 360s timeout.".

Definition checkPreviousSuccessAndSubmit (submitButton : string) (v : View)
  : Js.outcome bool :=
  let catch (error : Js.error) : Js.outcome bool :=
    if String.eqb (Js.name error) "TimeoutError" &&
       Js.includes submitButton (Js.message error)
    then Js.Thrown (Js.newError gateTimeoutMessage)
    else Js.Thrown (Js.newError
           ("checkPreviousSuccessAndSubmit failed: " +:+ Js.message error)) in
  match gateFails v with
  | Some error => catch error
  | None =>
      let currentImageCount :=
        match latestBlock v with
        | NoBlocks => 0
        | Detached => 0
        | Images count => count
        | CheckFails _ => 0
        end in
      let successOfPrevious := 0 <? currentImageCount in
      match clickFails v with
      | Some error => catch error
      | None => Js.Ok successOfPrevious
      end
  end.

End ChatGptService.

(** ** src/handlers/chatgpt_handler.js *)

Module ChatGptHandler.
Import ChatGptService.

(** [chatgptService] is [false] for [null] and [true] once the
    service has been built. *)
Record t := {
  options : Options;
  readySelectors : list string;
  chatgptService : bool;
  page : Page
}.

Definition new (o : Options) (p : Page) : t :=
  {| options := o; readySelectors := chatgptReadySelectors o;
     chatgptService := false; page := p |}.

Definition maxRetries : nat := 1.

(** The variables of the retry loop of [processImage]. *)
Record Retry := {
  retryAttempt : nat;
  successStatusOfPrevious : bool;
  submitted : bool;
  onPage : Page
}.

Inductive Flow := Break (r : Retry) | Continue (r : Retry).

Definition gatePhrase : string := "Submit button did not become enabled".

(** How the [try] block of one pass ends: at the [break] of the
    readiness check, at the [break] after the submission, or in the
    [catch] with the error thrown. *)
Inductive TryEnd :=
| NotReady
| Submitted (status : bool)
| Caught (error : Js.error).

(** The [try] block. [handlePotentialCaptcha] and [delayIfCaptcha]
    catch every error and only wait. *)
Definition tryBlock (h : t) (v : View) : TryEnd :=
  if (0 <? length (readySelectors h)) && negb (readyVisible v)
  then NotReady
  else
    match uploadImage v with
    | Js.Thrown error => Caught error
    | Js.Ok _ =>
        match enterPrompt v with
        | Js.Thrown error => Caught error
        | Js.Ok _ =>
            match checkPreviousSuccessAndSubmit
                    (chatgptSubmitButton (options h)) v with
            | Js.Thrown error => Caught error
            | Js.Ok status => Submitted status
            end
        end
    end.

(** One pass through the body of [while (retryAttempt <= maxRetries)]:
    the page shows its next view. *)
Definition attempt (h : t) (r : Retry) : Flow :=
  let v := views (onPage r) (attempts (onPage r)) in
  let page1 := {| views := views (onPage r);
                  attempts := S (attempts (onPage r));
                  reloads := reloads (onPage r) |} in
  let stop (submitted successStatusOfPrevious : bool) (n : nat) (p : Page) :=
    Break {| retryAttempt := n;
             successStatusOfPrevious := successStatusOfPrevious;
             submitted := submitted; onPage := p |} in
  match tryBlock h v with
  | NotReady => stop false false (retryAttempt r) page1
  | Submitted status => stop true status (retryAttempt r) page1
  | Caught error =>
      if Js.includes gatePhrase (Js.message error) &&
         (retryAttempt r <? maxRetries)
      then
        (* retryAttempt++, then page.reload *)
        match reloadFails v with
        | None =>
            Continue {| retryAttempt := S (retryAttempt r);
                        successStatusOfPrevious := successStatusOfPrevious r;
                        submitted := submitted r;
                        onPage := {| views := views page1;
                                     attempts := attempts page1;
                                     reloads := S (reloads page1) |} |}
        | Some _ => stop false false (S (retryAttempt r)) page1
        end
      else stop false false (retryAttempt r) page1
  end.

(** [while (retryAttempt <= maxRetries)], with a bound on the number
    of passes; [None] when the bound is reached before the loop ends. *)
Fixpoint while (fuel : nat) (h : t) (r : Retry) : option Retry :=
  if retryAttempt r <=? maxRetries
  then
    match fuel with
    | 0 => None
    | S fuel =>
        match attempt h r with
        | Break r' => Some r'
        | Continue r' => while fuel h r'
        end
    end
  else Some r.

Definition enter (h : t) : Retry :=
  {| retryAttempt := 0; successStatusOfPrevious := false;
     submitted := false; onPage := page h |}.

(** [if (!this.chatgptService) this.chatgptService = new ChatGptService(...)],
    before the loop and outside its [try]: the error that the
    constructor throws, when the service has to be built. *)
Definition buildService (h : t) : option Js.error :=
  if chatgptService h then None else ChatGptService.new (options h).

(** An error of the constructor leaves the handler as it was and
    rejects the call.  [maxRetries + 1] passes always end the loop
    (lemma [while_enough_fuel] below), so the last branch is never
    taken. *)
Definition processImage (h : t) (imagePath prompt : string) : Completion * t :=
  match buildService h with
  | Some error => (Throws error, h)
  | None =>
      match while (S maxRetries) h (enter h) with
      | Some r =>
          (Returns (SubmitReport (submitted r) (successStatusOfPrevious r)),
           {| options := options h; readySelectors := readySelectors h;
              chatgptService := true; page := onPage r |})
      | None => (Returns (SubmitReport false false), h)
      end
  end.

(** The number of passes through the retry loop that a call made. *)
Definition attemptsMade (before after : t) : nat :=
  attempts (page after) - attempts (page before).

Definition reloadsMade (before after : t) : nat :=
  reloads (page after) - reloads (page before).

End ChatGptHandler.

#[export] Instance ChatGptHandler_BaseHandler : BaseHandler ChatGptHandler.t := {|
  platformKey := λ _, "chatgpt";
  processImage := ChatGptHandler.processImage
|}.

(** ** src/services/gemini_service.js *)

Module GeminiService.

Inductive Response :=
| Rendered (imageFound : bool)
| ResponseFails (e : Js.error).

Record View := {
  readyVisible : bool;
  uploadFails : option Js.error;
  promptFails : option Js.error;
  submitFails : option Js.error;
  response : Response
}.

Record Page := {
  views : nat → View;
  attempts : nat
}.

Definition requiredSelectors : list string :=
  ["promptTextarea"; "submitButton"; "uploadButtonInitiator"; "uploadButtonLocalImage";
   "imagePreviewConfirmation"; "responseArea"; "imageInResponse"].

(** The constructor: the error that it throws, or [None] when the
    service is built. A required selector must be truthy. *)
Definition new (o : Options) : option Js.error :=
  match geminiSelectors o with
  | None => Some (Js.newError "Gemini selectors not found in configuration.")
  | Some selectors =>
      if forallb (λ key, Js.truthy (default "" (Selectors.named selectors !! key)))
           requiredSelectors
      then None
      else Some (Js.newError "One or more required Gemini selectors are missing in the configuration. Please check config.js.")
  end.

Definition uploadImage (imageName : string) (v : View) : Js.outcome unit :=
  match uploadFails v with
  | Some error =>
      Js.Thrown (Js.newError ("Image upload failed for " +:+ imageName +:+ ": "
                              +:+ Js.message error))
  | None => Js.Ok ()
  end.

Definition enterPrompt (v : View) : Js.outcome unit :=
  match promptFails v with
  | Some error =>
      Js.Thrown (Js.newError ("Entering prompt failed: " +:+ Js.message error))
  | None => Js.Ok ()
  end.

Definition submit (v : View) : Js.outcome unit :=
  match submitFails v with
  | Some error =>
      Js.Thrown (Js.newError ("Clicking submit failed: " +:+ Js.message error))
  | None => Js.Ok ()
  end.

(** Resolves to the [success] field of the object it returns. *)
Definition waitForResponse (v : View) : Js.outcome bool :=
  match response v with
  | Rendered imageFound => Js.Ok imageFound
  | ResponseFails error =>
      if String.eqb (Js.name error) "TimeoutError"
      then Js.Ok false
      else Js.Thrown (Js.newError
             ("Error during response processing: " +:+ Js.message error))
  end.

End GeminiService.

(** ** src/handlers/gemini_handler.js *)

Module GeminiHandler.
Import GeminiService.

(** [geminiService] is [false] for [null] and [true] once the service
    has been built. *)
Record t := {
  options : Options;
  readySelectors : list string;
  geminiService : bool;
  page : Page
}.

Definition new (o : Options) (p : Page) : t :=
  {| options := o; readySelectors := geminiReadySelectors o;
     geminiService := false; page := p |}.

(** The [success] value that [processImage] resolves to. *)
Definition resolve (h : t) (imagePath : string) : bool :=
  let v := views (page h) (attempts (page h)) in
  if negb (length (readySelectors h) =? 0) && negb (readyVisible v)
  then false
  else
    match uploadImage imagePath v with
    | Js.Thrown _ => false
    | Js.Ok _ =>
        match enterPrompt v with
        | Js.Thrown _ => false
        | Js.Ok _ =>
            match submit v with
            | Js.Thrown _ => false
            | Js.Ok _ =>
                match waitForResponse v with
                | Js.Thrown _ => false
                | Js.Ok success => success
                end
            end
        end
    end.

(** [if (!this.geminiService) this.geminiService = new GeminiService(...)],
    before the [try]: the error that the constructor throws, when the
    service has to be built. *)
Definition buildService (h : t) : option Js.error :=
  if geminiService h then None else GeminiService.new (options h).

(** An error of the constructor leaves the handler as it was and
    rejects the call; every later error is caught. *)
Definition processImage (h : t) (imagePath prompt : string) : Completion * t :=
  match buildService h with
  | Some error => (Throws error, h)
  | None =>
      (Returns (SuccessReport (resolve h imagePath)),
       {| options := options h; readySelectors := readySelectors h;
          geminiService := true;
          page := {| views := views (page h); attempts := S (attempts (page h)) |} |})
  end.

End GeminiHandler.

#[export] Instance GeminiHandler_BaseHandler : BaseHandler GeminiHandler.t := {|
  platformKey := λ _, "gemini";
  processImage := GeminiHandler.processImage
|}.

(** ** Reading the log of a batch *)

Module Trace.
Import Manager.

(** The counter increments of a log: where each happened and for
    which file. *)
Definition updates (l : list Event) : list (Phase * string) :=
  omap (λ e, match e with
             | EvIncrement ph filePath _ _ => Some (ph, filePath)
             | _ => None
             end) l.

(** The handler calls of a log: the file index and the image. *)
Definition submissions (l : list Event) : list (nat * string) :=
  omap (λ e, match e with
             | EvSubmit i imagePath => Some (i, imagePath)
             | _ => None
             end) l.

(** The images seen by the loop, skipped or submitted. *)
Definition visits (l : list Event) : list (nat * string) :=
  omap (λ e, match e with
             | EvSubmit i imagePath => Some (i, imagePath)
             | EvSkip i imagePath => Some (i, imagePath)
             | _ => None
             end) l.

(** Where the image submitted with file index [i] is due for its
    counter update in a batch of [total] images. *)
Definition nextPhase (total i : nat) : Phase :=
  if i <? total then InLoop (S i) else FinalKnown.

(** The update that a submission is due; none for the empty path,
    which is falsy. *)
Definition due (total : nat) (s : nat * string) : list (Phase * string) :=
  if Js.truthy s.2 then [(nextPhase total s.1, s.2)] else [].

(** The images of a list with the file index that the loop gives
    them, counting from one. *)
Definition numbered (imagePaths : list string) : list (nat * string) :=
  imap (λ i imagePath, (S i, imagePath)) imagePaths.

(** The submission whose status the loop holds for the next update. *)
Definition pending {H : Type} (st : Loop H) : list (nat * string) :=
  match previousImagePath st, successStatusForPreviousImage st with
  | Some prev, Some _ => [(fileIndex st, prev)]
  | _, _ => []
  end.

(** What holds of the loop state after the images [done], in a batch
    of [total] images: the loop has seen them in order, no image was
    both skipped and submitted, and every submission but the pending
    one has had the update it was due, and nothing else was updated. *)
Record Sound {H : Type} (total : nat) (done : list string) (st : Loop H) : Prop := {
  sound_index : fileIndex st = length done;
  sound_visits : visits (log st) = numbered done;
  sound_apart : ∀ i p q, EvSkip i p ∈ log st → EvSubmit i q ∈ log st → False;
  sound_status : successStatusForPreviousImage st = None → previousImagePath st = None;
  sound_updates : ∃ settled,
    submissions (log st) = settled ++ pending st ∧
    updates (log st) = settled ≫= due total
}.

End Trace.

(** ** Concrete runs *)

Module Scenarios.
Import Manager.

Definition img1 : string := "/photos/img1.jpg".
Definition img2 : string := "/photos/img2.jpg".
Definition img3 : string := "/photos/img3.jpg".

(** An exiftool process that never fails, over the given tag data. *)
Definition tool (files : gmap string (gmap string nat)) : ExifWriter.ExifTool :=
  {| ExifWriter.files := files; ExifWriter.healthy := λ _, true;
     ExifWriter.calls := 0 |}.

Definition writer (files : gmap string (gmap string nat)) : ExifWriter.t :=
  ExifWriter.new defaultConfig (tool files).

(** A ChatGPT page on which every step of an attempt goes through and
    the latest response block is as given. *)
Definition smooth (block : ChatGptService.LatestBlock) : ChatGptService.View :=
  {| ChatGptService.readyVisible := true;
     ChatGptService.uploadFails := None;
     ChatGptService.promptFails := None;
     ChatGptService.gateFails := None;
     ChatGptService.latestBlock := block;
     ChatGptService.clickFails := None;
     ChatGptService.reloadFails := None |}.

(** The page of the three-image scenario: the latest response block
    is [first] while img1 is submitted (whatever the conversation held
    before the batch); the block of img1 shows a generated image while
    img2 is submitted; the block of img2 shows none while img3 is
    submitted. *)
Definition deferredScriptFrom (first : ChatGptService.LatestBlock)
    (attempt : nat) : ChatGptService.View :=
  match attempt with
  | 0 => smooth first
  | 1 => smooth (ChatGptService.Images 1)
  | _ => smooth (ChatGptService.Images 0)
  end.

(** The same on a fresh conversation: no response block yet. *)
Definition deferredScript : nat → ChatGptService.View :=
  deferredScriptFrom ChatGptService.NoBlocks.

Definition chatgpt (views : nat → ChatGptService.View) : ChatGptHandler.t :=
  ChatGptHandler.new defaultConfig
    {| ChatGptService.views := views; ChatGptService.attempts := 0;
       ChatGptService.reloads := 0 |}.

(** The same handler once the page has been through [k] attempts. *)
Definition chatgptAfter (views : nat → ChatGptService.View) (k : nat) : ChatGptHandler.t :=
  {| ChatGptHandler.options := defaultConfig;
     ChatGptHandler.readySelectors := chatgptReadySelectors defaultConfig;
     ChatGptHandler.chatgptService := 0 <? k;
     ChatGptHandler.page :=
       {| ChatGptService.views := views; ChatGptService.attempts := k;
          ChatGptService.reloads := 0 |} |}.

(** The puppeteer timeout of the wait for the enabled submit button. *)
Definition submitTimeout : Js.error :=
  Js.Error "TimeoutError"
    ("Waiting for selector `" +:+ chatgptSubmitButton defaultConfig +:+
     ":not([disabled])` failed: Waiting failed: 360000ms exceeded").

(** A page on which the submit button never becomes enabled. *)
Definition stuck : ChatGptService.View :=
  {| ChatGptService.readyVisible := true;
     ChatGptService.uploadFails := None;
     ChatGptService.promptFails := None;
     ChatGptService.gateFails := Some submitTimeout;
     ChatGptService.latestBlock := ChatGptService.NoBlocks;
     ChatGptService.clickFails := None;
     ChatGptService.reloadFails := None |}.

(** A Gemini page on which every response shows a generated image. *)
Definition geminiFinds : GeminiService.View :=
  {| GeminiService.readyVisible := true;
     GeminiService.uploadFails := None;
     GeminiService.promptFails := None;
     GeminiService.submitFails := None;
     GeminiService.response := GeminiService.Rendered true |}.

Definition gemini (views : nat → GeminiService.View) : GeminiHandler.t :=
  GeminiHandler.new defaultConfig
    {| GeminiService.views := views; GeminiService.attempts := 0 |}.

(** Tag data in which img2 already has a success count of two. *)
Definition img2Done : gmap string (gmap string nat) :=
  {[ img2 := {[ "successCount" := 2; "failedCount" := 0 ]} ]}.

(** Node's [path] module on POSIX for a process whose working
    directory is [/work], on paths that need no normalising: no [.]
    or [..] segment and no doubled or trailing slash. *)
Definition posix : FileManager.Path :=
  {| FileManager.resolve := λ p,
       if String.prefix "/" p then p else "/work/" +:+ p;
     FileManager.join := λ dirPath name, dirPath +:+ "/" +:+ name |}.

(** Three input directories and a file, two profile directories. *)
Definition disk : FileManager.Fs :=
  {| FileManager.path := posix;
     FileManager.readdir := λ dirPath,
       if String.eqb dirPath "/in" then
         Js.Ok [ {| FileManager.name := "b"; FileManager.isDirectory := true |};
                 {| FileManager.name := "a"; FileManager.isDirectory := true |};
                 {| FileManager.name := "notes.txt"; FileManager.isDirectory := false |};
                 {| FileManager.name := "c"; FileManager.isDirectory := true |} ]
       else if String.eqb dirPath "/profiles" then
         Js.Ok [ {| FileManager.name := "p2"; FileManager.isDirectory := true |};
                 {| FileManager.name := "p1"; FileManager.isDirectory := true |} ]
       else Js.Thrown (Js.Error "Error" "ENOENT") |}.

(** Every session starts and finds the three images. *)
Definition sessions (input profile : string) : Session (H:=ChatGptHandler.t) :=
  {| startupFails := None;
     sessionHandler := chatgpt deferredScript;
     sessionExiftool := tool ∅;
     imagePaths := [img1; img2; img3] |}.

End Scenarios.

(** ** The sentence on immediate verification, as it is written *)

Module Stated.
Import Manager.

(** The Gemini handler as it stands at its [k]-th call of a batch. *)
Definition atCall (h : GeminiHandler.t) (k : nat) : GeminiHandler.t :=
  {| GeminiHandler.options := GeminiHandler.options h;
     GeminiHandler.readySelectors := GeminiHandler.readySelectors h;
     GeminiHandler.geminiService := GeminiHandler.geminiService h || (0 <? k);
     GeminiHandler.page :=
       {| GeminiService.views := GeminiService.views (GeminiHandler.page h);
          GeminiService.attempts :=
            GeminiService.attempts (GeminiHandler.page h) + k |} |}.

(** Every submitted image has its counter incremented in its own
    pass of the loop or in the next one, under the key of the value
    that its own call resolved, and the branch for an undetermined
    status never runs. *)
Definition persistsOwnValue (options : Options) (h : GeminiHandler.t)
    (w : ExifWriter.t) (imagePaths : list string) : Prop :=
  let l := log (runBatch options h w imagePaths) in
  (∀ k i image, Trace.submissions l !! k = Some (i, image) →
     let own := GeminiHandler.resolve (atCall h k) image in
     let key := if own then exifSuccessKey options else exifFailedKey options in
     ∃ ok, EvIncrement (InLoop i) image key ok ∈ l ∨
           EvIncrement (InLoop (S i)) image key ok ∈ l) ∧
  (∀ filePath key ok, EvIncrement FinalUndetermined filePath key ok ∉ l).

(** Whatever the options: two listings that succeed with [M] and [K]
    directories give exactly [min M K] tasks. *)
Definition pairsEveryMinimum {H : Type} `{BaseHandler H} (options : Options)
    (input userDataDir : string) (fs : FileManager.Fs)
    (launch : string → string → Session) : Prop :=
  ∀ inputSubDirs userDataSubDirs,
    FileManager.findSubdirectories fs input = Js.Ok inputSubDirs →
    FileManager.findSubdirectories fs userDataDir = Js.Ok userDataSubDirs →
    length (tasks (runRecursiveMode options input userDataDir fs launch)) =
      length inputSubDirs `min` length userDataSubDirs.

(** The retry is gated strictly on the gate timeout: a call whose
    first pass finds the submit button enabled (the wait for it does
    not fail) makes no second pass, whatever else fails. *)
Definition retriesOnDisabledButtonOnly (h : ChatGptHandler.t)
    (imagePath prompt : string) : Prop :=
  let first := ChatGptService.views (ChatGptHandler.page h)
                 (ChatGptService.attempts (ChatGptHandler.page h)) in
  ChatGptService.gateFails first = None →
  ChatGptHandler.attemptsMade h (ChatGptHandler.processImage h imagePath prompt).2 ≤ 1.

End Stated.

(** ** More JavaScript strings *)

Module JsText.

(** [toLowerCase] on the letters A to Z; the flags, URLs and file
    extensions that the code lowers are ASCII. *)
Definition lowerCode (c : Ascii.ascii) : Ascii.ascii :=
  let n := Ascii.nat_of_ascii c in
  if (65 <=? n) && (n <=? 90) then Ascii.ascii_of_nat (n + 32) else c.

Fixpoint toLowerCase (s : string) : string :=
  match s with
  | EmptyString => EmptyString
  | String c rest => String (lowerCode c) (toLowerCase rest)
  end.

(** [a || b] for a string that may be [undefined]. *)
Definition orElse (a : option string) (b : string) : string :=
  match a with
  | Some s => if Js.truthy s then s else b
  | None => b
  end.

(** [a || b] for a number that may be [undefined]: zero is falsy. *)
Definition orNumber (a : option nat) (b : nat) : nat :=
  match a with
  | Some (S n) => S n
  | _ => b
  end.

(** A value that may be [undefined], inside a template literal. *)
Definition shown (a : option string) : string := default "undefined" a.

End JsText.

(** ** src/core/handler_factory.js *)

Module HandlerFactory.

(** The fields of the options that [getHandler] reads. *)
Record Options := {
  platform : option string;
  url : option string;
  geminiUrl : option string;
  chatgptUrl : option string
}.

(** Which handler class is instantiated. *)
Inductive Handler := Gemini | ChatGpt.

Definition failure (platform : option string) (url : string) : Js.error :=
  Js.newError ("Could not determine platform handler for platform='" +:+
    JsText.shown platform +:+ "', url='" +:+ url +:+
    "'. Provide a supported --url or use --platform (e.g., --platform gemini, --platform chatgpt).").

Definition getHandler (options : Options) : Js.outcome Handler :=
  let platform := JsText.toLowerCase <$> platform options in
  let url := JsText.orElse (url options)
               (JsText.orElse (geminiUrl options)
                  (JsText.orElse (chatgptUrl options) "")) in
  let lowerCaseUrl := JsText.toLowerCase url in
  if bool_decide (platform = Some "gemini") then Js.Ok Gemini
  else if bool_decide (platform = Some "chatgpt") then Js.Ok ChatGpt
  else
    if negb (Js.truthy (default "" platform)) && Js.truthy url
    then
      if Js.includes "gemini.google.com" lowerCaseUrl then Js.Ok Gemini
      else if Js.includes "chatgpt.com" lowerCaseUrl ||
              Js.includes "chat.openai.com" lowerCaseUrl
      then Js.Ok ChatGpt
      else Js.Thrown (failure platform url)
    else Js.Thrown (failure platform url).

End HandlerFactory.

(** ** src/file_manager.js: the search for image files *)

Module FileManagerImages.

(** What a path holds on disk. A directory lists its entries by name;
    [Unreadable] is a directory whose [fs.readdir] throws; [Other] is
    neither a file nor a directory. *)
#[warnings="-register-all"]
Inductive Node :=
| File
| Other
| Directory (entries : list (string * Node))
| Unreadable.

Section Search.
(** [path.extname], and [options.supportedImageExtensions]. *)
Variable extname : string → string.
Variable extensions : list string.
(** [path.resolve] and [path.join]. *)
Variable path : FileManager.Path.

Definition isSupportedImage (filePath : string) : bool :=
  let ext := JsText.toLowerCase (extname filePath) in
  existsb (String.eqb ext) extensions.

(** What one entry of a directory adds to [imageFiles]; the inner
    loop is that of [_readDirectoryForImages] over a subdirectory,
    whose own [fs.readdir] error is caught.  A file is tested under
    its joined path and pushed under the resolved one. *)
Fixpoint entryImages (recurse : bool) (fullPath : string) (node : Node)
    {struct node} : list string :=
  match node with
  | Directory entries =>
      if recurse
      then
        (fix walk (entries : list (string * Node)) : list string :=
           match entries with
           | [] => []
           | (name, child) :: rest =>
               entryImages recurse (FileManager.join path fullPath name) child
               ++ walk rest
           end) entries
      else []
  | Unreadable => []
  | File =>
      if isSupportedImage fullPath then [FileManager.resolve path fullPath] else []
  | Other => []
  end.

(** The loop over the entries of a directory that was read. *)
Definition _readDirectoryForImages (dirPath : string) (recurse : bool)
    (entries : list (string * Node)) : list string :=
  entries ≫= λ entry,
    entryImages recurse (FileManager.join path dirPath entry.1) entry.2.

(** [stat] is what [fs.stat] finds at the resolved input path,
    [None] when it throws; the error is logged and the list stays
    empty. *)
Definition findImageFiles (stat : option Node) (inputPath : string)
    (recurse : bool) : list string :=
  let absoluteInputPath := FileManager.resolve path inputPath in
  match stat with
  | None => []
  | Some File =>
      if isSupportedImage absoluteInputPath then [absoluteInputPath] else []
  | Some (Directory entries) =>
      _readDirectoryForImages absoluteInputPath recurse entries
  | Some Unreadable => []
  | Some Other => []
  end.

End Search.

End FileManagerImages.

(** ** src/handlers/base_handler.js: the two guards *)

Module BaseHandlerGuards.

(** What the page does during [handlePotentialCaptcha]: how the race
    between the CAPTCHA selectors and the ready selectors ends, what
    [page.$] finds for the CAPTCHA selectors, and how the wait for the
    ready selectors after the pause ends. *)
Record CaptchaView := {
  raceFails : option Js.error;
  captchaElement : Js.outcome bool;
  readyAfterFails : option Js.error
}.

(** The value returned, and the milliseconds spent in the pause for
    manual solving. *)
Definition handlePotentialCaptcha (captchaSelectors readySelectors : list string)
    (manualSolveWaitTimeMs : nat) (v : CaptchaView) : bool * nat :=
  if length captchaSelectors =? 0 then (false, 0)
  else
    match raceFails v with
    | Some _ => (false, 0)
    | None =>
        match captchaElement v with
        | Js.Thrown _ => (false, 0)
        | Js.Ok false => (false, 0)
        | Js.Ok true =>
            if 0 <? length readySelectors
            then
              match readyAfterFails v with
              | None => (true, manualSolveWaitTimeMs)
              | Some _ => (false, manualSolveWaitTimeMs)
              end
            else (true, manualSolveWaitTimeMs)
        end
    end.

(** [delayMs || this.options.waitTimeout || 5000] *)
Definition waitTime (delayMs waitTimeout : option nat) : nat :=
  JsText.orNumber delayMs (JsText.orNumber waitTimeout 5000).

(** The milliseconds that [delayIfCaptcha] waits; [readyFails] is how
    the quick wait for the ready selectors ends. *)
Definition delayIfCaptcha (readySelectors : list string)
    (delayMs waitTimeout : option nat) (readyFails : option Js.error) : nat :=
  if length readySelectors =? 0 then 0
  else
    match readyFails with
    | None => 0
    | Some error =>
        if String.eqb (Js.name error) "TimeoutError"
        then waitTime delayMs waitTimeout
        else 0
    end.

End BaseHandlerGuards.

(** ** src/core/browser_factory.js *)

Module BrowserFactory.

(** The module's variable [browser] (a browser is named by the number
    of the launch that made it) and the number of calls made to
    [puppeteer.launch]. *)
Record State := {
  browser : option nat;
  launches : nat
}.

Definition initial : State := {| browser := None; launches := 0 |}.

(** [puppeteerLaunch] is how the call to [puppeteer.launch] ends, if
    it is made. *)
Definition launchBrowser (puppeteerLaunch : option Js.error) (st : State)
  : Js.outcome nat * State :=
  match browser st with
  | Some b => (Js.Ok b, st)
  | None =>
      match puppeteerLaunch with
      | None =>
          (Js.Ok (S (launches st)),
           {| browser := Some (S (launches st)); launches := S (launches st) |})
      | Some error =>
          (Js.Thrown error, {| browser := None; launches := S (launches st) |})
      end
  end.

(** [browserNewPage] is how [browser.newPage] ends; the page is named
    by its browser. *)
Definition newPage (browserNewPage : option Js.error) (st : State)
  : Js.outcome nat :=
  match browser st with
  | None => Js.Thrown (Js.newError "Browser not available")
  | Some b =>
      match browserNewPage with
      | None => Js.Ok b
      | Some error => Js.Thrown error
      end
  end.

(** An error of [browser.close] is caught; the variable is reset in
    the [finally]. *)
Definition close (st : State) : State :=
  match browser st with
  | Some _ => {| browser := None; launches := launches st |}
  | None => st
  end.

(** The listener for the browser's [disconnected] event. *)
Definition disconnected (st : State) : State :=
  {| browser := None; launches := launches st |}.

End BrowserFactory.

(** ** src/manager.js: runSingleMode *)

Module SingleMode.

(** What the run meets outside the process: what [fs.stat] finds at
    [options.input], how [puppeteer.launch], [browser.newPage],
    [page.goto] and the initial wait for the ready selectors end, and
    what the page then shows to the steps of either handler. *)
Record World := {
  stat : option FileManagerImages.Node;
  puppeteerLaunch : option Js.error;
  browserNewPage : option Js.error;
  gotoFails : option Js.error;
  readyFails : option Js.error;
  geminiPage : GeminiService.Page;
  chatgptPage : ChatGptService.Page
}.

(** [this.options.url || this.options.chatgptUrl || this.options.geminiUrl],
    and the [throw] when it is falsy. *)
Definition initialUrl (target : HandlerFactory.Options) : Js.outcome string :=
  let initialUrl :=
    JsText.orElse (HandlerFactory.url target)
      (JsText.orElse (HandlerFactory.chatgptUrl target)
         (JsText.orElse (HandlerFactory.geminiUrl target) "")) in
  if Js.truthy initialUrl then Js.Ok initialUrl
  else Js.Thrown (Js.newError "Target URL not defined.").

(** How the [try] block ended. *)
Inductive Ending :=
| NoImagesFound
| Failed (error : Js.error)
| Completed.

(** The variables of [runSingleMode] that its summary log reads, the
    state of the browser factory, and what was chosen on the way. *)
Record Report := {
  imagePaths : list string;
  resultSummary : Manager.Summary;
  ending : Ending;
  factory : BrowserFactory.State;
  handler : option HandlerFactory.Handler;
  navigatedTo : option string
}.

Section Run.
Variable extname : string → string.
Variable extensions : list string.
Variable path : FileManager.Path.
Variable options : Options.
(** The platform and URL fields of the same options object. *)
Variable target : HandlerFactory.Options.
(** [options.input] and [options.recurse]. *)
Variable input : string.
Variable recurse : bool.

(** [this.options.selectors?.[platformKey]?.readySelectors || []] *)
Definition readySelectors (h : HandlerFactory.Handler) : list string :=
  match h with
  | HandlerFactory.Gemini => geminiReadySelectors options
  | HandlerFactory.ChatGpt => chatgptReadySelectors options
  end.

(** The [try] block, up to the [finally]. *)
Definition tryBlock (world : World) (sharedExifWriter : ExifWriter.t)
    (st : BrowserFactory.State) : Report :=
  let imagePaths :=
    FileManagerImages.findImageFiles extname extensions path (stat world) input
      recurse in
  let stop ending st' h url :=
    {| imagePaths := imagePaths; resultSummary := Manager.zeroSummary;
       ending := ending; factory := st'; handler := h; navigatedTo := url |} in
  if length imagePaths =? 0 then stop NoImagesFound st None None
  else
    match BrowserFactory.launchBrowser (puppeteerLaunch world) st with
    | (Js.Thrown error, st1) => stop (Failed error) st1 None None
    | (Js.Ok _, st1) =>
        match HandlerFactory.getHandler target with
        | Js.Thrown error => stop (Failed error) st1 None None
        | Js.Ok h =>
            match BrowserFactory.newPage (browserNewPage world) st1 with
            | Js.Thrown error => stop (Failed error) st1 (Some h) None
            | Js.Ok _ =>
                match initialUrl target with
                | Js.Thrown error => stop (Failed error) st1 (Some h) None
                | Js.Ok url =>
                    match gotoFails world with
                    | Some error => stop (Failed error) st1 (Some h) (Some url)
                    | None =>
                        match (if 0 <? length (readySelectors h)
                               then readyFails world else None) with
                        | Some error => stop (Failed error) st1 (Some h) (Some url)
                        | None =>
                            {| imagePaths := imagePaths;
                               resultSummary :=
                                 match h with
                                 | HandlerFactory.Gemini =>
                                     Manager.processImageBatch options
                                       (GeminiHandler.new options (geminiPage world))
                                       sharedExifWriter imagePaths
                                 | HandlerFactory.ChatGpt =>
                                     Manager.processImageBatch options
                                       (ChatGptHandler.new options (chatgptPage world))
                                       sharedExifWriter imagePaths
                                 end;
                               ending := Completed; factory := st1;
                               handler := Some h; navigatedTo := Some url |}
                        end
                    end
                end
            end
        end
    end.

(** The [finally]: [browserFactory.close()]. *)
Definition runSingleMode (world : World) (sharedExifWriter : ExifWriter.t)
    (st : BrowserFactory.State) : Report :=
  let r := tryBlock world sharedExifWriter st in
  {| imagePaths := imagePaths r; resultSummary := resultSummary r;
     ending := ending r; factory := BrowserFactory.close (factory r);
     handler := handler r; navigatedTo := navigatedTo r |}.

End Run.

End SingleMode.

(** ** More concrete runs *)

Module MoreScenarios.

(** An exiftool process whose first call fails and whose later calls
    succeed. *)
Definition flakyTool (files : gmap string (gmap string nat)) : ExifWriter.ExifTool :=
  {| ExifWriter.files := files;
     ExifWriter.healthy := λ n, negb (n =? 0);
     ExifWriter.calls := 0 |}.

(** Tag data in which all three images already have a success count. *)
Definition allDone : gmap string (gmap string nat) :=
  {[ Scenarios.img1 := {[ "successCount" := 1; "failedCount" := 0 ]};
     Scenarios.img2 := {[ "successCount" := 2; "failedCount" := 1 ]};
     Scenarios.img3 := {[ "successCount" := 1; "failedCount" := 3 ]} ]}.

(** The extension of a path by its last dot, for paths whose last
    segment has a name before the dot. *)
Fixpoint afterLastDot (s : string) (found : option string) : string :=
  match s with
  | EmptyString => default "" found
  | String c rest =>
      if Ascii.eqb c (Ascii.ascii_of_nat 46) then afterLastDot rest (Some (String c rest))
      else if Ascii.eqb c (Ascii.ascii_of_nat 47) then afterLastDot rest None
      else afterLastDot rest found
  end.

Definition extname (filePath : string) : string := afterLastDot filePath None.

Definition extensions : list string :=
  [".jpg"; ".jpeg"; ".png"; ".tif"; ".tiff"; ".webp"].

(** A directory with two images, a text file and a subdirectory that
    holds one more image. *)
Definition album : FileManagerImages.Node :=
  FileManagerImages.Directory
    [ ("a.JPG", FileManagerImages.File);
      ("notes.txt", FileManagerImages.File);
      ("old", FileManagerImages.Directory [ ("c.png", FileManagerImages.File) ]);
      ("b.webp", FileManagerImages.File) ].

(** A puppeteer timeout of the click on the submit button. *)
Definition clickTimeout : Js.error :=
  Js.Error "TimeoutError"
    ("Clicking `" +:+ chatgptSubmitButton defaultConfig +:+
     "` failed: Timed out after 30000ms").

(** A ChatGPT page on which, on the first pass, the submit button
    becomes enabled and the click on it times out, and that is smooth
    from then on, with one generated image in the latest block. *)
Definition clickStuckOnce (attempt : nat) : ChatGptService.View :=
  match attempt with
  | 0 => {| ChatGptService.readyVisible := true;
            ChatGptService.uploadFails := None;
            ChatGptService.promptFails := None;
            ChatGptService.gateFails := None;
            ChatGptService.latestBlock := ChatGptService.NoBlocks;
            ChatGptService.clickFails := Some clickTimeout;
            ChatGptService.reloadFails := None |}
  | _ => Scenarios.smooth (ChatGptService.Images 1)
  end.

(** The default options with [--concurrency 1.5], which the check of
    the command line lets through. *)
Definition fractional : Options :=
  {| prompt := prompt defaultConfig;
     exifAppName := exifAppName defaultConfig;
     exifSuccessKey := exifSuccessKey defaultConfig;
     exifFailedKey := exifFailedKey defaultConfig;
     skipIfCreated := skipIfCreated defaultConfig;
     concurrency := Js.NonInteger;
     geminiSelectors := geminiSelectors defaultConfig;
     chatgptSelectors := chatgptSelectors defaultConfig |}.

(** The default options without the ChatGPT selector [fileInputHidden]. *)
Definition noFileInput : Options :=
  {| prompt := prompt defaultConfig;
     exifAppName := exifAppName defaultConfig;
     exifSuccessKey := exifSuccessKey defaultConfig;
     exifFailedKey := exifFailedKey defaultConfig;
     skipIfCreated := skipIfCreated defaultConfig;
     concurrency := concurrency defaultConfig;
     geminiSelectors := geminiSelectors defaultConfig;
     chatgptSelectors :=
       (λ selectors,
          {| Selectors.readySelectors := Selectors.readySelectors selectors;
             Selectors.named := delete "fileInputHidden" (Selectors.named selectors) |})
       <$> chatgptSelectors defaultConfig |}.

(** A ChatGPT page whose submit button stays disabled on the first
    pass and that is smooth from then on, with one generated image in
    the latest block. *)
Definition stuckOnce (attempt : nat) : ChatGptService.View :=
  match attempt with
  | 0 => Scenarios.stuck
  | _ => Scenarios.smooth (ChatGptService.Images 1)
  end.

(** The default options with [--skipIfCreated false]. *)
Definition rerunAll : Options :=
  {| prompt := prompt defaultConfig;
     exifAppName := exifAppName defaultConfig;
     exifSuccessKey := exifSuccessKey defaultConfig;
     exifFailedKey := exifFailedKey defaultConfig;
     skipIfCreated := Some false;
     concurrency := concurrency defaultConfig;
     geminiSelectors := geminiSelectors defaultConfig;
     chatgptSelectors := chatgptSelectors defaultConfig |}.

(** The platform and URL fields of the options when the command
    line gives neither [--platform] nor [--url]: the two default URLs
    of src/config.js. *)
Definition noFlags : HandlerFactory.Options :=
  {| HandlerFactory.platform := None;
     HandlerFactory.url := None;
     HandlerFactory.geminiUrl := Some "https://gemini.google.com/app";
     HandlerFactory.chatgptUrl := Some "https://chatgpt.com/" |}.

(** [--url https://chat.openai.com/c/1] and no [--platform]. *)
Definition urlFlag : HandlerFactory.Options :=
  {| HandlerFactory.platform := None;
     HandlerFactory.url := Some "https://chat.openai.com/c/1";
     HandlerFactory.geminiUrl := Some "https://gemini.google.com/app";
     HandlerFactory.chatgptUrl := Some "https://chatgpt.com/" |}.

(** [--platform Bard --url https://gemini.google.com/app] *)
Definition bardFlag : HandlerFactory.Options :=
  {| HandlerFactory.platform := Some "Bard";
     HandlerFactory.url := Some "https://gemini.google.com/app";
     HandlerFactory.geminiUrl := Some "https://gemini.google.com/app";
     HandlerFactory.chatgptUrl := Some "https://chatgpt.com/" |}.

(** A world in which every step of the start succeeds, over the
    album, with pages that show nothing of interest. *)
Definition calm : SingleMode.World :=
  {| SingleMode.stat := Some album;
     SingleMode.puppeteerLaunch := None;
     SingleMode.browserNewPage := None;
     SingleMode.gotoFails := None;
     SingleMode.readyFails := None;
     SingleMode.geminiPage :=
       {| GeminiService.views := λ _, Scenarios.geminiFinds;
          GeminiService.attempts := 0 |};
     SingleMode.chatgptPage :=
       {| ChatGptService.views := Scenarios.deferredScript;
          ChatGptService.attempts := 0; ChatGptService.reloads := 0 |} |}.

End MoreScenarios.

(** ** What the loop of a batch keeps *)

Module Invariants.
Import Manager.

(** The summary counts what the log records. *)
Definition Tallied {H : Type} (st : Loop H) : Prop :=
  processed (summary st) = length (Trace.submissions (log st)) ∧
  processed (summary st) + skipped (summary st) = length (Trace.visits (log st)) ∧
  success (summary st) + failed (summary st) + exifErrors (summary st) =
    length (Trace.updates (log st)) ∧
  submitErrors (summary st) ≤ processed (summary st).

(** Under the Gemini handler nothing is ever held or recorded as a
    success. *)
Definition AllFailed (options : Options) (st : Loop GeminiHandler.t) : Prop :=
  success (summary st) = 0 ∧
  submitErrors (summary st) = processed (summary st) ∧
  successStatusForPreviousImage st ≠ Some true ∧
  ∀ ph filePath key ok, EvIncrement ph filePath key ok ∈ log st →
    key = exifFailedKey options.

(** Only files of submitted images have had their stored data
    changed, and the path held for the next update is a submitted
    one. *)
Definition Untouched {H : Type} (files0 : gmap string (gmap string nat))
    (st : Loop H) : Prop :=
  (∀ filePath, (∀ i, EvSubmit i filePath ∉ log st) →
     ExifWriter.files (ExifWriter.exiftool (exifWriterInstance st)) !! filePath =
     files0 !! filePath) ∧
  (∀ prev, previousImagePath st = Some prev → ∃ i, EvSubmit i prev ∈ log st).

(** The page of the ChatGPT handler has been through at most one
    attempt per processed image plus one per reload, and through two
    attempts at least for every reload. *)
Definition Paced (h0 : ChatGptHandler.t) (st : Loop ChatGptHandler.t) : Prop :=
  let p0 := ChatGptHandler.page h0 in
  let p := ChatGptHandler.page (handler st) in
  ChatGptService.reloads p0 ≤ ChatGptService.reloads p ∧
  ChatGptService.attempts p0 + 2 * ChatGptService.reloads p ≤
    ChatGptService.attempts p + 2 * ChatGptService.reloads p0 ∧
  ChatGptService.attempts p + ChatGptService.reloads p0 ≤
    ChatGptService.attempts p0 + processed (summary st) + ChatGptService.reloads p.

(** The service of the ChatGPT handler is there or can be built, and
    the page has been through exactly one attempt per processed image
    plus one per reload. *)
Definition PacedBuilt (h0 : ChatGptHandler.t) (st : Loop ChatGptHandler.t) : Prop :=
  let p0 := ChatGptHandler.page h0 in
  let p := ChatGptHandler.page (handler st) in
  ChatGptHandler.buildService (handler st) = None ∧
  ChatGptService.attempts p + ChatGptService.reloads p0 =
    ChatGptService.attempts p0 + processed (summary st) + ChatGptService.reloads p.

(** The handler is as it was given, and every processed image is
    counted as a submit error. *)
Definition Rejected {H : Type} (h0 : H) (st : Loop H) : Prop :=
  handler st = h0 ∧ submitErrors (summary st) = processed (summary st).

(** The Gemini handler's page has been through at most one attempt
    per processed image, and the handler is otherwise as it was. *)
Definition Single (h0 : GeminiHandler.t) (st : Loop GeminiHandler.t) : Prop :=
  let p0 := GeminiHandler.page h0 in
  let p := GeminiHandler.page (handler st) in
  GeminiService.attempts p0 ≤ GeminiService.attempts p ∧
  GeminiService.attempts p ≤ GeminiService.attempts p0 + processed (summary st) ∧
  GeminiService.views p = GeminiService.views p0 ∧
  GeminiHandler.options (handler st) = GeminiHandler.options h0 ∧
  GeminiHandler.readySelectors (handler st) = GeminiHandler.readySelectors h0.

(** The service of the Gemini handler is there or can be built, and
    the page has been through exactly one attempt per processed
    image. *)
Definition SingleBuilt (h0 : GeminiHandler.t) (st : Loop GeminiHandler.t) : Prop :=
  GeminiHandler.buildService (handler st) = None ∧
  GeminiService.attempts (GeminiHandler.page (handler st)) =
    GeminiService.attempts (GeminiHandler.page h0) + processed (summary st).

(** The exiftool process has not failed and will not, and the writer
    has the keys of the options. *)
Definition Healthy (options : Options) {H : Type} (st : Loop H) : Prop :=
  (∀ n, ExifWriter.healthy (ExifWriter.exiftool (exifWriterInstance st)) n = true) ∧
  ExifWriter.successKey (exifWriterInstance st) = exifSuccessKey options ∧
  ExifWriter.failedKey (exifWriterInstance st) = exifFailedKey options ∧
  exifErrors (summary st) = 0.

(** Nothing has been submitted: every image so far was skipped. *)
Definition AllSkipped {H : Type} (h0 : H) (files0 : gmap string (gmap string nat))
    (st : Loop H) : Prop :=
  previousImagePath st = None ∧
  successStatusForPreviousImage st = None ∧
  handler st = h0 ∧
  ExifWriter.files (ExifWriter.exiftool (exifWriterInstance st)) = files0 ∧
  (∀ n, ExifWriter.healthy (ExifWriter.exiftool (exifWriterInstance st)) n = true) ∧
  processed (summary st) = 0 ∧ success (summary st) = 0 ∧ failed (summary st) = 0 ∧
  submitErrors (summary st) = 0 ∧ exifErrors (summary st) = 0 ∧
  Trace.submissions (log st) = [] ∧ Trace.updates (log st) = [].

(** The count stored for a file under a key; zero when there is none. *)
Definition stored (files : gmap string (gmap string nat)) (filePath key : string) : nat :=
  default 0 (files !! filePath ≫= λ data, data !! key).

(** The exiftool process does not fail, and no stored count is below
    what it was. *)
Definition Growing (files0 : gmap string (gmap string nat)) {H : Type}
    (st : Loop H) : Prop :=
  (∀ n, ExifWriter.healthy (ExifWriter.exiftool (exifWriterInstance st)) n = true) ∧
  ∀ filePath key,
    stored files0 filePath key ≤
    stored (ExifWriter.files (ExifWriter.exiftool (exifWriterInstance st))) filePath key.

(** Two loop states that differ in the handler at most. *)
Definition Alike {H : Type} (a b : Loop H) : Prop :=
  summary a = summary b ∧
  previousImagePath a = previousImagePath b ∧
  successStatusForPreviousImage a = successStatusForPreviousImage b ∧
  fileIndex a = fileIndex b ∧
  exifWriterInstance a = exifWriterInstance b ∧
  log a = log b.

(** The waits of a log. *)
Definition waits (l : list Event) : list nat :=
  omap (λ e, match e with EvWait i => Some i | _ => None end) l.

(** The exiftool process has been called once for every image seen
    and twice for every counter update, and the writer has the keys
    of the options. *)
Definition Metered (options : Options) (calls0 : nat) {H : Type} (st : Loop H) : Prop :=
  ExifWriter.successKey (exifWriterInstance st) = exifSuccessKey options ∧
  ExifWriter.failedKey (exifWriterInstance st) = exifFailedKey options ∧
  ExifWriter.calls (ExifWriter.exiftool (exifWriterInstance st)) =
    calls0 + length (Trace.visits (log st)) + 2 * length (Trace.updates (log st)).

End Invariants.

(** * Properties of processImageBatch *)

Section BatchFacts.
Import Manager.
Context {H : Type} `{BaseHandler H}.
Variable options : Options.

Lemma updatePrevious_counts ph (st : Loop H) :
  processed (summary (updatePrevious options ph st)) = processed (summary st) ∧
  skipped (summary (updatePrevious options ph st)) = skipped (summary st) ∧
  fileIndex (updatePrevious options ph st) = fileIndex st ∧
  handler (updatePrevious options ph st) = handler st ∧
  previousImagePath (updatePrevious options ph st) = previousImagePath st.
Proof.
  unfold updatePrevious.
  destruct (statusKnown st) as [[prev status]|]; [|done].
  destruct (ExifWriter.incrementCounter _ _ _) as [[] w];
    destruct status; done.
Qed.

Lemma prepare_counts (st : Loop H) :
  processed (summary (prepare options st)) = processed (summary st) ∧
  skipped (summary (prepare options st)) = skipped (summary st) ∧
  fileIndex (prepare options st) = S (fileIndex st) ∧
  handler (prepare options st) = handler st ∧
  successStatusForPreviousImage (prepare options st) = None.
Proof.
  unfold prepare. simpl.
  match goal with |- context [updatePrevious options ?ph ?s] =>
    destruct (updatePrevious_counts ph s) as (-> & -> & -> & -> & _) end.
  done.
Qed.

(** Every pass through the loop body counts the image once, as
    skipped or as processed, whatever the handler call did. *)
Lemma loopBody_counts total currentImagePath (st : Loop H) :
  let st' := loopBody options total currentImagePath st in
  fileIndex st' = S (fileIndex st) ∧
  ((processed (summary st') = S (processed (summary st)) ∧
    skipped (summary st') = skipped (summary st)) ∨
   (processed (summary st') = processed (summary st) ∧
    skipped (summary st') = S (skipped (summary st)))).
Proof.
  simpl. unfold loopBody.
  destruct (prepare_counts st) as (Hp & Hs & Hi & _ & _).
  revert Hp Hs Hi. generalize (prepare options st). intros st1 Hp Hs Hi.
  unfold skipOrSubmit.
  destruct (ExifWriter.getAppData _ _) as [existingData w].
  destruct (_ && _); simpl.
  - split; [done|]. right. by rewrite Hp, Hs.
  - destruct (processImage _ _ _) as [attemptResult h].
    destruct attemptResult as [[[] ?|?]|?]; simpl;
      (split; [done|]); left; by rewrite Hp, Hs.
Qed.

Lemma forOf_counts total imagePaths (st : Loop H) :
  let st' := forOf options total imagePaths st in
  fileIndex st' = fileIndex st + length imagePaths ∧
  processed (summary st') + skipped (summary st') =
    processed (summary st) + skipped (summary st) + length imagePaths.
Proof.
  revert st. induction imagePaths as [|p rest IH]; intros st; simpl.
  - lia.
  - destruct (IH (loopBody options total p st)) as [Hi Hc].
    destruct (loopBody_counts total p st) as [Hi' Hc'].
    simpl in *. lia.
Qed.

Lemma finish_counts (st : Loop H) :
  processed (summary (finish options st)) = processed (summary st) ∧
  skipped (summary (finish options st)) = skipped (summary st) ∧
  fileIndex (finish options st) = fileIndex st.
Proof.
  unfold finish.
  destruct (statusKnown st) as [?|].
  - destruct (updatePrevious_counts FinalKnown st) as (-> & -> & -> & _); done.
  - destruct (previousImagePath st) as [prev|]; [|done].
    destruct (successStatusForPreviousImage st); [done|].
    destruct (_ && _); [|done].
    destruct (ExifWriter.incrementCounter _ _ _) as [[] w]; done.
Qed.

End BatchFacts.

(** C3. For every list of discovered images, every handler (also one
    whose call throws) and every state of the counter store, the
    summary that [processImageBatch] returns has
    [processed + skipped] equal to the number of images, and the loop
    reaches the last image ([fileIndex] ends at that number): each
    pass of the loop counts its image once, as skipped or as
    processed. *)
Theorem processed_plus_skipped_is_total
    {H : Type} `{BaseHandler H} (options : Options)
    (h : H) (w : ExifWriter.t) (imagePaths : list string) :
  let s := Manager.processImageBatch options h w imagePaths in
  Manager.processed s + Manager.skipped s = length imagePaths ∧
  Manager.fileIndex (Manager.runBatch options h w imagePaths) = length imagePaths ∧
  ∀ total currentImagePath (st : Manager.Loop H),
    let st' := Manager.loopBody options total currentImagePath st in
    Manager.fileIndex st' = S (Manager.fileIndex st) ∧
    ((Manager.processed (Manager.summary st') = S (Manager.processed (Manager.summary st)) ∧
      Manager.skipped (Manager.summary st') = Manager.skipped (Manager.summary st)) ∨
     (Manager.processed (Manager.summary st') = Manager.processed (Manager.summary st) ∧
      Manager.skipped (Manager.summary st') = S (Manager.skipped (Manager.summary st)))).
Proof.
  simpl. unfold Manager.processImageBatch, Manager.runBatch.
  destruct (finish_counts options
    (Manager.forOf options (length imagePaths) imagePaths (Manager.start h w)))
    as (-> & -> & ->).
  destruct (forOf_counts options (length imagePaths) imagePaths (Manager.start h w))
    as [Hi Hc]. simpl in Hi, Hc.
  split; [lia|]. split; [lia|].
  intros total p st. apply (loopBody_counts options total p st).
Qed.

(** C5. When the counter store answers the skip check of an image
    with a success count above zero and skipping is not switched off,
    the pass of the loop does not call the handler: the state after
    the pass is the same under every implementation of
    [processImage], the handler is unchanged and the log gains one
    skip entry and no submission. Of the summary as it stands after
    the update for the previous image, only [skipped] changes, by
    exactly one. *)
Theorem skip_never_invokes_handler
    {H : Type} (I : BaseHandler H) (options : Options)
    (total : nat) (currentImagePath : string) (st : Manager.Loop H) :
  let st1 := Manager.prepare options st in
  let existingData :=
    (ExifWriter.getAppData (Manager.exifWriterInstance st1) currentImagePath).1 in
  0 < Manager.existingSuccessCount options existingData →
  skipIfCreated options ≠ Some false →
  let st' := Manager.loopBody options total currentImagePath st in
  (∀ J : BaseHandler H,
     @Manager.loopBody H J options total currentImagePath st = st') ∧
  Manager.handler st' = Manager.handler st ∧
  Manager.log st' =
    Manager.log st1 ++ [Manager.EvSkip (Manager.fileIndex st1) currentImagePath] ∧
  Trace.submissions (Manager.log st') = Trace.submissions (Manager.log st) ∧
  Manager.summary st' = Manager.incSkipped (Manager.summary st1) ∧
  Manager.skipped (Manager.summary st') = S (Manager.skipped (Manager.summary st)) ∧
  Manager.processed (Manager.summary st') = Manager.processed (Manager.summary st) ∧
  Manager.submitErrors (Manager.summary st') = Manager.submitErrors (Manager.summary st).
Proof.
  intros st1 existingData Hcount Hflag st'.
  assert (Hen : Manager.skipEnabled options = true).
  { unfold Manager.skipEnabled. destruct (skipIfCreated options) as [[]|]; done. }
  assert (Hlt : (0 <? Manager.existingSuccessCount options existingData) = true)
    by by apply Nat.ltb_lt.
  assert (Hbody : ∀ J : BaseHandler H,
    @Manager.loopBody H J options total currentImagePath st =
    {| Manager.summary := Manager.incSkipped (Manager.summary st1);
       Manager.previousImagePath := None;
       Manager.successStatusForPreviousImage :=
         Manager.successStatusForPreviousImage st1;
       Manager.fileIndex := Manager.fileIndex st1;
       Manager.exifWriterInstance :=
         (ExifWriter.getAppData (Manager.exifWriterInstance st1) currentImagePath).2;
       Manager.handler := Manager.handler st1;
       Manager.log := Manager.log st1 ++
         [Manager.EvSkip (Manager.fileIndex st1) currentImagePath] |}).
  { intros J. unfold Manager.loopBody, Manager.skipOrSubmit. fold st1.
    subst existingData.
    destruct (ExifWriter.getAppData _ _) as [d w]. simpl in *.
    by rewrite Hlt, Hen. }
  assert (Hlog : Trace.submissions (Manager.log st1) = Trace.submissions (Manager.log st)).
  { subst st1. unfold Manager.prepare, Manager.updatePrevious. simpl.
    destruct (Manager.statusKnown _) as [[prev status]|]; [|done].
    destruct (ExifWriter.incrementCounter _ _ _) as [u w]. simpl.
    unfold Trace.submissions. rewrite omap_app. simpl. by rewrite app_nil_r. }
  assert (Hsum : Manager.processed (Manager.summary st1) = Manager.processed (Manager.summary st) ∧
                 Manager.skipped (Manager.summary st1) = Manager.skipped (Manager.summary st) ∧
                 Manager.submitErrors (Manager.summary st1) = Manager.submitErrors (Manager.summary st) ∧
                 Manager.handler st1 = Manager.handler st).
  { subst st1. unfold Manager.prepare, Manager.updatePrevious. simpl.
    destruct (Manager.statusKnown _) as [[prev status]|]; [|done].
    destruct (ExifWriter.incrementCounter _ _ _) as [[] w]; destruct status; done. }
  destruct Hsum as (Hp & Hs & He & Hh).
  subst st'. split; [intros J; by rewrite (Hbody J), (Hbody I)|].
  rewrite (Hbody I). clear Hbody Hcount Hlt. subst existingData. clearbody st1.
  simpl. repeat split; try done.
  - unfold Trace.submissions in *. rewrite omap_app. simpl.
    by rewrite app_nil_r.
  - by rewrite Hs.
Qed.

(** ** The order of counter updates in a batch *)

Section Order.
Import Manager Trace.
Context {H : Type} `{BaseHandler H}.
Variable options : Options.

Lemma elem_of_updates (l : list Event) ph p :
  (ph, p) ∈ updates l ↔ ∃ key ok, EvIncrement ph p key ok ∈ l.
Proof.
  unfold updates. rewrite list_elem_of_omap. split.
  - intros ([] & Hin & Heq); simplify_eq. eauto.
  - intros (key & ok & Hin). eexists. split; [exact Hin|done].
Qed.

Lemma elem_of_submissions (l : list Event) i p :
  (i, p) ∈ submissions l ↔ EvSubmit i p ∈ l.
Proof.
  unfold submissions. rewrite list_elem_of_omap. split.
  - intros ([] & Hin & Heq); simplify_eq. done.
  - intros Hin. eexists. split; [exact Hin|done].
Qed.

Lemma elem_of_visits (l : list Event) i p :
  (i, p) ∈ visits l ↔ EvSubmit i p ∈ l ∨ EvSkip i p ∈ l.
Proof.
  unfold visits. rewrite list_elem_of_omap. split.
  - intros ([] & Hin & Heq); simplify_eq; auto.
  - intros [Hin|Hin]; eexists; (split; [exact Hin|done]).
Qed.

Lemma elem_of_numbered (l : list string) i p :
  (i, p) ∈ numbered l ↔ 1 ≤ i ∧ l !! (i - 1) = Some p.
Proof.
  unfold numbered. rewrite elem_of_lookup_imap. split.
  - intros (j & q & Heq & Hl). simplify_eq. simpl.
    rewrite Nat.sub_0_r. split; [lia|done].
  - intros [Hi Hl]. exists (i - 1), p. split; [|done]. f_equal. lia.
Qed.

Lemma numbered_snoc (l : list string) p :
  numbered (l ++ [p]) = numbered l ++ [(S (length l), p)].
Proof.
  unfold numbered. rewrite imap_app. simpl. by rewrite Nat.add_0_r.
Qed.

Lemma submissions_sublist_visits (l : list Event) :
  submissions l `sublist_of` visits l.
Proof.
  induction l as [|e l IH]; [done|].
  destruct e; simpl; try done.
  - by apply sublist_cons.
  - by apply sublist_skip.
Qed.

(** The head of the loop body: the file index advances, the status
    is reset, and the only entry that the log may gain is the update
    for the pending submission. *)
Lemma prepare_log (st : Loop H) :
  let st1 := prepare options st in
  fileIndex st1 = S (fileIndex st) ∧
  previousImagePath st1 = previousImagePath st ∧
  successStatusForPreviousImage st1 = None ∧
  ∃ evs, log st1 = log st ++ evs ∧
    visits evs = [] ∧ submissions evs = [] ∧
    (∀ i p, (EvSkip i p ∉ evs) ∧ (EvSubmit i p ∉ evs)) ∧
    updates evs =
      pending st ≫= λ s, if Js.truthy s.2
                          then [(InLoop (S (fileIndex st)), s.2)] else [].
Proof.
  simpl. unfold prepare, updatePrevious, statusKnown, pending. simpl.
  destruct (previousImagePath st) as [prev|] eqn:Hprev;
    [destruct (successStatusForPreviousImage st) as [status|] eqn:Hst;
     [destruct (Js.truthy prev) eqn:Htr|]|]; simpl.
  - destruct (ExifWriter.incrementCounter _ _ _) as [ok w]. simpl.
    repeat split; try done.
    eexists. split; [done|].
    repeat split; try done; try (intros Hin%list_elem_of_singleton; done).
    by rewrite Htr.
  - repeat split; try done. exists []. rewrite app_nil_r.
    repeat split; try done; try apply not_elem_of_nil. by rewrite Htr.
  - repeat split; try done. exists []. rewrite app_nil_r.
    repeat split; try done; apply not_elem_of_nil.
  - repeat split; try done. exists []. rewrite app_nil_r.
    repeat split; try done; apply not_elem_of_nil.
Qed.

(** The rest of the loop body either skips the image or submits it. *)
Lemma skipOrSubmit_log total p (st : Loop H) :
  let st' := skipOrSubmit options total p st in
  fileIndex st' = fileIndex st ∧
  ((log st' = log st ++ [EvSkip (fileIndex st) p] ∧
    previousImagePath st' = None ∧
    successStatusForPreviousImage st' = successStatusForPreviousImage st) ∨
   (∃ waits status, log st' = log st ++ [EvSubmit (fileIndex st) p] ++ waits ∧
    (visits waits = [] ∧ submissions waits = [] ∧ updates waits = [] ∧
     ∀ i q, (EvSkip i q ∉ waits) ∧ (EvSubmit i q ∉ waits)) ∧
    previousImagePath st' = Some p ∧
    successStatusForPreviousImage st' = Some status)).
Proof.
  simpl. unfold skipOrSubmit.
  destruct (ExifWriter.getAppData _ _) as [existingData w].
  destruct (_ && _); simpl.
  - split; [done|]. by left.
  - destruct (processImage _ _ _) as [attemptResult h].
    set (waits := if fileIndex st <? total then [EvWait (fileIndex st)] else []).
    assert (Hw : visits waits = [] ∧ submissions waits = [] ∧ updates waits = [] ∧
                 ∀ i q, (EvSkip i q ∉ waits) ∧ (EvSubmit i q ∉ waits)).
    { subst waits. destruct (_ <? _); repeat split; try done;
        try apply not_elem_of_nil; intros Hin%list_elem_of_singleton; done. }
    clearbody waits.
    destruct attemptResult as [[submitted status|success]|error]; simpl;
      (split; [done|]); right; eauto 10.
Qed.

Lemma pending_due total (st : Loop H) :
  fileIndex st < total →
  (pending st ≫= λ s, if Js.truthy s.2
                       then [(InLoop (S (fileIndex st)), s.2)] else [])
  = pending st ≫= due total.
Proof.
  intros Hlt. unfold pending.
  destruct (previousImagePath st) as [prev|]; [|done].
  destruct (successStatusForPreviousImage st); [|done]. simpl.
  unfold due, nextPhase. simpl.
  by apply Nat.ltb_lt in Hlt as ->.
Qed.

Lemma start_sound total (h : H) (w : ExifWriter.t) : Sound total [] (start h w).
Proof.
  split; simpl; try done.
  - intros i p q Hin. by apply not_elem_of_nil in Hin.
  - by exists [].
Qed.

(** One pass of the loop keeps the log sound. *)
Lemma loopBody_sound total done p (st : Loop H) :
  Sound total done st → length done < total →
  Sound total (done ++ [p]) (loopBody options total p st).
Proof.
  intros [Hi Hv Ha Hs (settled & Hsub & Hupd)] Hlt.
  destruct (prepare_log st) as (Hi1 & Hp1 & Hs1 & evs & Hl1 & Hv1 & Hsb1 & Hne & Hu1).
  rewrite (pending_due total) in Hu1 by lia.
  unfold loopBody.
  destruct (skipOrSubmit_log total p (prepare options st)) as (Hi2 & Hcase).
  revert Hi1 Hp1 Hs1 Hl1 Hi2 Hcase.
  generalize (prepare options st). intros st1 Hi1 Hp1 Hs1 Hl1.
  generalize (skipOrSubmit options total p st1). intros st' Hi2 Hcase.
  assert (Hold : ∀ i q, (i, q) ∈ visits (log st) → i ≤ length done).
  { intros i q Hin. rewrite Hv in Hin. apply elem_of_numbered in Hin as [? Hl].
    apply lookup_lt_Some in Hl. lia. }
  destruct Hcase as [(Hl2 & Hp2 & Hs2)|(waits & status & Hl2 & (Hwv & Hws & Hwu & Hwn) & Hp2 & Hs2)].
  - split.
    + rewrite length_app. simpl. lia.
    + rewrite Hl2, Hl1. unfold visits in *. rewrite !omap_app, Hv, Hv1. simpl.
      rewrite numbered_snoc, app_nil_r. repeat f_equal. lia.
    + intros i a b. rewrite Hl2, Hl1. rewrite !elem_of_app, !list_elem_of_singleton.
      intros [[Hk|Hk]|Hk] [[Hm|Hm]|Hm]; try done.
      * eauto.
      * by apply (Hne i b) in Hm.
      * by apply (Hne i a) in Hk.
      * by apply (Hne i a) in Hk.
      * assert (i ≤ length done) by (apply (Hold i b), elem_of_visits; by left).
        simplify_eq. lia.
      * by apply (Hne i b) in Hm.
    + done.
    + exists (settled ++ pending st). split.
      * rewrite Hl2, Hl1. unfold submissions in *.
        assert (pending st' = []) as -> by (unfold pending; by rewrite Hp2).
        rewrite !omap_app, Hsub, Hsb1. simpl. by rewrite !app_nil_r.
      * rewrite Hl2, Hl1. unfold updates in *.
        rewrite !omap_app, Hupd, Hu1. simpl.
        by rewrite app_nil_r, bind_app.
  - split.
    + rewrite length_app. simpl. lia.
    + rewrite Hl2, Hl1. unfold visits in *.
      rewrite !omap_app, Hv, Hv1, Hwv. simpl.
      rewrite numbered_snoc, app_nil_r. repeat f_equal. lia.
    + intros i a b. rewrite Hl2, Hl1.
      rewrite !elem_of_app, !list_elem_of_singleton.
      intros [[Hk|Hk]|[Hk|Hk]] [[Hm|Hm]|[Hm|Hm]]; try done.
      * eauto.
      * by apply (Hne i b) in Hm.
      * assert (i ≤ length done) by (apply (Hold i a), elem_of_visits; by right).
        simplify_eq. lia.
      * by apply (Hwn i b) in Hm.
      * by apply (Hne i a) in Hk.
      * by apply (Hne i a) in Hk.
      * by apply (Hne i a) in Hk.
      * by apply (Hne i a) in Hk.
      * by apply (Hwn i a) in Hk.
      * by apply (Hwn i a) in Hk.
      * by apply (Hwn i a) in Hk.
      * by apply (Hwn i a) in Hk.
    + by rewrite Hs2.
    + exists (settled ++ pending st). split.
      * rewrite Hl2, Hl1. unfold submissions in *.
        assert (pending st' = [(fileIndex st1, p)]) as ->
          by (unfold pending; by rewrite Hp2, Hs2, Hi2).
        rewrite !omap_app, Hsub, Hsb1, Hws. simpl. by rewrite !app_nil_r.
      * rewrite Hl2, Hl1. unfold updates in *.
        rewrite !omap_app, Hupd, Hu1, Hwu. simpl.
        by rewrite !app_nil_r, bind_app.
Qed.

Lemma forOf_sound total rest : ∀ done (st : Loop H),
  Sound total done st → length done + length rest = total →
  Sound total (done ++ rest) (forOf options total rest st).
Proof.
  induction rest as [|p rest IH]; intros done st Hsound Hlen; simpl.
  - by rewrite app_nil_r.
  - simpl in Hlen.
    replace (done ++ p :: rest) with ((done ++ [p]) ++ rest)
      by (by rewrite <- (assoc_L (++))).
    apply IH.
    + apply loopBody_sound; [done|lia].
    + rewrite length_app. simpl. lia.
Qed.

(** The branches after the loop: a pending submission gets the update
    it is due, through the branch for a known status. *)
Lemma finish_log (st : Loop H) (imagePaths : list string) :
  Sound (length imagePaths) imagePaths st →
  let l := log (finish options st) in
  visits l = numbered imagePaths ∧
  (∀ i p q, EvSkip i p ∈ l → EvSubmit i q ∈ l → False) ∧
  updates l = submissions l ≫= due (length imagePaths).
Proof.
  intros [Hi Hv Ha Hs (settled & Hsub & Hupd)]. simpl.
  unfold finish, updatePrevious, statusKnown, pending in *.
  destruct (previousImagePath st) as [prev|] eqn:Hprev.
  - destruct (successStatusForPreviousImage st) as [status|] eqn:Hst;
      [|by specialize (Hs eq_refl)].
    destruct (Js.truthy prev) eqn:Htr.
    + destruct (ExifWriter.incrementCounter _ _ _) as [ok w]. simpl.
      unfold visits, submissions, updates in *. rewrite !omap_app. simpl.
      rewrite Hv, Hsub, Hupd, !app_nil_r, bind_app. simpl.
      split; [done|]. split.
      * intros i p q. rewrite !elem_of_app, !list_elem_of_singleton.
        intros [?|?] [?|?]; try done. eauto.
      * unfold due, nextPhase. simpl. rewrite Htr, Hi, Nat.ltb_irrefl.
        by rewrite app_nil_r.
    + split; [done|]. split; [done|].
      rewrite Hupd, Hsub, bind_app. simpl.
      assert (due (length imagePaths) (fileIndex st, prev) = []) as ->
        by (unfold due; simpl; by rewrite Htr).
      by rewrite !app_nil_r.
  - split; [done|]. split; [done|].
    rewrite Hupd, Hsub. by rewrite app_nil_r.
Qed.

(** The order of the log of a whole batch. *)
Lemma runBatch_order (h : H) (w : ExifWriter.t) (imagePaths : list string) :
  let l := log (runBatch options h w imagePaths) in
  visits l = numbered imagePaths ∧
  (∀ i p q, EvSkip i p ∈ l → EvSubmit i q ∈ l → False) ∧
  updates l = submissions l ≫= due (length imagePaths).
Proof.
  apply finish_log.
  apply (forOf_sound (length imagePaths) imagePaths [] (start h w)).
  - apply start_sound.
  - done.
Qed.

(** An update is made exactly for a submission with a truthy path, in
    the phase that the submission is due. *)
Lemma update_iff_submission (h : H) (w : ExifWriter.t) (imagePaths : list string) ph p :
  (ph, p) ∈ updates (log (runBatch options h w imagePaths)) ↔
  ∃ i, EvSubmit i p ∈ log (runBatch options h w imagePaths) ∧ p ≠ "" ∧
       ph = nextPhase (length imagePaths) i.
Proof.
  destruct (runBatch_order h w imagePaths) as (_ & _ & ->).
  rewrite list_elem_of_bind. split.
  - intros ([i q] & Hdue & Hin%elem_of_submissions).
    unfold due in Hdue. simpl in Hdue.
    destruct (Js.truthy q) eqn:Htr.
    + apply list_elem_of_singleton in Hdue. simplify_eq.
      exists i. split; [done|]. split; [|done].
      intros ->. done.
    + by apply elem_of_nil in Hdue.
  - intros (i & Hin & Hne & ->). exists (i, p). split.
    + unfold due. simpl.
      assert (Js.truthy p = true) as ->.
      { unfold Js.truthy. destruct (String.eqb_spec p ""); done. }
      by apply list_elem_of_singleton.
    + by apply elem_of_submissions.
Qed.

(** An image seen by the loop sits in the list at its file index. *)
Lemma visit_position (h : H) (w : ExifWriter.t) (imagePaths : list string) i p :
  EvSubmit i p ∈ log (runBatch options h w imagePaths) ∨
  EvSkip i p ∈ log (runBatch options h w imagePaths) →
  1 ≤ i ≤ length imagePaths ∧ imagePaths !! (i - 1) = Some p.
Proof.
  intros Hin%elem_of_visits.
  destruct (runBatch_order h w imagePaths) as (Hv & _ & _).
  rewrite Hv in Hin. apply elem_of_numbered in Hin as [Hi Hl].
  split; [|done]. apply lookup_lt_Some in Hl. lia.
Qed.

(** With distinct images, no file is updated twice. *)
Lemma updates_once (h : H) (w : ExifWriter.t) (imagePaths : list string) :
  NoDup imagePaths →
  NoDup (updates (log (runBatch options h w imagePaths))).*2.
Proof.
  intros Hnd.
  destruct (runBatch_order h w imagePaths) as (Hv & _ & ->).
  assert (Hsub : (submissions (log (runBatch options h w imagePaths))).*2
                 `sublist_of` imagePaths).
  { transitivity ((visits (log (runBatch options h w imagePaths))).*2).
    - apply fmap_sublist, submissions_sublist_visits.
    - rewrite Hv. unfold numbered. rewrite fmap_imap.
      rewrite (imap_ext _ (const id)) by done.
      by rewrite imap_const, list_fmap_id. }
  eapply sublist_NoDup; [exact Hnd|].
  etransitivity; [|exact Hsub].
  generalize (submissions (log (runBatch options h w imagePaths))).
  intros subs. induction subs as [|[i q] subs IH]; [done|].
  simpl. unfold due at 1. simpl. destruct (Js.truthy q); simpl.
  - by apply sublist_skip.
  - by apply sublist_cons.
Qed.

End Order.

(** Where the log has the counter update of an image, in a batch of
    distinct images driven by the ChatGPT handler: inside the loop
    only in the pass of the next image, after the loop only for the
    final image, once for a submitted image, and no file twice. This
    is about the place of an update in the log only, not about the
    status that it writes. *)
Lemma update_is_logged_in_next_pass
    (options : Options) (h : ChatGptHandler.t) (w : ExifWriter.t)
    (imagePaths : list string) (i : nat) (image : string) :
  NoDup imagePaths →
  imagePaths !! i = Some image →
  let l := Manager.log (Manager.runBatch options h w imagePaths) in
  let total := length imagePaths in
  (∀ j, (Manager.InLoop j, image) ∈ Trace.updates l → j = S (S i) ∧ S i < total) ∧
  ((Manager.FinalKnown, image) ∈ Trace.updates l → S i = total) ∧
  ((Manager.FinalUndetermined, image) ∉ Trace.updates l) ∧
  (Manager.EvSubmit (S i) image ∈ l → image ≠ "" →
     if S i <? total
     then (Manager.InLoop (S (S i)), image) ∈ Trace.updates l
     else (Manager.FinalKnown, image) ∈ Trace.updates l ∧
          ∀ j, (Manager.InLoop j, image) ∉ Trace.updates l) ∧
  NoDup (Trace.updates l).*2.
Proof.
  intros Hnd Hi l total.
  assert (Hiff := update_iff_submission options h w imagePaths).
  assert (Hpos := visit_position options h w imagePaths).
  assert (Honce := updates_once options h w imagePaths Hnd).
  fold l in Hiff, Hpos, Honce. clearbody l.
  assert (Hwhere : ∀ ph, (ph, image) ∈ Trace.updates l →
            ph = Trace.nextPhase total (S i) ∧ S i ≤ total).
  { intros ph (k & Hsub & _ & ->)%Hiff.
    destruct (Hpos k image) as [Hk Hl]; [by left|].
    assert (k - 1 = i) by exact (NoDup_lookup _ _ _ _ Hnd Hl Hi).
    replace k with (S i) by lia. split; [done|]. fold total in Hk. lia. }
  split; [|split; [|split; [|split]]].
  - intros j [Heq Hle]%Hwhere. unfold Trace.nextPhase in Heq.
    destruct (S i <? total) eqn:Hlt; [|done].
    apply Nat.ltb_lt in Hlt. by simplify_eq.
  - intros [Heq Hle]%Hwhere. unfold Trace.nextPhase in Heq.
    destruct (S i <? total) eqn:Hlt; [done|].
    apply Nat.ltb_ge in Hlt. lia.
  - intros [Heq _]%Hwhere. unfold Trace.nextPhase in Heq.
    destruct (S i <? total); done.
  - intros Hsub Hne.
    assert (Hin : (Trace.nextPhase total (S i), image) ∈ Trace.updates l).
    { apply Hiff. eauto. }
    unfold Trace.nextPhase in Hin.
    destruct (S i <? total) eqn:Hlt; [done|]. split; [done|].
    intros j [Heq _]%Hwhere. unfold Trace.nextPhase in Heq.
    by rewrite Hlt in Heq.
  - done.
Qed.

(** C10. In every batch, with any handler: when the image with file
    index [i] is skipped, no counter is incremented at the head of
    the pass with file index [i + 1], and none after the loop when
    the skipped image is the last one. With distinct images, the
    skipped image's own counter is never incremented, and no file is
    incremented twice, so the update that the image before the skip
    received is its only one. *)
Theorem skip_cuts_pending_update
    {H : Type} `{BaseHandler H} (options : Options)
    (h : H) (w : ExifWriter.t) (imagePaths : list string)
    (i : nat) (image : string) :
  let l := Manager.log (Manager.runBatch options h w imagePaths) in
  Manager.EvSkip i image ∈ l →
  (∀ q, (Manager.InLoop (S i), q) ∉ Trace.updates l) ∧
  (i = length imagePaths →
     ∀ q, ((Manager.FinalKnown, q) ∉ Trace.updates l) ∧
          ((Manager.FinalUndetermined, q) ∉ Trace.updates l)) ∧
  (NoDup imagePaths →
     (∀ ph, (ph, image) ∉ Trace.updates l) ∧
     NoDup (Trace.updates l).*2).
Proof.
  intros l Hskip.
  destruct (runBatch_order options h w imagePaths) as (_ & Hapart & _).
  assert (Hiff := update_iff_submission options h w imagePaths).
  assert (Hpos := visit_position options h w imagePaths).
  assert (Honce := updates_once options h w imagePaths).
  fold l in Hapart, Hiff, Hpos, Honce. clearbody l.
  assert (Hnext : ∀ k, Trace.nextPhase (length imagePaths) k = Manager.InLoop (S i) → k = i).
  { intros k. unfold Trace.nextPhase. destruct (_ <? _); intros; by simplify_eq. }
  split; [|split].
  - intros q (k & Hsub & _ & Heq)%Hiff.
    symmetry in Heq. apply Hnext in Heq as ->. eauto.
  - intros -> q. split.
    + intros (k & Hsub & _ & Heq)%Hiff.
      destruct (Hpos k q) as [Hk _]; [by left|].
      unfold Trace.nextPhase in Heq.
      destruct (k <? length imagePaths) eqn:Hlt; [done|].
      apply Nat.ltb_ge in Hlt.
      assert (k = length imagePaths) as -> by lia. eauto.
    + intros (k & _ & _ & Heq)%Hiff.
      unfold Trace.nextPhase in Heq. destruct (_ <? _); done.
  - intros Hnd. split; [|by apply Honce].
    intros ph (k & Hsub & _ & _)%Hiff.
    destruct (Hpos k image) as [Hk Hl]; [by left|].
    destruct (Hpos i image) as [Hi' Hl']; [by right|].
    assert (k - 1 = i - 1) by exact (NoDup_lookup _ _ _ _ Hnd Hl Hl').
    assert (k = i) as -> by lia. eauto.
Qed.

(** The three images of the scenarios are distinct. *)
(** The log of the batch in which img2 already has a success count. *)
Lemma skipped_second_image_log :
  Manager.log (Manager.runBatch defaultConfig
    (Scenarios.chatgpt Scenarios.deferredScript)
    (Scenarios.writer Scenarios.img2Done)
    [Scenarios.img1; Scenarios.img2; Scenarios.img3]) =
  [Manager.EvSubmit 1 Scenarios.img1; Manager.EvWait 1;
   Manager.EvIncrement (Manager.InLoop 2) Scenarios.img1 "failedCount" true;
   Manager.EvSkip 2 Scenarios.img2;
   Manager.EvSubmit 3 Scenarios.img3;
   Manager.EvIncrement Manager.FinalKnown Scenarios.img3 "successCount" true].
Proof. vm_compute. reflexivity. Defined.

(** C10 at that batch: img2 is skipped, and nothing is incremented at
    the head of the third pass. *)
Lemma skip_cuts_pending_update_witness :
  Manager.EvSkip 2 Scenarios.img2 ∈
    Manager.log (Manager.runBatch defaultConfig
      (Scenarios.chatgpt Scenarios.deferredScript)
      (Scenarios.writer Scenarios.img2Done)
      [Scenarios.img1; Scenarios.img2; Scenarios.img3]) ∧
  ∀ q, (Manager.InLoop 3, q) ∉
    Trace.updates (Manager.log (Manager.runBatch defaultConfig
      (Scenarios.chatgpt Scenarios.deferredScript)
      (Scenarios.writer Scenarios.img2Done)
      [Scenarios.img1; Scenarios.img2; Scenarios.img3])).
Proof.
  assert (Hskip : Manager.EvSkip 2 Scenarios.img2 ∈
    Manager.log (Manager.runBatch defaultConfig
      (Scenarios.chatgpt Scenarios.deferredScript)
      (Scenarios.writer Scenarios.img2Done)
      [Scenarios.img1; Scenarios.img2; Scenarios.img3])).
  { rewrite skipped_second_image_log. do 3 apply list_elem_of_further.
    apply list_elem_of_here. }
  split; [exact Hskip|].
  exact (proj1 (skip_cuts_pending_update defaultConfig
    (Scenarios.chatgpt Scenarios.deferredScript)
    (Scenarios.writer Scenarios.img2Done)
    [Scenarios.img1; Scenarios.img2; Scenarios.img3] 2 Scenarios.img2 Hskip)).
Defined.

(** C5 at the second pass of that batch: the store answers with a
    success count of two, skipping is on, and the handler is the one
    that the first pass left. *)
Lemma skip_never_invokes_handler_witness :
  let st := Manager.loopBody defaultConfig 3 Scenarios.img1
    (Manager.start (Scenarios.chatgpt Scenarios.deferredScript)
                   (Scenarios.writer Scenarios.img2Done)) in
  let st1 := Manager.prepare defaultConfig st in
  0 < Manager.existingSuccessCount defaultConfig
        (ExifWriter.getAppData (Manager.exifWriterInstance st1) Scenarios.img2).1 ∧
  skipIfCreated defaultConfig ≠ Some false ∧
  Manager.handler (Manager.loopBody defaultConfig 3 Scenarios.img2 st) =
    Manager.handler st.
Proof.
  intros st st1.
  assert (Hcount : 0 < Manager.existingSuccessCount defaultConfig
        (ExifWriter.getAppData (Manager.exifWriterInstance st1) Scenarios.img2).1).
  { vm_compute. lia. }
  assert (Hflag : skipIfCreated defaultConfig ≠ Some false) by discriminate.
  split; [exact Hcount|]. split; [exact Hflag|].
  exact (proj1 (proj2 (skip_never_invokes_handler ChatGptHandler_BaseHandler
    defaultConfig 3 Scenarios.img2 st Hcount Hflag))).
Defined.

(** C1. The three-image scenario under the ChatGPT handler: the call
    for img2 reports success for the previous prompt and the call for
    img3 reports failure; the call for img1 reports whatever the
    latest response block held before the batch. The loop stores each
    reported status together with the path of the image that was just
    submitted, so the next update writes it to that image: img1
    receives the status reported by its own call, img2 receives the
    success that was found for img1, and img3 receives the failure
    that was found for img2, through the branch for a known status;
    the branch for an undetermined status does not run. On a fresh
    conversation the stored counters end as img1 failed, img2
    succeeded, img3 failed. *)
Theorem deferred_three_images_shifted_by_one (first : ChatGptService.LatestBlock) :
  let images := [Scenarios.img1; Scenarios.img2; Scenarios.img3] in
  let run := Manager.runBatch defaultConfig
               (Scenarios.chatgpt (Scenarios.deferredScriptFrom first))
               (Scenarios.writer ∅) images in
  let fresh := Manager.runBatch defaultConfig
               (Scenarios.chatgpt Scenarios.deferredScript)
               (Scenarios.writer ∅) images in
  (processImage (Scenarios.chatgptAfter (Scenarios.deferredScriptFrom first) 1)
     Scenarios.img2 (prompt defaultConfig)).1 = Returns (SubmitReport true true) ∧
  (processImage (Scenarios.chatgptAfter (Scenarios.deferredScriptFrom first) 2)
     Scenarios.img3 (prompt defaultConfig)).1 = Returns (SubmitReport true false) ∧
  (∃ own,
     (processImage (Scenarios.chatgpt (Scenarios.deferredScriptFrom first))
        Scenarios.img1 (prompt defaultConfig)).1 = Returns (SubmitReport true own) ∧
     Manager.log run =
       [Manager.EvSubmit 1 Scenarios.img1; Manager.EvWait 1;
        Manager.EvIncrement (Manager.InLoop 2) Scenarios.img1
          (if own then "successCount" else "failedCount") true;
        Manager.EvSubmit 2 Scenarios.img2; Manager.EvWait 2;
        Manager.EvIncrement (Manager.InLoop 3) Scenarios.img2 "successCount" true;
        Manager.EvSubmit 3 Scenarios.img3;
        Manager.EvIncrement Manager.FinalKnown Scenarios.img3 "failedCount" true]) ∧
  ExifWriter.files (ExifWriter.exiftool (Manager.exifWriterInstance fresh)) =
    {[ Scenarios.img1 := {[ "successCount" := 0; "failedCount" := 1 ]};
       Scenarios.img2 := {[ "successCount" := 1; "failedCount" := 0 ]};
       Scenarios.img3 := {[ "successCount" := 0; "failedCount" := 1 ]} ]} ∧
  Manager.summary fresh =
    {| Manager.processed := 3; Manager.skipped := 0; Manager.success := 1;
       Manager.failed := 2; Manager.submitErrors := 0; Manager.exifErrors := 0 |}.
Proof.
  simpl. split; [reflexivity|]. split; [reflexivity|]. split.
  - destruct first as [| |[|count]|e].
    + exists false. split; vm_compute; reflexivity.
    + exists false. split; vm_compute; reflexivity.
    + exists false. split; vm_compute; reflexivity.
    + exists true. split; vm_compute; reflexivity.
    + exists false. split; vm_compute; reflexivity.
  - split; vm_compute; reflexivity.
Qed.

(** The log of a two-image batch under the Gemini handler when both
    responses show a generated image. *)
Lemma gemini_two_images_log :
  Manager.log (Manager.runBatch defaultConfig
    (Scenarios.gemini (λ _, Scenarios.geminiFinds)) (Scenarios.writer ∅)
    [Scenarios.img1; Scenarios.img2]) =
  [Manager.EvSubmit 1 Scenarios.img1; Manager.EvWait 1;
   Manager.EvIncrement (Manager.InLoop 2) Scenarios.img1 "failedCount" true;
   Manager.EvSubmit 2 Scenarios.img2;
   Manager.EvIncrement Manager.FinalKnown Scenarios.img2 "failedCount" true].
Proof. vm_compute. reflexivity. Qed.

(** C2. A two-image batch under the Gemini handler on a page whose
    every response shows a generated image: both calls resolve to
    [{success: true}], an object without a [submitted] field. The loop
    takes each for a failed submission, counts a submit error and
    holds the status false, so both images are recorded under the
    failure key, img1 at the head of the second pass and img2 after
    the loop: the summary has no success, two failures and two submit
    errors, and the value that a call resolved is not the value that
    is persisted. *)
Theorem gemini_success_is_recorded_as_failure :
  let h := Scenarios.gemini (λ _, Scenarios.geminiFinds) in
  let images := [Scenarios.img1; Scenarios.img2] in
  let run := Manager.runBatch defaultConfig h (Scenarios.writer ∅) images in
  (processImage h Scenarios.img1 (prompt defaultConfig)).1 =
    Returns (SuccessReport true) ∧
  (processImage (processImage h Scenarios.img1 (prompt defaultConfig)).2
     Scenarios.img2 (prompt defaultConfig)).1 = Returns (SuccessReport true) ∧
  Manager.log run =
    [Manager.EvSubmit 1 Scenarios.img1; Manager.EvWait 1;
     Manager.EvIncrement (Manager.InLoop 2) Scenarios.img1 "failedCount" true;
     Manager.EvSubmit 2 Scenarios.img2;
     Manager.EvIncrement Manager.FinalKnown Scenarios.img2 "failedCount" true] ∧
  ExifWriter.files (ExifWriter.exiftool (Manager.exifWriterInstance run)) =
    {[ Scenarios.img1 := {[ "successCount" := 0; "failedCount" := 1 ]};
       Scenarios.img2 := {[ "successCount" := 0; "failedCount" := 1 ]} ]} ∧
  Manager.summary run =
    {| Manager.processed := 2; Manager.skipped := 0; Manager.success := 0;
       Manager.failed := 2; Manager.submitErrors := 2; Manager.exifErrors := 0 |} ∧
  ¬ Stated.persistsOwnValue defaultConfig h (Scenarios.writer ∅) images.
Proof.
  intros h images run.
  split; [reflexivity|]. split; [reflexivity|].
  split; [exact gemini_two_images_log|].
  split; [vm_compute; reflexivity|]. split; [vm_compute; reflexivity|].
  subst run images h. intros [Hown _]. simpl in Hown.
  rewrite gemini_two_images_log in Hown.
  destruct (Hown 0 1 Scenarios.img1 eq_refl) as [ok Hin].
  change (GeminiHandler.resolve _ Scenarios.img1) with true in Hin.
  simpl in Hin.
  destruct Hin as [Hin|Hin];
    repeat (apply elem_of_cons in Hin as [Hin|Hin]; [discriminate Hin|]);
    by apply elem_of_nil in Hin.
Qed.

(** C4. A two-image batch [A; B] under the ChatGPT handler on a fresh
    conversation, where the response to A shows a generated image by
    the time B is submitted. The pass of A persists nothing. The pass
    of B first writes the file of A, under the failure key: the
    status that the call for A itself reported, before the call for B
    has looked at the response to A. The call for B then reports
    success for the previous prompt, which is the outcome of A; the
    loop holds it with the path of B, and after the loop the branch
    for a known status writes it to the file of B as a success. The
    branch for an undetermined status does not run. So the outcome of
    A is persisted after the loop and to the file of B, and the file
    of the final image never receives a status of its own. *)
Theorem deferred_outcome_is_written_one_file_late :
  let h := Scenarios.chatgpt Scenarios.deferredScript in
  let passA := Manager.loopBody defaultConfig 2 Scenarios.img1
                 (Manager.start h (Scenarios.writer ∅)) in
  let passB := Manager.loopBody defaultConfig 2 Scenarios.img2 passA in
  let run := Manager.runBatch defaultConfig h (Scenarios.writer ∅)
               [Scenarios.img1; Scenarios.img2] in
  run = Manager.finish defaultConfig passB ∧
  Manager.log passA = [Manager.EvSubmit 1 Scenarios.img1; Manager.EvWait 1] ∧
  ExifWriter.files (ExifWriter.exiftool (Manager.exifWriterInstance passA)) = ∅ ∧
  (processImage (Manager.handler passA) Scenarios.img2 (prompt defaultConfig)).1 =
    Returns (SubmitReport true true) ∧
  Manager.log passB =
    Manager.log passA ++
    [Manager.EvIncrement (Manager.InLoop 2) Scenarios.img1 "failedCount" true;
     Manager.EvSubmit 2 Scenarios.img2] ∧
  ExifWriter.files (ExifWriter.exiftool (Manager.exifWriterInstance passB)) =
    {[ Scenarios.img1 := {[ "successCount" := 0; "failedCount" := 1 ]} ]} ∧
  Manager.log run =
    Manager.log passB ++
    [Manager.EvIncrement Manager.FinalKnown Scenarios.img2 "successCount" true] ∧
  ExifWriter.files (ExifWriter.exiftool (Manager.exifWriterInstance run)) =
    {[ Scenarios.img1 := {[ "successCount" := 0; "failedCount" := 1 ]};
       Scenarios.img2 := {[ "successCount" := 1; "failedCount" := 0 ]} ]} ∧
  Manager.summary run =
    {| Manager.processed := 2; Manager.skipped := 0; Manager.success := 1;
       Manager.failed := 1; Manager.submitErrors := 0; Manager.exifErrors := 0 |}.
Proof.
  intros h passA passB run.
  split; [reflexivity|].
  repeat split; vm_compute; reflexivity.
Qed.

(** * Properties of the ChatGPT handler's retry loop *)

Section Retry.
Import ChatGptService ChatGptHandler.

(** A pass continues the loop only while retries are left, and then
    uses one up. *)
Lemma attempt_continue h r r' :
  attempt h r = Continue r' →
  retryAttempt r < maxRetries ∧ retryAttempt r' = S (retryAttempt r).
Proof.
  unfold attempt. destruct (tryBlock h _); try done.
  destruct (Js.includes _ _); simpl; [|done].
  destruct (retryAttempt r <? maxRetries) eqn:Hlt; [|done].
  apply Nat.ltb_lt in Hlt.
  destruct (reloadFails _); [done|]. intros [= <-]. done.
Qed.

(** The loop ends within [maxRetries + 1] passes. *)
Lemma while_enough_fuel h : is_Some (while (S maxRetries) h (enter h)).
Proof.
  unfold while. simpl.
  destruct (attempt h (enter h)) as [r|r] eqn:Hfirst; [eauto|].
  apply attempt_continue in Hfirst as [_ Hone]. simpl in Hone.
  rewrite Hone. simpl.
  destruct (attempt h r) as [r'|r'] eqn:Hsecond; [eauto|].
  apply attempt_continue in Hsecond as [Hlt _].
  rewrite Hone in Hlt. unfold maxRetries in Hlt. lia.
Qed.

(** What a call of [processImage] does, by whether the service can
    be built and by the way the [try] block ends on the first view of
    the page and on the second. *)
Lemma processImage_cases h imagePath prompt :
  let first := views (page h) (attempts (page h)) in
  let second := views (page h) (S (attempts (page h))) in
  let after (n k : nat) :=
    {| options := options h; readySelectors := readySelectors h;
       chatgptService := true;
       page := {| views := views (page h);
                  attempts := n + attempts (page h);
                  reloads := k + reloads (page h) |} |} in
  processImage h imagePath prompt =
  match buildService h with
  | Some error => (Throws error, h)
  | None =>
      match tryBlock h first with
      | NotReady => (Returns (SubmitReport false false), after 1 0)
      | Submitted status => (Returns (SubmitReport true status), after 1 0)
      | Caught error =>
          if Js.includes gatePhrase (Js.message error)
          then
            match reloadFails first with
            | Some _ => (Returns (SubmitReport false false), after 1 0)
            | None =>
                match tryBlock h second with
                | Submitted status => (Returns (SubmitReport true status), after 2 1)
                | _ => (Returns (SubmitReport false false), after 2 1)
                end
            end
          else (Returns (SubmitReport false false), after 1 0)
      end
  end.
Proof.
  simpl. unfold processImage. destruct (buildService h); [done|].
  unfold while, attempt, enter. simpl.
  destruct (tryBlock h (views (page h) (attempts (page h)))); simpl; try done.
  destruct (Js.includes _ _); simpl; [|done].
  destruct (reloadFails _); simpl; [done|].
  destruct (tryBlock h (views (page h) (S (attempts (page h))))); simpl; try done.
  by rewrite andb_false_r.
Qed.

(** The timeout of the wait for the enabled submit button reaches the
    handler's [catch] as the gate timeout error. *)
Lemma stuck_gate_is_caught h v message :
  (0 <? length (readySelectors h)) && negb (readyVisible v) = false →
  uploadFails v = None → promptFails v = None →
  gateFails v = Some (Js.Error "TimeoutError" message) →
  Js.includes (chatgptSubmitButton (options h)) message = true →
  tryBlock h v = Caught (Js.newError gateTimeoutMessage).
Proof.
  intros Hready Hup Hpr Hgate Hmsg.
  unfold tryBlock, uploadImage, enterPrompt, checkPreviousSuccessAndSubmit.
  rewrite Hready, Hup, Hpr, Hgate. simpl. by rewrite Hmsg.
Qed.

(** So does a timeout of the click on the enabled button, when its
    message names the button's selector. *)
Lemma click_timeout_is_caught h v message :
  (0 <? length (readySelectors h)) && negb (readyVisible v) = false →
  uploadFails v = None → promptFails v = None → gateFails v = None →
  clickFails v = Some (Js.Error "TimeoutError" message) →
  Js.includes (chatgptSubmitButton (options h)) message = true →
  tryBlock h v = Caught (Js.newError gateTimeoutMessage).
Proof.
  intros Hready Hup Hpr Hgate Hclick Hmsg.
  unfold tryBlock, uploadImage, enterPrompt, checkPreviousSuccessAndSubmit.
  rewrite Hready, Hup, Hpr, Hgate, Hclick. simpl. by rewrite Hmsg.
Qed.

End Retry.

(** What the loop keeps of a handler report: the reported status of
    the previous prompt, together with the path of the image that was
    just submitted; an unsubmitted image counts as a submit error. *)
Lemma report_is_stored_with_current_path
    {H : Type} `{BaseHandler H} (options : Options) (total : nat)
    (currentImagePath : string) (st : Manager.Loop H) submitted status :
  (0 <? Manager.existingSuccessCount options
          (ExifWriter.getAppData (Manager.exifWriterInstance st) currentImagePath).1)
    && Manager.skipEnabled options = false →
  (processImage (Manager.handler st) currentImagePath (prompt options)).1 =
    Returns (SubmitReport submitted status) →
  let st' := Manager.skipOrSubmit options total currentImagePath st in
  Manager.previousImagePath st' = Some currentImagePath ∧
  Manager.successStatusForPreviousImage st' = Some status ∧
  Manager.submitErrors (Manager.summary st') =
    (if submitted then 0 else 1) + Manager.submitErrors (Manager.summary st).
Proof.
  intros Hskip Hres. simpl. unfold Manager.skipOrSubmit.
  destruct (ExifWriter.getAppData _ _) as [d w]. simpl in Hskip. rewrite Hskip.
  destruct (processImage _ _ _) as [c h]. simpl in Hres. subst c.
  by destruct submitted.
Qed.

(** The sentence of C6 as it is written fails on a page whose submit
    button becomes enabled and whose click then times out: the button
    was not stuck, and yet the call reloads the page and makes a
    second pass, which submits. *)
Lemma retry_after_click_timeout_counterexample :
  let h := Scenarios.chatgpt MoreScenarios.clickStuckOnce in
  ChatGptService.gateFails (MoreScenarios.clickStuckOnce 0) = None ∧
  ChatGptHandler.processImage h Scenarios.img1 (prompt defaultConfig) =
    (Returns (SubmitReport true true),
     {| ChatGptHandler.options := defaultConfig;
        ChatGptHandler.readySelectors := chatgptReadySelectors defaultConfig;
        ChatGptHandler.chatgptService := true;
        ChatGptHandler.page :=
          {| ChatGptService.views := MoreScenarios.clickStuckOnce;
             ChatGptService.attempts := 2; ChatGptService.reloads := 1 |} |}) ∧
  ¬ Stated.retriesOnDisabledButtonOnly h Scenarios.img1 (prompt defaultConfig).
Proof.
  intros h.
  assert (Hcall : ChatGptHandler.processImage h Scenarios.img1 (prompt defaultConfig) =
    (Returns (SubmitReport true true),
     {| ChatGptHandler.options := defaultConfig;
        ChatGptHandler.readySelectors := chatgptReadySelectors defaultConfig;
        ChatGptHandler.chatgptService := true;
        ChatGptHandler.page :=
          {| ChatGptService.views := MoreScenarios.clickStuckOnce;
             ChatGptService.attempts := 2; ChatGptService.reloads := 1 |} |}))
    by (vm_compute; reflexivity).
  split; [reflexivity|]. split; [exact Hcall|].
  intros Hstated. specialize (Hstated eq_refl). rewrite Hcall in Hstated.
  unfold ChatGptHandler.attemptsMade in Hstated. simpl in Hstated. lia.
Qed.

(** C6. A call of the ChatGPT handler's [processImage] whose service
    cannot be built rejects with the constructor's error and makes no
    pass. Otherwise it makes one pass through its attempt or two. It
    makes two exactly when the first pass ends in an error whose
    message holds the phrase of the gate timeout and the reload of the
    page succeeds; the service throws an error with that phrase when
    the wait for the enabled submit button, or the click on it, ends
    in a [TimeoutError] that names the button's selector. The second
    pass runs the attempt again, on the next view of the page, and
    what it ends in is the result of the call: a submission is
    reported as submitted with the status found in that pass, any
    failure as unsubmitted, and no third pass is made. A call of one
    pass reports what the first pass ends in. The page has been
    reloaded once after two passes and not at all after one. *)
Theorem one_retry_on_gate_timeout_only
    (h : ChatGptHandler.t) (imagePath prompt : string) :
  let first := ChatGptService.views (ChatGptHandler.page h)
                 (ChatGptService.attempts (ChatGptHandler.page h)) in
  let second := ChatGptService.views (ChatGptHandler.page h)
                  (S (ChatGptService.attempts (ChatGptHandler.page h))) in
  let call := ChatGptHandler.processImage h imagePath prompt in
  let made := ChatGptHandler.attemptsMade h call.2 in
  let gated (e : Js.error) :=
    Js.includes ChatGptHandler.gatePhrase (Js.message e) = true in
  let gateTimeout := Js.newError ChatGptService.gateTimeoutMessage in
  let report (ending : ChatGptHandler.TryEnd) :=
    match ending with
    | ChatGptHandler.Submitted status => Returns (SubmitReport true status)
    | _ => Returns (SubmitReport false false)
    end in
  (∀ error, ChatGptHandler.buildService h = Some error →
     call = (Throws error, h) ∧ made = 0) ∧
  (ChatGptHandler.buildService h = None →
     (made = 1 ∨ made = 2) ∧
     (made = 2 ↔ ∃ e, ChatGptHandler.tryBlock h first = ChatGptHandler.Caught e ∧
                      gated e ∧ ChatGptService.reloadFails first = None) ∧
     (made = 1 → call.1 = report (ChatGptHandler.tryBlock h first)) ∧
     (made = 2 → call.1 = report (ChatGptHandler.tryBlock h second)) ∧
     ChatGptHandler.reloadsMade h call.2 = made - 1 ∧
     ChatGptService.views (ChatGptHandler.page call.2) =
       ChatGptService.views (ChatGptHandler.page h)) ∧
  gated gateTimeout ∧
  (∀ v message,
     (0 <? length (ChatGptHandler.readySelectors h)) &&
       negb (ChatGptService.readyVisible v) = false →
     ChatGptService.uploadFails v = None →
     ChatGptService.promptFails v = None →
     Js.includes (chatgptSubmitButton (ChatGptHandler.options h)) message = true →
     ChatGptService.gateFails v = Some (Js.Error "TimeoutError" message) ∨
     (ChatGptService.gateFails v = None ∧
      ChatGptService.clickFails v = Some (Js.Error "TimeoutError" message)) →
     ChatGptHandler.tryBlock h v = ChatGptHandler.Caught gateTimeout).
Proof.
  intros first second call made gated gateTimeout report.
  assert (Hgt : gated gateTimeout) by (vm_compute; reflexivity).
  split; [|split; [|split; [exact Hgt|]]].
  - intros error Hbuild. subst made call.
    rewrite (processImage_cases h imagePath prompt), Hbuild.
    split; [done|]. unfold ChatGptHandler.attemptsMade. simpl. lia.
  - intros Hbuild. subst made call.
    rewrite (processImage_cases h imagePath prompt), Hbuild.
    fold first second.
    unfold ChatGptHandler.attemptsMade, ChatGptHandler.reloadsMade.
    destruct (ChatGptHandler.tryBlock h first) as [|status|e] eqn:Hfirst; simpl.
    + split; [left; lia|]. split; [split; [lia|by intros (? & ? & _)]|].
      split; [done|]. split; [lia|]. split; [lia|done].
    + split; [left; lia|]. split; [split; [lia|by intros (? & ? & _)]|].
      split; [done|]. split; [lia|]. split; [lia|done].
    + destruct (Js.includes ChatGptHandler.gatePhrase (Js.message e)) eqn:Hinc.
      * destruct (ChatGptService.reloadFails first) as [re|] eqn:Hre; simpl.
        -- split; [left; lia|]. split; [split; [lia|by intros (? & ? & ? & ?)]|].
           split; [done|]. split; [lia|]. split; [lia|done].
        -- destruct (ChatGptHandler.tryBlock h second) as [|status|e2] eqn:Hsecond;
             simpl;
             (split; [right; lia|]); (split; [split; [eauto|lia]|]);
             (split; [lia|]); (split; [done|]); (split; [lia|done]).
      * simpl. split; [left; lia|]. split.
        { split; [lia|]. intros (e' & [= <-] & Hg & _). unfold gated in Hg. congruence. }
        split; [done|]. split; [lia|]. split; [lia|done].
  - intros v message Hready Hup Hpr Hmsg [Hgate|[Hgate Hclick]].
    + by apply (stuck_gate_is_caught h v message).
    + by apply (click_timeout_is_caught h v message).
Qed.

(** C6 on a page whose submit button never becomes enabled: both
    passes end in the gate timeout, the call makes two passes and
    reports the image as not submitted; a batch of that one image
    counts one submit error and records the image as failed. *)
Lemma one_retry_on_gate_timeout_only_witness :
  let h := Scenarios.chatgpt (λ _, Scenarios.stuck) in
  ChatGptHandler.buildService h = None ∧
  ChatGptHandler.tryBlock h Scenarios.stuck =
    ChatGptHandler.Caught (Js.newError ChatGptService.gateTimeoutMessage) ∧
  ChatGptService.reloadFails Scenarios.stuck = None ∧
  ChatGptHandler.attemptsMade h
    (ChatGptHandler.processImage h Scenarios.img1 (prompt defaultConfig)).2 = 2 ∧
  (ChatGptHandler.processImage h Scenarios.img1 (prompt defaultConfig)).1 =
    Returns (SubmitReport false false) ∧
  Manager.processImageBatch defaultConfig h (Scenarios.writer ∅) [Scenarios.img1] =
    {| Manager.processed := 1; Manager.skipped := 0; Manager.success := 0;
       Manager.failed := 1; Manager.submitErrors := 1; Manager.exifErrors := 0 |}.
Proof.
  intros h.
  assert (Hbuild : ChatGptHandler.buildService h = None) by (vm_compute; reflexivity).
  destruct (one_retry_on_gate_timeout_only h Scenarios.img1 (prompt defaultConfig))
    as (_ & Hbuilt & _ & Hcaught).
  assert (Hstuck : ChatGptHandler.tryBlock h Scenarios.stuck =
    ChatGptHandler.Caught (Js.newError ChatGptService.gateTimeoutMessage)).
  { apply (Hcaught Scenarios.stuck (Js.message Scenarios.submitTimeout));
      [vm_compute; reflexivity..|left; reflexivity]. }
  destruct (Hbuilt Hbuild) as (_ & Htwo & _ & Hsecond & _).
  assert (Hmade : ChatGptHandler.attemptsMade h
    (ChatGptHandler.processImage h Scenarios.img1 (prompt defaultConfig)).2 = 2).
  { apply Htwo. eexists. split; [exact Hstuck|]. split; reflexivity. }
  split; [exact Hbuild|]. split; [exact Hstuck|]. split; [reflexivity|].
  split; [exact Hmade|]. split.
  - rewrite (Hsecond Hmade).
    change (ChatGptService.views (ChatGptHandler.page h)
              (S (ChatGptService.attempts (ChatGptHandler.page h))))
      with Scenarios.stuck.
    by rewrite Hstuck.
  - vm_compute. reflexivity.
Defined.

(** * Properties of runRecursiveMode *)

Section Pairing.
Import Manager.

Lemma zip_by_index (xs ys : list string) :
  (λ i, (xs !!! i, ys !!! i)) <$> seq 0 (length xs `min` length ys) = zip xs ys.
Proof.
  revert ys. induction xs as [|x xs IH]; intros [|y ys]; simpl; try done.
  f_equal. rewrite <- fmap_S_seq, <- list_fmap_compose. apply IH.
Qed.

Lemma zip_of_prefixes (xs ys : list string) :
  zip xs ys = zip (take (length xs `min` length ys) xs)
                  (take (length xs `min` length ys) ys).
Proof.
  revert ys. induction xs as [|x xs IH]; intros [|y ys]; simpl; try done.
  f_equal. apply IH.
Qed.

Lemma unitsLe_total (a : list N) : ∀ b,
  FileManager.unitsLe a b = true ∨ FileManager.unitsLe b a = true.
Proof.
  induction a as [|x a IH]; intros [|y b]; simpl; auto.
  destruct (N.ltb_spec x y), (N.ltb_spec y x); auto.
Qed.

Lemma codeUnitOrder_total : Total FileManager.codeUnitOrder.
Proof.
  intros a b. unfold FileManager.codeUnitOrder.
  destruct (unitsLe_total (FileManager.codeUnits a) (FileManager.codeUnits b))
    as [->| ->]; [by left|by right].
Qed.

(** A listing that succeeds is sorted. *)
Lemma findSubdirectories_sorted fs basePath dirs :
  FileManager.findSubdirectories fs basePath = Js.Ok dirs →
  Sorted FileManager.codeUnitOrder dirs.
Proof.
  unfold FileManager.findSubdirectories.
  destruct (FileManager.readdir fs _); [|done]. intros [= <-].
  apply (Sorted_merge_sort _ (Total0:=codeUnitOrder_total)).
Qed.

Lemma fold_accumulate (rs : list Summary) : ∀ acc,
  let total := fold_left accumulate rs acc in
  processed total = processed acc + sum_list (processed <$> rs) ∧
  skipped total = skipped acc + sum_list (skipped <$> rs) ∧
  success total = success acc + sum_list (success <$> rs) ∧
  failed total = failed acc + sum_list (failed <$> rs) ∧
  submitErrors total = submitErrors acc + sum_list (submitErrors <$> rs) ∧
  exifErrors total = exifErrors acc + sum_list (exifErrors <$> rs).
Proof.
  induction rs as [|r rs IH]; intros acc; csimpl.
  - repeat split; lia.
  - destruct (IH (accumulate acc r)) as (-> & -> & -> & -> & -> & ->).
    csimpl. repeat split; lia.
Qed.

End Pairing.

(** The sentence of C7 as it is written fails for [--concurrency 1.5]:
    the two listings succeed with three and two directories, [pLimit]
    throws, and no task is created. *)
Lemma fractional_concurrency_counterexample :
  FileManager.findSubdirectories Scenarios.disk "/in" =
    Js.Ok ["/in/a"; "/in/b"; "/in/c"] ∧
  FileManager.findSubdirectories Scenarios.disk "/profiles" =
    Js.Ok ["/profiles/p1"; "/profiles/p2"] ∧
  Manager.tasks (Manager.runRecursiveMode MoreScenarios.fractional "/in" "/profiles"
                   Scenarios.disk Scenarios.sessions) = [] ∧
  ¬ Stated.pairsEveryMinimum MoreScenarios.fractional "/in" "/profiles"
      Scenarios.disk Scenarios.sessions.
Proof.
  assert (Hin : FileManager.findSubdirectories Scenarios.disk "/in" =
    Js.Ok ["/in/a"; "/in/b"; "/in/c"]) by (vm_compute; reflexivity).
  assert (Hud : FileManager.findSubdirectories Scenarios.disk "/profiles" =
    Js.Ok ["/profiles/p1"; "/profiles/p2"]) by (vm_compute; reflexivity).
  assert (Htasks : Manager.tasks (Manager.runRecursiveMode MoreScenarios.fractional
            "/in" "/profiles" Scenarios.disk Scenarios.sessions) = []).
  { unfold Manager.runRecursiveMode. rewrite Hin, Hud. reflexivity. }
  split; [exact Hin|]. split; [exact Hud|]. split; [exact Htasks|].
  intros Hstated. specialize (Hstated _ _ Hin Hud). rewrite Htasks in Hstated.
  discriminate Hstated.
Qed.

(** C7. In recursive (paired) mode, when the two listings succeed
    with [M] input directories and [K] profile directories, both lists
    are sorted and the mismatch warning is logged exactly when [M] and
    [K] differ. When [pLimit] accepts the concurrency option, the
    tasks are the positional zip of the two lists, so there are
    exactly [min M K] of them (and as many results), built from the
    first [min M K] entries of each list only. When [pLimit] throws,
    no task is created and there is no result. *)
Theorem paired_mode_zips_sorted_lists
    {H : Type} `{BaseHandler H} (options : Options)
    (input userDataDir : string) (fs : FileManager.Fs)
    (launch : string → string → Manager.Session)
    (inputSubDirs userDataSubDirs : list string) :
  FileManager.findSubdirectories fs input = Js.Ok inputSubDirs →
  FileManager.findSubdirectories fs userDataDir = Js.Ok userDataSubDirs →
  let r := Manager.runRecursiveMode options input userDataDir fs launch in
  let M := length inputSubDirs in
  let K := length userDataSubDirs in
  Sorted FileManager.codeUnitOrder inputSubDirs ∧
  Sorted FileManager.codeUnitOrder userDataSubDirs ∧
  Manager.numPairs r = M `min` K ∧
  (Manager.MismatchCount M K (M `min` K) ∈ Manager.warnings r ↔ M ≠ K) ∧
  (PLimit.pLimit (concurrency options) = None →
     Manager.tasks r = zip inputSubDirs userDataSubDirs ∧
     Manager.tasks r =
       zip (take (M `min` K) inputSubDirs) (take (M `min` K) userDataSubDirs) ∧
     length (Manager.tasks r) = M `min` K ∧
     length (Manager.results r) = M `min` K) ∧
  (∀ error, PLimit.pLimit (concurrency options) = Some error →
     Manager.tasks r = [] ∧ Manager.results r = [] ∧
     Manager.aggregateSummary r = Manager.zeroSummary).
Proof.
  intros Hin Hud r M K.
  split; [by eapply findSubdirectories_sorted|].
  split; [by eapply findSubdirectories_sorted|].
  assert (Hwarn : ∀ tail : list Manager.Warning,
    (∀ a b c, Manager.MismatchCount a b c ∉ tail) →
    Manager.MismatchCount M K (M `min` K) ∈
      (if negb (M =? K) then [Manager.MismatchCount M K (M `min` K)] else []) ++ tail
    ↔ M ≠ K).
  { intros tail Htail. rewrite elem_of_app.
    destruct (Nat.eqb_spec M K) as [Heq|Hne]; simpl.
    - split; [|done]. intros [Hn|Hn]; [by apply elem_of_nil in Hn|by apply Htail in Hn].
    - split; [done|]. intros _. left. by apply list_elem_of_singleton. }
  assert (Hwarn0 : Manager.MismatchCount M K (M `min` K) ∈
      (if negb (M =? K) then [Manager.MismatchCount M K (M `min` K)] else [])
    ↔ M ≠ K).
  { rewrite <- (app_nil_r (if negb (M =? K) then _ else _)).
    apply Hwarn. intros a b c. apply not_elem_of_nil. }
  subst r. unfold Manager.runRecursiveMode. rewrite Hin, Hud. fold M K.
  destruct (Nat.eqb_spec (M `min` K) 0) as [Hzero|Hpos]; simpl.
  - split; [done|]. split.
    { apply Hwarn. intros a b c Hn. apply list_elem_of_singleton in Hn. done. }
    split; [|done]. intros _.
    assert (Hzip : zip inputSubDirs userDataSubDirs = []).
    { subst M K. destruct inputSubDirs, userDataSubDirs; simpl in *; done. }
    split; [by rewrite Hzip|].
    split; [unfold M, K; by rewrite <- zip_of_prefixes, Hzip|]. by rewrite Hzero.
  - destruct (PLimit.pLimit (concurrency options)) as [error|]; simpl.
    + split; [done|]. split; [exact Hwarn0|]. split; [done|]. by intros e _.
    + split; [done|]. split; [exact Hwarn0|]. split; [|done]. intros _.
      assert (Ht := zip_by_index inputSubDirs userDataSubDirs). fold M K in Ht.
      rewrite Ht.
      split; [done|]. split; [apply zip_of_prefixes|].
      split; [by rewrite length_zip_with|].
      by rewrite length_fmap, length_zip_with.
Qed.

(** C7 on a disk with three input directories and two profiles, with
    the default concurrency of four: two tasks, over the first two
    input directories in sorted order. *)
Lemma paired_mode_zips_sorted_lists_witness :
  FileManager.findSubdirectories Scenarios.disk "/in" =
    Js.Ok ["/in/a"; "/in/b"; "/in/c"] ∧
  FileManager.findSubdirectories Scenarios.disk "/profiles" =
    Js.Ok ["/profiles/p1"; "/profiles/p2"] ∧
  PLimit.pLimit (concurrency defaultConfig) = None ∧
  Manager.tasks (Manager.runRecursiveMode defaultConfig "/in" "/profiles"
                   Scenarios.disk Scenarios.sessions) =
    zip ["/in/a"; "/in/b"; "/in/c"] ["/profiles/p1"; "/profiles/p2"].
Proof.
  assert (Hin : FileManager.findSubdirectories Scenarios.disk "/in" =
    Js.Ok ["/in/a"; "/in/b"; "/in/c"]) by (vm_compute; reflexivity).
  assert (Hud : FileManager.findSubdirectories Scenarios.disk "/profiles" =
    Js.Ok ["/profiles/p1"; "/profiles/p2"]) by (vm_compute; reflexivity).
  split; [exact Hin|]. split; [exact Hud|]. split; [reflexivity|].
  exact (proj1 (proj1 (proj2 (proj2 (proj2 (proj2
    (paired_mode_zips_sorted_lists defaultConfig
       "/in" "/profiles" Scenarios.disk Scenarios.sessions _ _ Hin Hud))))) eq_refl)).
Defined.

(** C8. In recursive mode the results are those of the tasks, one per
    pair and in the order of the pairs; a task whose session fails
    before the batch starts gives the all-zero summary; and every
    field of the run-wide summary is the sum of that field over all
    results. *)
Theorem aggregate_is_fieldwise_sum
    {H : Type} `{BaseHandler H} (options : Options)
    (input userDataDir : string) (fs : FileManager.Fs)
    (launch : string → string → Manager.Session) :
  let r := Manager.runRecursiveMode options input userDataDir fs launch in
  Manager.results r =
    (λ pair, Manager.task options launch pair.1 pair.2) <$> Manager.tasks r ∧
  (∀ a b, is_Some (Manager.startupFails (launch a b)) →
          Manager.task options launch a b = Manager.zeroSummary) ∧
  Manager.processed (Manager.aggregateSummary r) =
    sum_list (Manager.processed <$> Manager.results r) ∧
  Manager.skipped (Manager.aggregateSummary r) =
    sum_list (Manager.skipped <$> Manager.results r) ∧
  Manager.success (Manager.aggregateSummary r) =
    sum_list (Manager.success <$> Manager.results r) ∧
  Manager.failed (Manager.aggregateSummary r) =
    sum_list (Manager.failed <$> Manager.results r) ∧
  Manager.submitErrors (Manager.aggregateSummary r) =
    sum_list (Manager.submitErrors <$> Manager.results r) ∧
  Manager.exifErrors (Manager.aggregateSummary r) =
    sum_list (Manager.exifErrors <$> Manager.results r).
Proof.
  intros r.
  split; [|split].
  - subst r. unfold Manager.runRecursiveMode.
    destruct (FileManager.findSubdirectories fs input); [|done].
    destruct (FileManager.findSubdirectories fs userDataDir); [|done].
    destruct (_ =? 0); [done|]. by destruct (PLimit.pLimit _).
  - intros a b [e He]. unfold Manager.task. by rewrite He.
  - assert (Hagg : Manager.aggregateSummary r =
      fold_left Manager.accumulate (Manager.results r) Manager.zeroSummary).
    { subst r. unfold Manager.runRecursiveMode.
      destruct (FileManager.findSubdirectories fs input); [|done].
      destruct (FileManager.findSubdirectories fs userDataDir); [|done].
      destruct (_ =? 0); [done|]. by destruct (PLimit.pLimit _). }
    rewrite Hagg.
    destruct (fold_accumulate (Manager.results r) Manager.zeroSummary)
      as (-> & -> & -> & -> & -> & ->).
    done.
Qed.

(** * Properties of the counter store *)

Section Store.
Import ExifWriter.

Lemma readAppData_keeps_files (w : ExifWriter.t) filePath :
  files (exiftool (_readAppDataInternal w filePath).2) = files (exiftool w) ∧
  healthy (exiftool (_readAppDataInternal w filePath).2) = healthy (exiftool w) ∧
  calls (exiftool (_readAppDataInternal w filePath).2) = S (calls (exiftool w)) ∧
  successKey (_readAppDataInternal w filePath).2 = successKey w ∧
  failedKey (_readAppDataInternal w filePath).2 = failedKey w.
Proof. unfold _readAppDataInternal. by destruct (healthy _ _). Qed.

(** An increment changes the data of its own file at most. *)
Lemma incrementCounter_other_files (w : ExifWriter.t) filePath key q :
  q ≠ filePath →
  files (exiftool (incrementCounter w filePath key).2) !! q = files (exiftool w) !! q.
Proof.
  intros Hne. unfold incrementCounter.
  destruct (_ && _); [done|].
  destruct (readAppData_keeps_files w filePath) as (Hf & Hh & Hc & _).
  destruct (_readAppDataInternal w filePath) as [read w1]. simpl in *.
  destruct (healthy _ _); simpl; rewrite ?lookup_insert_ne by done; by rewrite Hf.
Qed.

Lemma incrementCounter_keeps_keys (w : ExifWriter.t) filePath key :
  successKey (incrementCounter w filePath key).2 = successKey w ∧
  failedKey (incrementCounter w filePath key).2 = failedKey w ∧
  healthy (exiftool (incrementCounter w filePath key).2) = healthy (exiftool w).
Proof.
  unfold incrementCounter.
  destruct (_ && _); [done|].
  destruct (readAppData_keeps_files w filePath) as (Hf & Hh & Hc & Hs & Hk).
  destruct (_readAppDataInternal w filePath) as [read w1]. simpl in *.
  destruct (healthy _ _); simpl; done.
Qed.

End Store.

(** X1. When the key is one of the writer's two keys and the exiftool
    calls succeed, [incrementCounter] returns true, and the data that
    [getAppData] then reads for the file has that counter one above
    the stored count (zero when none was stored) and every other
    counter at its stored count. *)
Theorem increment_then_read_back
    (w : ExifWriter.t) (filePath keyToIncrement : string) :
  let tool := ExifWriter.exiftool w in
  let stored := default ∅ (ExifWriter.files tool !! filePath) in
  let after := ExifWriter.incrementCounter w filePath keyToIncrement in
  keyToIncrement = ExifWriter.successKey w ∨ keyToIncrement = ExifWriter.failedKey w →
  (∀ n, n < 3 → ExifWriter.healthy tool (n + ExifWriter.calls tool) = true) →
  after.1 = true ∧
  ∃ data, (ExifWriter.getAppData after.2 filePath).1 = Some data ∧
    data !! keyToIncrement = Some (S (default 0 (stored !! keyToIncrement))) ∧
    ∀ key, key ≠ keyToIncrement →
      default 0 (data !! key) = default 0 (stored !! key).
Proof.
  intros tool stored after Hkey Hh.
  assert (H0 := Hh 0 ltac:(lia)). assert (H1 := Hh 1 ltac:(lia)).
  assert (H2 := Hh 2 ltac:(lia)). simpl in H0, H1, H2.
  subst after. unfold ExifWriter.incrementCounter.
  assert (Hvalid : negb (String.eqb keyToIncrement (ExifWriter.successKey w)) &&
                   negb (String.eqb keyToIncrement (ExifWriter.failedKey w)) = false).
  { destruct Hkey as [->| ->]; rewrite String.eqb_refl; simpl; try done.
    by rewrite andb_false_r. }
  rewrite Hvalid. unfold ExifWriter._readAppDataInternal. fold tool.
  rewrite H0. simpl. rewrite H1. simpl. split; [done|].
  unfold ExifWriter.getAppData, ExifWriter._readAppDataInternal. simpl.
  rewrite H2. simpl. rewrite lookup_insert_eq. eexists. split; [done|].
  fold stored. split.
  - rewrite lookup_insert_eq. do 2 f_equal.
    destruct (stored !! keyToIncrement) eqn:Hs; simpl.
    + by erewrite lookup_union_Some_l.
    + rewrite lookup_union_r by done.
      destruct Hkey as [->| ->].
      * destruct (decide (ExifWriter.failedKey w = ExifWriter.successKey w)) as [->|Hne].
        -- by rewrite lookup_insert_eq.
        -- by rewrite lookup_insert_ne, lookup_insert_eq.
      * by rewrite lookup_insert_eq.
  - intros key Hne. rewrite lookup_insert_ne by done.
    destruct (stored !! key) eqn:Hs; simpl.
    + by erewrite lookup_union_Some_l.
    + rewrite lookup_union_r by done.
      destruct (decide (ExifWriter.failedKey w = key)) as [<-|Hf].
      * by rewrite lookup_insert_eq.
      * rewrite lookup_insert_ne by done.
        destruct (decide (ExifWriter.successKey w = key)) as [<-|Hs'].
        -- by rewrite lookup_insert_eq.
        -- by rewrite lookup_insert_ne.
Qed.

(** X1 at a stored success count of two: the count read back is
    three. *)
Lemma increment_then_read_back_witness :
  let w := Scenarios.writer Scenarios.img2Done in
  ("successCount" = ExifWriter.successKey w ∨ "successCount" = ExifWriter.failedKey w) ∧
  (∀ n, n < 3 → ExifWriter.healthy (ExifWriter.exiftool w)
                  (n + ExifWriter.calls (ExifWriter.exiftool w)) = true) ∧
  (ExifWriter.incrementCounter w Scenarios.img2 "successCount").1 = true.
Proof.
  intros w.
  assert (Hkey : "successCount" = ExifWriter.successKey w ∨
                 "successCount" = ExifWriter.failedKey w) by (left; reflexivity).
  assert (Hh : ∀ n, n < 3 → ExifWriter.healthy (ExifWriter.exiftool w)
                  (n + ExifWriter.calls (ExifWriter.exiftool w)) = true)
    by (intros n _; reflexivity).
  split; [exact Hkey|]. split; [exact Hh|].
  exact (proj1 (increment_then_read_back w Scenarios.img2 "successCount" Hkey Hh)).
Defined.

(** X2. [incrementCounter] leaves the stored data of every other file
    as it was; when it returns false, no stored data changed at all;
    and with a key that is neither of the writer's two keys it returns
    false without a call to exiftool. *)
Theorem increment_touches_one_file
    (w : ExifWriter.t) (filePath keyToIncrement : string) :
  let after := ExifWriter.incrementCounter w filePath keyToIncrement in
  (∀ other, other ≠ filePath →
     ExifWriter.files (ExifWriter.exiftool after.2) !! other =
     ExifWriter.files (ExifWriter.exiftool w) !! other) ∧
  (after.1 = false →
     ExifWriter.files (ExifWriter.exiftool after.2) =
     ExifWriter.files (ExifWriter.exiftool w)) ∧
  (keyToIncrement ≠ ExifWriter.successKey w →
   keyToIncrement ≠ ExifWriter.failedKey w →
   after = (false, w)).
Proof.
  intros after. split; [|split].
  - intros other Hne. by apply incrementCounter_other_files.
  - subst after. unfold ExifWriter.incrementCounter.
    destruct (_ && _); [done|].
    destruct (readAppData_keeps_files w filePath) as (Hf & _).
    destruct (ExifWriter._readAppDataInternal w filePath) as [read w1]. simpl in *.
    destruct (ExifWriter.healthy _ _); simpl; [done|]. by intros _.
  - intros Hs Hf. subst after. unfold ExifWriter.incrementCounter.
    apply String.eqb_neq in Hs, Hf. by rewrite Hs, Hf.
Qed.

(** X3. When the read inside [incrementCounter] fails and the write
    succeeds, the counts that were stored for the file are lost: the
    file then holds one for the incremented key and zero for the
    other key, whatever it held before. *)
Theorem failed_read_resets_counts
    (w : ExifWriter.t) (filePath keyToIncrement : string) :
  let tool := ExifWriter.exiftool w in
  keyToIncrement = ExifWriter.successKey w ∨ keyToIncrement = ExifWriter.failedKey w →
  ExifWriter.healthy tool (ExifWriter.calls tool) = false →
  ExifWriter.healthy tool (S (ExifWriter.calls tool)) = true →
  (ExifWriter.incrementCounter w filePath keyToIncrement).1 = true ∧
  ExifWriter.files (ExifWriter.exiftool
    (ExifWriter.incrementCounter w filePath keyToIncrement).2) !! filePath =
    Some (<[keyToIncrement := 1]>
            (<[ExifWriter.failedKey w := 0]> (<[ExifWriter.successKey w := 0]> ∅))).
Proof.
  intros tool Hkey Hread Hwrite.
  unfold ExifWriter.incrementCounter.
  assert (Hvalid : negb (String.eqb keyToIncrement (ExifWriter.successKey w)) &&
                   negb (String.eqb keyToIncrement (ExifWriter.failedKey w)) = false).
  { destruct Hkey as [->| ->]; rewrite String.eqb_refl; simpl; try done.
    by rewrite andb_false_r. }
  rewrite Hvalid. unfold ExifWriter._readAppDataInternal. fold tool.
  rewrite Hread. simpl. rewrite Hwrite. simpl. split; [done|].
  rewrite lookup_insert_eq. simpl. rewrite (left_id_L ∅ (∪)).
  assert (Hzero : default 0 ((<[ExifWriter.failedKey w := 0]>
            (<[ExifWriter.successKey w := 0]> (∅ : gmap string nat))) !! keyToIncrement) = 0).
  { destruct Hkey as [->| ->].
    - destruct (decide (ExifWriter.failedKey w = ExifWriter.successKey w)) as [->|Hne].
      + by rewrite lookup_insert_eq.
      + by rewrite lookup_insert_ne, lookup_insert_eq.
    - by rewrite lookup_insert_eq. }
  by rewrite Hzero.
Qed.

(** X3 on a file with a stored success count of two: after an
    increment of the failure counter whose read failed, the success
    count is zero. *)
Lemma failed_read_resets_counts_witness :
  let w := ExifWriter.new defaultConfig (MoreScenarios.flakyTool Scenarios.img2Done) in
  ("failedCount" = ExifWriter.successKey w ∨ "failedCount" = ExifWriter.failedKey w) ∧
  ExifWriter.healthy (ExifWriter.exiftool w) (ExifWriter.calls (ExifWriter.exiftool w)) = false ∧
  ExifWriter.healthy (ExifWriter.exiftool w) (S (ExifWriter.calls (ExifWriter.exiftool w))) = true ∧
  ExifWriter.files (ExifWriter.exiftool
    (ExifWriter.incrementCounter w Scenarios.img2 "failedCount").2) !! Scenarios.img2 =
    Some (<["failedCount" := 1]> (<["failedCount" := 0]> (<["successCount" := 0]> ∅))).
Proof.
  intros w.
  assert (Hkey : "failedCount" = ExifWriter.successKey w ∨
                 "failedCount" = ExifWriter.failedKey w) by (right; reflexivity).
  split; [exact Hkey|]. split; [reflexivity|]. split; [reflexivity|].
  exact (proj2 (failed_read_resets_counts w Scenarios.img2 "failedCount"
                  Hkey eq_refl eq_refl)).
Defined.

(** * More properties of processImageBatch *)

Section Kept.
Import Manager Invariants.
Context {H : Type} `{BaseHandler H}.
Variable options : Options.

(** A property kept by the parts of the loop body and by the
    branches after the loop holds of the whole batch. *)
Lemma runBatch_keeps (P : Loop H → Prop) (h : H) (w : ExifWriter.t)
    (imagePaths : list string) :
  P (start h w) →
  (∀ st, P st → P (prepare options st)) →
  (∀ total p st, successStatusForPreviousImage st = None → P st →
                 P (skipOrSubmit options total p st)) →
  (∀ st, P st → P (finish options st)) →
  P (runBatch options h w imagePaths).
Proof.
  intros Hstart Hprep Hbody Hfin. unfold runBatch. apply Hfin.
  generalize (length imagePaths) as total. intros total.
  revert Hstart. generalize (start h w).
  induction imagePaths as [|p rest IH]; intros st Hst; simpl; [done|].
  apply IH. unfold loopBody. apply Hbody.
  - unfold prepare. done.
  - by apply Hprep.
Qed.

#[local] Arguments Trace.submissions : simpl never.
#[local] Arguments Trace.visits : simpl never.
#[local] Arguments Trace.updates : simpl never.

Lemma submissions_app (l k : list Event) :
  Trace.submissions (l ++ k) = Trace.submissions l ++ Trace.submissions k.
Proof. apply omap_app. Qed.

Lemma visits_app (l k : list Event) :
  Trace.visits (l ++ k) = Trace.visits l ++ Trace.visits k.
Proof. apply omap_app. Qed.

Lemma updates_app (l k : list Event) :
  Trace.updates (l ++ k) = Trace.updates l ++ Trace.updates k.
Proof. apply omap_app. Qed.

Lemma waits_are_silent (total i : nat) :
  let waits := if i <? total then [EvWait i] else [] in
  Trace.submissions waits = [] ∧ Trace.visits waits = [] ∧ Trace.updates waits = [].
Proof. simpl. by destruct (_ <? _). Qed.

Lemma prepare_tallied (st : Loop H) : Tallied st → Tallied (prepare options st).
Proof.
  intros (Hp & Hv & Hu & He). unfold Tallied, prepare, updatePrevious. simpl.
  destruct (statusKnown _) as [[prev status]|]; [|done].
  destruct (ExifWriter.incrementCounter _ _ _) as [ok w]. simpl.
  rewrite submissions_app, visits_app, updates_app, !length_app.
  rewrite <- Hp, <- Hv, <- Hu.
  destruct ok, status; cbv [Trace.submissions Trace.visits Trace.updates];
    simpl; repeat split; lia.
Qed.

Lemma skipOrSubmit_tallied total p (st : Loop H) :
  Tallied st → Tallied (skipOrSubmit options total p st).
Proof.
  intros (Hp & Hv & Hu & He). unfold Tallied, skipOrSubmit.
  destruct (ExifWriter.getAppData _ _) as [d w].
  destruct (_ && _); simpl.
  - rewrite submissions_app, visits_app, updates_app, !length_app.
    rewrite <- Hp, <- Hv, <- Hu.
    cbv [Trace.submissions Trace.visits Trace.updates]. simpl. repeat split; lia.
  - destruct (processImage _ _ _) as [c h].
    destruct (waits_are_silent total (fileIndex st)) as (Hw1 & Hw2 & Hw3).
    revert Hw1 Hw2 Hw3.
    generalize (if fileIndex st <? total then [EvWait (fileIndex st)] else []).
    intros waits Hw1 Hw2 Hw3.
    assert (Hlog : ∀ i q,
      length (Trace.submissions (log st ++ EvSubmit i q :: waits)) = S (processed (summary st)) ∧
      length (Trace.visits (log st ++ EvSubmit i q :: waits)) =
        S (processed (summary st) + skipped (summary st)) ∧
      length (Trace.updates (log st ++ EvSubmit i q :: waits)) =
        success (summary st) + failed (summary st) + exifErrors (summary st)).
    { intros i q. change (EvSubmit i q :: waits) with ([EvSubmit i q] ++ waits).
      rewrite !submissions_app, !visits_app, !updates_app, !length_app, Hw1, Hw2, Hw3.
      rewrite <- Hp, <- Hv, <- Hu.
      cbv [Trace.submissions Trace.visits Trace.updates]. simpl. repeat split; lia. }
    destruct (Hlog (fileIndex st) p) as (Hl1 & Hl2 & Hl3).
    destruct c as [[[] status|success]|e]; simpl;
      rewrite Hl1, Hl2, Hl3; repeat split; lia.
Qed.

Lemma finish_tallied (st : Loop H) : Tallied st → Tallied (finish options st).
Proof.
  intros (Hp & Hv & Hu & He). unfold Tallied, finish, updatePrevious.
  destruct (statusKnown st) as [[prev status]|].
  - destruct (ExifWriter.incrementCounter _ _ _) as [ok w]. simpl.
    rewrite submissions_app, visits_app, updates_app, !length_app.
    rewrite <- Hp, <- Hv, <- Hu.
    destruct ok, status; cbv [Trace.submissions Trace.visits Trace.updates];
      simpl; repeat split; lia.
  - destruct (previousImagePath st) as [prev|]; [|done].
    destruct (successStatusForPreviousImage st); [done|].
    destruct (_ && _); [|done].
    destruct (ExifWriter.incrementCounter _ _ _) as [ok w]. simpl.
    rewrite submissions_app, visits_app, updates_app, !length_app.
    rewrite <- Hp, <- Hv, <- Hu.
    destruct ok; cbv [Trace.submissions Trace.visits Trace.updates];
      simpl; repeat split; lia.
Qed.

Lemma runBatch_tallied (h : H) (w : ExifWriter.t) (imagePaths : list string) :
  Tallied (runBatch options h w imagePaths).
Proof.
  apply runBatch_keeps.
  - repeat split; simpl; lia.
  - apply prepare_tallied.
  - intros total p st _. apply skipOrSubmit_tallied.
  - apply finish_tallied.
Qed.

(** The updates that are due to a list of submissions: at most one
    each, exactly one each when no path is empty. *)
Lemma due_length total (subs : list (nat * string)) :
  length (subs ≫= Trace.due total) ≤ length subs ∧
  (Forall (λ s, s.2 ≠ "") subs → length (subs ≫= Trace.due total) = length subs).
Proof.
  induction subs as [|[i p] subs [IHle IHeq]]; [done|].
  rewrite bind_cons, length_app. unfold Trace.due at 1 3. simpl.
  destruct (Js.truthy p) eqn:Htr; simpl.
  - split; [lia|]. intros Hall. apply Forall_cons in Hall as [_ Hall].
    rewrite IHeq; done.
  - split; [lia|]. intros Hall. apply Forall_cons in Hall as [Hne _]. simpl in Hne.
    unfold Js.truthy in Htr. destruct (String.eqb_spec p ""); done.
Qed.

End Kept.

(** X4. After every batch, with any handler: [processed] is the
    number of handler calls and [processed + skipped] the number of
    images; each processed image is counted at most once as success,
    failed or EXIF error, and exactly once when no image path is the
    empty string; and there are no more submit errors than processed
    images. *)
Theorem every_processed_image_is_counted_once
    {H : Type} `{BaseHandler H} (options : Options)
    (h : H) (w : ExifWriter.t) (imagePaths : list string) :
  let run := Manager.runBatch options h w imagePaths in
  let s := Manager.summary run in
  Manager.processed s = length (Trace.submissions (Manager.log run)) ∧
  Manager.success s + Manager.failed s + Manager.exifErrors s =
    length (Trace.updates (Manager.log run)) ∧
  Manager.success s + Manager.failed s + Manager.exifErrors s ≤ Manager.processed s ∧
  Manager.submitErrors s ≤ Manager.processed s ∧
  (Forall (λ imagePath, imagePath ≠ "") imagePaths →
   Manager.success s + Manager.failed s + Manager.exifErrors s = Manager.processed s).
Proof.
  intros run s.
  destruct (runBatch_tallied options h w imagePaths) as (Hp & Hv & Hu & He).
  destruct (runBatch_order options h w imagePaths) as (Hvis & _ & Hupd).
  fold run in Hp, Hv, Hu, He, Hvis, Hupd. fold s in Hp, Hv, Hu, He.
  destruct (due_length (length imagePaths) (Trace.submissions (Manager.log run)))
    as [Hle Heq].
  rewrite <- Hupd in Hle, Heq.
  split; [done|]. split; [done|]. split; [lia|]. split; [done|].
  intros Hall. rewrite Hu, Hp. apply Heq.
  apply Forall_forall. intros [i p] Hin. simpl.
  apply elem_of_submissions in Hin.
  destruct (visit_position options h w imagePaths i p) as [_ Hl]; [by left|].
  rewrite Forall_forall in Hall. apply Hall. by eapply list_elem_of_lookup_2.
Qed.

Section KeptMore.
Import Manager Invariants.

Lemma elem_of_snoc_event (l : list Event) (e x : Event) :
  x ∈ l ++ [e] ↔ x ∈ l ∨ x = e.
Proof. by rewrite elem_of_app, list_elem_of_singleton. Qed.

Lemma getAppData_keeps (w : ExifWriter.t) filePath :
  ExifWriter.files (ExifWriter.exiftool (ExifWriter.getAppData w filePath).2) =
    ExifWriter.files (ExifWriter.exiftool w) ∧
  ExifWriter.healthy (ExifWriter.exiftool (ExifWriter.getAppData w filePath).2) =
    ExifWriter.healthy (ExifWriter.exiftool w) ∧
  ExifWriter.successKey (ExifWriter.getAppData w filePath).2 = ExifWriter.successKey w ∧
  ExifWriter.failedKey (ExifWriter.getAppData w filePath).2 = ExifWriter.failedKey w.
Proof.
  unfold ExifWriter.getAppData.
  destruct (readAppData_keeps_files w filePath) as (? & ? & _ & ? & ?). done.
Qed.

(** With a key of the writer and an exiftool process that never
    fails, an increment succeeds. *)
Lemma incrementCounter_healthy (w : ExifWriter.t) filePath key :
  (∀ n, ExifWriter.healthy (ExifWriter.exiftool w) n = true) →
  key = ExifWriter.successKey w ∨ key = ExifWriter.failedKey w →
  (ExifWriter.incrementCounter w filePath key).1 = true.
Proof.
  intros Hh Hkey. unfold ExifWriter.incrementCounter.
  assert (Hvalid : negb (String.eqb key (ExifWriter.successKey w)) &&
                   negb (String.eqb key (ExifWriter.failedKey w)) = false).
  { destruct Hkey as [->| ->]; rewrite String.eqb_refl; simpl; try done.
    by rewrite andb_false_r. }
  rewrite Hvalid. unfold ExifWriter._readAppDataInternal.
  rewrite Hh. simpl. by rewrite Hh.
Qed.

End KeptMore.

(** X5. In every batch under the Gemini handler, whatever the calls
    resolve to: no success is counted, every processed image is
    counted as a submit error, and every counter increment uses the
    failure key. *)
Theorem gemini_batch_records_failures_only
    (options : Options) (h : GeminiHandler.t) (w : ExifWriter.t)
    (imagePaths : list string) :
  let run := Manager.runBatch options h w imagePaths in
  Manager.success (Manager.summary run) = 0 ∧
  Manager.submitErrors (Manager.summary run) = Manager.processed (Manager.summary run) ∧
  ∀ ph filePath key ok,
    Manager.EvIncrement ph filePath key ok ∈ Manager.log run →
    key = exifFailedKey options.
Proof.
  intros run.
  assert (Hall : Invariants.AllFailed options run).
  { subst run. apply runBatch_keeps.
    - repeat split; try done. intros ph p key ok Hin. by apply elem_of_nil in Hin.
    - intros st (Hs & He & Hst & Hlog).
      unfold Invariants.AllFailed, Manager.prepare, Manager.updatePrevious,
        Manager.statusKnown. simpl.
      destruct (Manager.previousImagePath st) as [prev|]; [|done].
      destruct (Manager.successStatusForPreviousImage st) as [[]|]; [by destruct Hst| |done].
      destruct (Js.truthy prev); [|done].
      destruct (ExifWriter.incrementCounter _ _ _) as [[] w']; simpl;
        (split; [done|]); (split; [done|]); (split; [done|]);
        intros ph p key ok [Hin|Hin]%elem_of_snoc_event; eauto; by simplify_eq.
    - intros total p st _ (Hs & He & Hst & Hlog).
      unfold Invariants.AllFailed, Manager.skipOrSubmit.
      destruct (ExifWriter.getAppData _ _) as [d w'].
      destruct (_ && _); simpl.
      + split; [done|]. split; [done|]. split; [done|].
        intros ph q key ok [Hin|Hin]%elem_of_snoc_event; eauto; by simplify_eq.
      + change (processImage (Manager.handler st) p (prompt options))
          with (GeminiHandler.processImage (Manager.handler st) p (prompt options)).
        unfold GeminiHandler.processImage.
        destruct (GeminiHandler.buildService _); simpl;
          (split; [done|]); (split; [by rewrite He|]); (split; [done|]);
          intros ph q key ok; rewrite elem_of_app, elem_of_cons;
          (intros [Hin|[Hin|Hin]]; eauto; [done|]);
          (destruct (_ <? _); [|by apply elem_of_nil in Hin]);
          by apply list_elem_of_singleton in Hin.
    - intros st Hkeep. pose proof Hkeep as (Hs & He & Hst & Hlog).
      unfold Manager.finish, Manager.updatePrevious, Manager.statusKnown.
      destruct (Manager.previousImagePath st) as [prev|]; [|done].
      destruct (Manager.successStatusForPreviousImage st) as [[]|]; [by destruct Hst| |].
      + destruct (Js.truthy prev); [|done].
        destruct (ExifWriter.incrementCounter _ _ _) as [[] w']; simpl;
          (split; [done|]); (split; [done|]); (split; [done|]);
          intros ph p key ok [Hin|Hin]%elem_of_snoc_event; eauto; by simplify_eq.
      + destruct (Js.truthy prev); simpl; [|done].
        destruct (0 <? _); [|done].
        destruct (ExifWriter.incrementCounter _ _ _) as [[] w']; simpl;
          (split; [done|]); (split; [done|]); (split; [done|]);
          intros ph p key ok [Hin|Hin]%elem_of_snoc_event; eauto; by simplify_eq. }
  destruct Hall as (Hs & He & _ & Hlog). done.
Qed.

(** X6. A batch changes the stored data of submitted images only:
    the data of a file that no handler call was made for (a skipped
    image, or a file outside the batch) is after the batch what it
    was before. *)
Theorem unsubmitted_files_keep_their_data
    {H : Type} `{BaseHandler H} (options : Options)
    (h : H) (w : ExifWriter.t) (imagePaths : list string) (filePath : string) :
  let run := Manager.runBatch options h w imagePaths in
  (∀ i, Manager.EvSubmit i filePath ∉ Manager.log run) →
  ExifWriter.files (ExifWriter.exiftool (Manager.exifWriterInstance run)) !! filePath =
  ExifWriter.files (ExifWriter.exiftool w) !! filePath.
Proof.
  intros run.
  assert (Hinv : Invariants.Untouched (ExifWriter.files (ExifWriter.exiftool w)) run).
  { subst run. apply runBatch_keeps.
    - split; [done|]. intros prev Hprev. done.
    - intros st [Hfiles Hprev].
      unfold Invariants.Untouched, Manager.prepare, Manager.updatePrevious,
        Manager.statusKnown. simpl.
      destruct (Manager.previousImagePath st) as [prev|] eqn:Hp; [|done].
      destruct (Manager.successStatusForPreviousImage st) as [status|]; [|done].
      destruct (Js.truthy prev); [|done].
      destruct (Hprev prev eq_refl) as [i Hsub].
      pose proof (incrementCounter_other_files (Manager.exifWriterInstance st) prev
        (if status then exifSuccessKey options else exifFailedKey options)) as Hother.
      destruct (ExifWriter.incrementCounter _ _ _) as [ok w']. simpl in *.
      split.
      + intros q Hq.
        assert (Hq' : ∀ j, Manager.EvSubmit j q ∉ Manager.log st).
        { intros j Hin. apply (Hq j), elem_of_snoc_event. by left. }
        rewrite Hother; [by apply Hfiles|].
        intros ->. by apply (Hq' i).
      + intros prev' [= <-]. exists i. apply elem_of_snoc_event. by left.
    - intros total p st _ [Hfiles Hprev].
      unfold Invariants.Untouched, Manager.skipOrSubmit.
      destruct (getAppData_keeps (Manager.exifWriterInstance st) p) as (Hf & _).
      destruct (ExifWriter.getAppData _ _) as [d w']. simpl in Hf.
      destruct (_ && _); simpl.
      + split; [|done]. intros q Hq. rewrite Hf. apply Hfiles.
        intros j Hin. apply (Hq j), elem_of_snoc_event. by left.
      + destruct (processImage _ _ _) as [c h'].
        destruct c as [[[] status|success]|e]; simpl;
          (split; [intros q Hq; rewrite Hf; apply Hfiles;
                   intros j Hin; apply (Hq j), elem_of_app; by left
                  |intros prev [= <-]; exists (Manager.fileIndex st);
                   apply elem_of_app; right; apply list_elem_of_here]).
    - intros st Hkeep. pose proof Hkeep as [Hfiles Hprev].
      unfold Manager.finish, Manager.updatePrevious, Manager.statusKnown.
      destruct (Manager.previousImagePath st) as [prev|] eqn:Hp; [|exact Hkeep].
      destruct (Hprev prev eq_refl) as [i Hsub].
      assert (Hstep : ∀ key ph,
        let r := ExifWriter.incrementCounter (Manager.exifWriterInstance st) prev key in
        ∀ ok, (∀ q, (∀ j, Manager.EvSubmit j q ∉
                       Manager.log st ++ [Manager.EvIncrement ph prev key ok]) →
               ExifWriter.files (ExifWriter.exiftool r.2) !! q =
               ExifWriter.files (ExifWriter.exiftool w) !! q) ∧
              ∃ j, Manager.EvSubmit j prev ∈
                     Manager.log st ++ [Manager.EvIncrement ph prev key ok]).
      { intros key ph r ok. split.
        - intros q Hq.
          assert (Hq' : ∀ j, Manager.EvSubmit j q ∉ Manager.log st).
          { intros j Hin. apply (Hq j), elem_of_snoc_event. by left. }
          subst r. rewrite incrementCounter_other_files; [by apply Hfiles|].
          intros ->. by apply (Hq' i).
        - exists i. apply elem_of_snoc_event. by left. }
      destruct (Manager.successStatusForPreviousImage st) as [status|].
      + destruct (Js.truthy prev); [|exact Hkeep].
        specialize (Hstep (if status then exifSuccessKey options else exifFailedKey options)
                          Manager.FinalKnown).
        simpl in Hstep.
        destruct (ExifWriter.incrementCounter _ _ _) as [ok w']. simpl in *.
        destruct (Hstep ok) as [Hf Hs]. split; [done|]. intros prev' [= <-]. done.
      + destruct (Js.truthy prev); simpl; [|exact Hkeep].
        destruct (0 <? _); [|exact Hkeep].
        specialize (Hstep (exifFailedKey options) Manager.FinalUndetermined).
        simpl in Hstep.
        destruct (ExifWriter.incrementCounter _ _ _) as [ok w']. simpl in *.
        destruct (Hstep ok) as [Hf Hs]. split; [done|]. intros prev' [= <-]. done. }
  intros Hno. destruct Hinv as [Hfiles _]. by apply Hfiles.
Qed.

(** X6 on the batch that skips img2: its stored data is unchanged. *)
Lemma unsubmitted_files_keep_their_data_witness :
  let run := Manager.runBatch defaultConfig
               (Scenarios.chatgpt Scenarios.deferredScript)
               (Scenarios.writer Scenarios.img2Done)
               [Scenarios.img1; Scenarios.img2; Scenarios.img3] in
  (∀ i, Manager.EvSubmit i Scenarios.img2 ∉ Manager.log run) ∧
  ExifWriter.files (ExifWriter.exiftool (Manager.exifWriterInstance run)) !! Scenarios.img2 =
  Scenarios.img2Done !! Scenarios.img2.
Proof.
  intros run.
  assert (Hno : ∀ i, Manager.EvSubmit i Scenarios.img2 ∉ Manager.log run).
  { intros i Hin. subst run. rewrite skipped_second_image_log in Hin.
    repeat (apply elem_of_cons in Hin as [Hin|Hin]; [discriminate Hin|]).
    by apply elem_of_nil in Hin. }
  split; [exact Hno|].
  exact (unsubmitted_files_keep_their_data defaultConfig
    (Scenarios.chatgpt Scenarios.deferredScript)
    (Scenarios.writer Scenarios.img2Done)
    [Scenarios.img1; Scenarios.img2; Scenarios.img3] Scenarios.img2 Hno).
Defined.

Section Resume.
Import Manager Invariants.
Context {H : Type} `{BaseHandler H}.
Variable options : Options.

Lemma loopBody_all_skipped total p (h0 : H) files0 (st : Loop H) n :
  skipIfCreated options ≠ Some false →
  (∃ data, files0 !! p = Some data ∧ data !! exifSuccessKey options = Some (S n)) →
  AllSkipped h0 files0 st →
  AllSkipped h0 files0 (loopBody options total p st) ∧
  skipped (summary (loopBody options total p st)) = S (skipped (summary st)).
Proof.
  intros Hflag (data & Hdata & Hcount)
    (Hprev & Hst & Hh & Hf & Hhealthy & Hp & Hs & Hfa & Hse & Hee & Hsub & Hupd).
  assert (Hen : skipEnabled options = true).
  { unfold skipEnabled. destruct (skipIfCreated options) as [[]|]; done. }
  unfold loopBody, prepare, updatePrevious, statusKnown. rewrite Hprev. simpl.
  unfold skipOrSubmit, ExifWriter.getAppData, ExifWriter._readAppDataInternal. simpl.
  rewrite Hhealthy, Hf, Hdata. unfold existingSuccessCount. simpl.
  rewrite Hcount, Hen. simpl.
  split; [|done].
  repeat split; try done.
  - cbn [log]. by rewrite submissions_app, Hsub.
  - cbn [log]. by rewrite updates_app, Hupd.
Qed.

Lemma forOf_all_skipped total (h0 : H) files0 imagePaths : ∀ (st : Loop H),
  skipIfCreated options ≠ Some false →
  Forall (λ p, ∃ data n, files0 !! p = Some data ∧
                         data !! exifSuccessKey options = Some (S n)) imagePaths →
  AllSkipped h0 files0 st →
  AllSkipped h0 files0 (forOf options total imagePaths st) ∧
  skipped (summary (forOf options total imagePaths st)) =
    skipped (summary st) + length imagePaths.
Proof.
  induction imagePaths as [|p rest IH]; intros st Hflag Hall Hst; simpl.
  - split; [done|lia].
  - apply Forall_cons in Hall as [(data & n & Hd & Hc) Hall].
    destruct (loopBody_all_skipped total p h0 files0 st n Hflag) as [Hst' Hsk]; eauto.
    destruct (IH _ Hflag Hall Hst') as [Hfin Hcount].
    split; [done|]. rewrite Hcount, Hsk. lia.
Qed.

End Resume.

(** X7. A batch over images that all have a stored success count
    above zero, with skipping not switched off and an exiftool
    process that does not fail, skips every image: the handler is not
    called (it is returned as it was given), no stored data changes,
    and the summary is all zero except [skipped], which is the number
    of images. *)
Theorem rerun_over_finished_images_changes_nothing
    {H : Type} `{BaseHandler H} (options : Options)
    (h : H) (w : ExifWriter.t) (imagePaths : list string) :
  let run := Manager.runBatch options h w imagePaths in
  skipIfCreated options ≠ Some false →
  (∀ n, ExifWriter.healthy (ExifWriter.exiftool w) n = true) →
  Forall (λ p, ∃ data n, ExifWriter.files (ExifWriter.exiftool w) !! p = Some data ∧
                         data !! exifSuccessKey options = Some (S n)) imagePaths →
  Manager.summary run =
    {| Manager.processed := 0; Manager.skipped := length imagePaths;
       Manager.success := 0; Manager.failed := 0;
       Manager.submitErrors := 0; Manager.exifErrors := 0 |} ∧
  Manager.handler run = h ∧
  ExifWriter.files (ExifWriter.exiftool (Manager.exifWriterInstance run)) =
    ExifWriter.files (ExifWriter.exiftool w) ∧
  Trace.submissions (Manager.log run) = [] ∧
  Trace.updates (Manager.log run) = [].
Proof.
  intros run Hflag Hhealthy Hall.
  destruct (forOf_all_skipped options (length imagePaths) h
              (ExifWriter.files (ExifWriter.exiftool w)) imagePaths
              (Manager.start h w) Hflag Hall) as [Hinv Hsk].
  { repeat split; done. }
  subst run. unfold Manager.runBatch.
  revert Hinv Hsk.
  generalize (Manager.forOf options (length imagePaths) imagePaths (Manager.start h w)).
  intros st (Hprev & Hst & Hh & Hf & _ & Hp & Hs & Hfa & Hse & Hee & Hsub & Hupd) Hsk.
  unfold Manager.finish, Manager.statusKnown. rewrite Hprev.
  simpl in Hsk. repeat split; try done.
  destruct (Manager.summary st). simpl in *. by subst.
Qed.

(** X7 on the three images when all of them have succeeded before. *)
Lemma rerun_over_finished_images_changes_nothing_witness :
  let w := Scenarios.writer MoreScenarios.allDone in
  let images := [Scenarios.img1; Scenarios.img2; Scenarios.img3] in
  skipIfCreated defaultConfig ≠ Some false ∧
  (∀ n, ExifWriter.healthy (ExifWriter.exiftool w) n = true) ∧
  Forall (λ p, ∃ data n, ExifWriter.files (ExifWriter.exiftool w) !! p = Some data ∧
                         data !! exifSuccessKey defaultConfig = Some (S n)) images ∧
  Manager.processImageBatch defaultConfig
    (Scenarios.chatgpt Scenarios.deferredScript) w images =
    {| Manager.processed := 0; Manager.skipped := 3;
       Manager.success := 0; Manager.failed := 0;
       Manager.submitErrors := 0; Manager.exifErrors := 0 |}.
Proof.
  intros w images.
  assert (Hflag : skipIfCreated defaultConfig ≠ Some false) by discriminate.
  assert (Hh : ∀ n, ExifWriter.healthy (ExifWriter.exiftool w) n = true)
    by (intros n; reflexivity).
  assert (Hall : Forall (λ p, ∃ data n,
            ExifWriter.files (ExifWriter.exiftool w) !! p = Some data ∧
            data !! exifSuccessKey defaultConfig = Some (S n)) images).
  { repeat apply Forall_cons_2; [| | |apply Forall_nil_2].
    - exists {[ "successCount" := 1; "failedCount" := 0 ]}, 0.
      split; vm_compute; reflexivity.
    - exists {[ "successCount" := 2; "failedCount" := 1 ]}, 1.
      split; vm_compute; reflexivity.
    - exists {[ "successCount" := 1; "failedCount" := 3 ]}, 0.
      split; vm_compute; reflexivity. }
  split; [exact Hflag|]. split; [exact Hh|]. split; [exact Hall|].
  exact (proj1 (rerun_over_finished_images_changes_nothing defaultConfig
    (Scenarios.chatgpt Scenarios.deferredScript) w images Hflag Hh Hall)).
Defined.

(** X8. When the writer has the keys of the batch's options and the
    exiftool process does not fail, no EXIF error is counted: every
    counter increment of the batch succeeds, and [success + failed] is
    the number of increments. *)
Theorem working_exiftool_gives_no_exif_errors
    {H : Type} `{BaseHandler H} (options : Options)
    (h : H) (tool : ExifWriter.ExifTool) (imagePaths : list string) :
  let run := Manager.runBatch options h (ExifWriter.new options tool) imagePaths in
  (∀ n, ExifWriter.healthy tool n = true) →
  Manager.exifErrors (Manager.summary run) = 0 ∧
  Manager.success (Manager.summary run) + Manager.failed (Manager.summary run) =
    length (Trace.updates (Manager.log run)).
Proof.
  intros run Hhealthy.
  assert (Hinv : Invariants.Healthy options run).
  { subst run. apply runBatch_keeps.
    - done.
    - intros st (Hh & Hsk & Hfk & He).
      unfold Invariants.Healthy, Manager.prepare, Manager.updatePrevious. simpl.
      destruct (Manager.statusKnown _) as [[prev status]|]; [|done].
      set (key := if status then exifSuccessKey options else exifFailedKey options).
      assert (Hok := incrementCounter_healthy (Manager.exifWriterInstance st) prev key Hh).
      destruct (incrementCounter_keeps_keys (Manager.exifWriterInstance st) prev key)
        as (Hsk' & Hfk' & Hh').
      destruct (ExifWriter.incrementCounter _ _ _) as [ok w']. simpl in *.
      rewrite Hok; [|subst key; destruct status; rewrite ?Hsk, ?Hfk; auto].
      split; [intros n; by rewrite Hh'|]. rewrite Hsk', Hfk'. by destruct status.
    - intros total p st _ (Hh & Hsk & Hfk & He).
      unfold Invariants.Healthy, Manager.skipOrSubmit.
      destruct (getAppData_keeps (Manager.exifWriterInstance st) p)
        as (_ & Hh' & Hsk' & Hfk').
      destruct (ExifWriter.getAppData _ _) as [d w']. simpl in *.
      destruct (_ && _); simpl.
      + split; [intros n; by rewrite Hh'|]. by rewrite Hsk', Hfk'.
      + destruct (processImage _ _ _) as [c h'].
        destruct c as [[[] status|success]|e]; simpl;
          (split; [intros n; by rewrite Hh'|]); by rewrite Hsk', Hfk'.
    - intros st Hkeep. pose proof Hkeep as (Hh & Hsk & Hfk & He).
      unfold Manager.finish, Manager.updatePrevious.
      destruct (Manager.statusKnown st) as [[prev status]|].
      + set (key := if status then exifSuccessKey options else exifFailedKey options).
        assert (Hok := incrementCounter_healthy (Manager.exifWriterInstance st) prev key Hh).
        destruct (incrementCounter_keeps_keys (Manager.exifWriterInstance st) prev key)
          as (Hsk' & Hfk' & Hh').
        destruct (ExifWriter.incrementCounter _ _ _) as [ok w']. simpl in *.
        unfold Invariants.Healthy. simpl.
        rewrite Hok; [|subst key; destruct status; rewrite ?Hsk, ?Hfk; auto].
        split; [intros n; by rewrite Hh'|]. rewrite Hsk', Hfk'. by destruct status.
      + destruct (Manager.previousImagePath st) as [prev|]; [|exact Hkeep].
        destruct (Manager.successStatusForPreviousImage st); [exact Hkeep|].
        destruct (_ && _); [|exact Hkeep].
        assert (Hok := incrementCounter_healthy (Manager.exifWriterInstance st) prev
                         (exifFailedKey options) Hh).
        destruct (incrementCounter_keeps_keys (Manager.exifWriterInstance st) prev
                    (exifFailedKey options)) as (Hsk' & Hfk' & Hh').
        destruct (ExifWriter.incrementCounter _ _ _) as [ok w']. simpl in *.
        unfold Invariants.Healthy. simpl.
        rewrite Hok; [|rewrite ?Hsk, ?Hfk; auto].
        split; [intros n; by rewrite Hh'|]. by rewrite Hsk', Hfk'. }
  destruct Hinv as (_ & _ & _ & He).
  destruct (runBatch_tallied options h (ExifWriter.new options tool) imagePaths)
    as (_ & _ & Hu & _).
  fold run in Hu. split; [done|]. lia.
Qed.

(** X8 on the three images with the deferred ChatGPT page. *)
Lemma working_exiftool_gives_no_exif_errors_witness :
  (∀ n, ExifWriter.healthy (Scenarios.tool ∅) n = true) ∧
  Manager.exifErrors (Manager.processImageBatch defaultConfig
    (Scenarios.chatgpt Scenarios.deferredScript)
    (ExifWriter.new defaultConfig (Scenarios.tool ∅))
    [Scenarios.img1; Scenarios.img2; Scenarios.img3]) = 0.
Proof.
  assert (Hh : ∀ n, ExifWriter.healthy (Scenarios.tool ∅) n = true)
    by (intros n; reflexivity).
  split; [exact Hh|].
  exact (proj1 (working_exiftool_gives_no_exif_errors defaultConfig
    (Scenarios.chatgpt Scenarios.deferredScript) (Scenarios.tool ∅)
    [Scenarios.img1; Scenarios.img2; Scenarios.img3] Hh)).
Defined.

Section Handlers.
Import Manager.
Context {H : Type} `{BaseHandler H}.
Variable options : Options.

(** The rule of [runBatch_keeps] for a property of the handler and
    of the counts [processed] and [submitErrors]: only the handler
    call has to be looked at. *)
Lemma runBatch_keeps_handler (P : H → nat → nat → Prop) (h : H) (w : ExifWriter.t)
    (imagePaths : list string) :
  P h 0 0 →
  (∀ h0 n e c h1 p, P h0 n e →
     processImage h0 p (prompt options) = (c, h1) →
     P h1 (S n) (match c with
                 | Returns (SubmitReport true _) => e
                 | _ => S e
                 end)) →
  let run := runBatch options h w imagePaths in
  P (handler run) (processed (summary run)) (submitErrors (summary run)).
Proof.
  intros Hstart Hcall run. subst run.
  apply (runBatch_keeps options
    (λ st, P (handler st) (processed (summary st)) (submitErrors (summary st)))).
  - exact Hstart.
  - intros st Hst. unfold prepare, updatePrevious. simpl.
    destruct (statusKnown _) as [[prev status]|]; [|exact Hst].
    destruct (ExifWriter.incrementCounter _ _ _) as [[] w']; destruct status; exact Hst.
  - intros total p st _ Hst. unfold skipOrSubmit.
    destruct (ExifWriter.getAppData _ _) as [d w'].
    destruct (_ && _); [exact Hst|].
    destruct (processImage _ _ _) as [c h1] eqn:Hres.
    specialize (Hcall _ _ _ _ _ _ Hst Hres).
    destruct c as [[[] status|success]|e]; exact Hcall.
  - intros st Hst. unfold finish, updatePrevious.
    destruct (statusKnown st) as [[prev status]|].
    + destruct (ExifWriter.incrementCounter _ _ _) as [[] w']; destruct status; exact Hst.
    + destruct (previousImagePath st) as [prev|]; [|exact Hst].
      destruct (successStatusForPreviousImage st); [exact Hst|].
      destruct (_ && _); [|exact Hst].
      destruct (ExifWriter.incrementCounter _ _ _) as [[] w']; exact Hst.
Qed.

End Handlers.

(** X9. Over a whole batch the ChatGPT handler makes at most two
    passes through its retry loop per processed image, at most one
    pass per processed image plus one per page reload, and two passes
    at least for every reload. When its service is there or can be
    built, it makes exactly one pass per processed image plus one per
    reload. When the constructor of the service throws, every call
    rejects: no pass is made, the handler stays as it was given and
    every processed image is counted as a submit error. *)
Theorem chatgpt_batch_attempts_are_bounded
    (options : Options) (h : ChatGptHandler.t) (w : ExifWriter.t)
    (imagePaths : list string) :
  let run := Manager.runBatch options h w imagePaths in
  let processed := Manager.processed (Manager.summary run) in
  let passes := ChatGptHandler.attemptsMade h (Manager.handler run) in
  let reloads := ChatGptHandler.reloadsMade h (Manager.handler run) in
  2 * reloads ≤ passes ∧ passes ≤ processed + reloads ∧ passes ≤ 2 * processed ∧
  (ChatGptHandler.buildService h = None →
     passes = processed + reloads ∧ processed ≤ passes) ∧
  (∀ error, ChatGptHandler.buildService h = Some error →
     Manager.handler run = h ∧ passes = 0 ∧
     Manager.submitErrors (Manager.summary run) = processed).
Proof.
  intros run processed passes reloads.
  assert (Hcases := λ h0 p, processImage_cases h0 p (prompt options)).
  assert (Hinv : Invariants.Paced h run).
  { subst run.
    apply (runBatch_keeps_handler options (λ h1 n _,
      let p0 := ChatGptHandler.page h in
      let p := ChatGptHandler.page h1 in
      ChatGptService.reloads p0 ≤ ChatGptService.reloads p ∧
      ChatGptService.attempts p0 + 2 * ChatGptService.reloads p ≤
        ChatGptService.attempts p + 2 * ChatGptService.reloads p0 ∧
      ChatGptService.attempts p + ChatGptService.reloads p0 ≤
        ChatGptService.attempts p0 + n + ChatGptService.reloads p)).
    - simpl. lia.
    - intros h0 n e c h1 p Hh0 Hres.
      change (processImage h0 p (prompt options))
        with (ChatGptHandler.processImage h0 p (prompt options)) in Hres.
      rewrite (Hcases h0 p) in Hres.
      destruct (ChatGptHandler.buildService h0).
      { simplify_eq. simpl in *. lia. }
      destruct (ChatGptHandler.tryBlock h0
                  (ChatGptService.views (ChatGptHandler.page h0)
                     (ChatGptService.attempts (ChatGptHandler.page h0)))).
      + simplify_eq. simpl in *. lia.
      + simplify_eq. simpl in *. lia.
      + destruct (Js.includes _ _); [|simplify_eq; simpl in *; lia].
        destruct (ChatGptService.reloadFails _); [simplify_eq; simpl in *; lia|].
        destruct (ChatGptHandler.tryBlock h0 _); simplify_eq; simpl in *; lia. }
  destruct Hinv as (Hre & Htwo & Hle).
  fold processed in Hle.
  assert (Hbuilt : ChatGptHandler.buildService h = None →
                   Invariants.PacedBuilt h run).
  { intros Hbuild. subst run.
    apply (runBatch_keeps_handler options (λ h1 n _,
      ChatGptHandler.buildService h1 = None ∧
      ChatGptService.attempts (ChatGptHandler.page h1) +
        ChatGptService.reloads (ChatGptHandler.page h) =
      ChatGptService.attempts (ChatGptHandler.page h) + n +
        ChatGptService.reloads (ChatGptHandler.page h1))).
    - split; [done|]. lia.
    - intros h0 n e c h1 p [Hb Heq] Hres.
      change (processImage h0 p (prompt options))
        with (ChatGptHandler.processImage h0 p (prompt options)) in Hres.
      rewrite (Hcases h0 p), Hb in Hres.
      destruct (ChatGptHandler.tryBlock h0
                  (ChatGptService.views (ChatGptHandler.page h0)
                     (ChatGptService.attempts (ChatGptHandler.page h0)))).
      + simplify_eq. simpl in *. split; [done|lia].
      + simplify_eq. simpl in *. split; [done|lia].
      + destruct (Js.includes _ _); [|simplify_eq; simpl in *; split; [done|lia]].
        destruct (ChatGptService.reloadFails _);
          [simplify_eq; simpl in *; split; [done|lia]|].
        destruct (ChatGptHandler.tryBlock h0 _); simplify_eq; simpl in *;
          (split; [done|lia]). }
  assert (Hrejected : ∀ error, ChatGptHandler.buildService h = Some error →
                      Invariants.Rejected h run).
  { intros error Hbuild. subst run.
    apply (runBatch_keeps_handler options (λ h1 n e, h1 = h ∧ e = n)); [done|].
    intros h0 n e c h1 p [-> ->] Hres.
    change (processImage h p (prompt options))
      with (ChatGptHandler.processImage h p (prompt options)) in Hres.
    rewrite (Hcases h p), Hbuild in Hres. by simplify_eq. }
  subst passes reloads.
  unfold ChatGptHandler.attemptsMade, ChatGptHandler.reloadsMade.
  split; [lia|]. split; [lia|]. split; [lia|]. split.
  - intros Hbuild. destruct (Hbuilt Hbuild) as [_ Heq]. fold processed in Heq. lia.
  - intros error Hbuild. destruct (Hrejected error Hbuild) as [Hh He].
    rewrite Hh. split; [done|]. split; [lia|done].
Qed.

(** X10. The Gemini handler never retries: over a whole batch its
    page goes through at most one attempt per processed image, and it
    keeps its options, its readiness selectors and the page's views.
    When its service is there or can be built, the page goes through
    exactly one attempt per processed image. When the constructor of
    the service throws, every call rejects: the page goes through no
    attempt and the handler stays as it was given. *)
Theorem gemini_batch_makes_one_attempt_per_image
    (options : Options) (h : GeminiHandler.t) (w : ExifWriter.t)
    (imagePaths : list string) :
  let run := Manager.runBatch options h w imagePaths in
  let h' := Manager.handler run in
  let processed := Manager.processed (Manager.summary run) in
  GeminiService.attempts (GeminiHandler.page h) ≤
    GeminiService.attempts (GeminiHandler.page h') ∧
  GeminiService.attempts (GeminiHandler.page h') ≤
    GeminiService.attempts (GeminiHandler.page h) + processed ∧
  GeminiService.views (GeminiHandler.page h') = GeminiService.views (GeminiHandler.page h) ∧
  GeminiHandler.options h' = GeminiHandler.options h ∧
  GeminiHandler.readySelectors h' = GeminiHandler.readySelectors h ∧
  (GeminiHandler.buildService h = None →
     GeminiService.attempts (GeminiHandler.page h') =
       GeminiService.attempts (GeminiHandler.page h) + processed) ∧
  (∀ error, GeminiHandler.buildService h = Some error → h' = h).
Proof.
  intros run h' processed.
  assert (Hinv : Invariants.Single h run).
  { subst run.
    apply (runBatch_keeps_handler options (λ h1 n _,
      GeminiService.attempts (GeminiHandler.page h) ≤
        GeminiService.attempts (GeminiHandler.page h1) ∧
      GeminiService.attempts (GeminiHandler.page h1) ≤
        GeminiService.attempts (GeminiHandler.page h) + n ∧
      GeminiService.views (GeminiHandler.page h1) =
        GeminiService.views (GeminiHandler.page h) ∧
      GeminiHandler.options h1 = GeminiHandler.options h ∧
      GeminiHandler.readySelectors h1 = GeminiHandler.readySelectors h)).
    - simpl. repeat split; lia.
    - intros h0 n e c h1 p (Hlo & Hhi & Hv & Ho & Hr) Hres.
      change (processImage h0 p (prompt options))
        with (GeminiHandler.processImage h0 p (prompt options)) in Hres.
      unfold GeminiHandler.processImage in Hres.
      destruct (GeminiHandler.buildService h0); simplify_eq; simpl;
        repeat split; try done; lia. }
  assert (Hbuilt : GeminiHandler.buildService h = None →
                   Invariants.SingleBuilt h run).
  { intros Hbuild. subst run.
    apply (runBatch_keeps_handler options (λ h1 n _,
      GeminiHandler.buildService h1 = None ∧
      GeminiService.attempts (GeminiHandler.page h1) =
        GeminiService.attempts (GeminiHandler.page h) + n)).
    - split; [done|lia].
    - intros h0 n e c h1 p [Hb Heq] Hres.
      change (processImage h0 p (prompt options))
        with (GeminiHandler.processImage h0 p (prompt options)) in Hres.
      unfold GeminiHandler.processImage in Hres. rewrite Hb in Hres.
      simplify_eq. simpl. split; [done|lia]. }
  assert (Hrejected : ∀ error, GeminiHandler.buildService h = Some error →
                      Invariants.Rejected h run).
  { intros error Hbuild. subst run.
    apply (runBatch_keeps_handler options (λ h1 n e, h1 = h ∧ e = n)); [done|].
    intros h0 n e c h1 p [-> ->] Hres.
    change (processImage h p (prompt options))
      with (GeminiHandler.processImage h p (prompt options)) in Hres.
    unfold GeminiHandler.processImage in Hres. rewrite Hbuild in Hres.
    by simplify_eq. }
  destruct Hinv as (Hlo & Hhi & Hv & Ho & Hr).
  subst h' processed.
  split; [done|]. split; [done|]. split; [done|]. split; [done|]. split; [done|].
  split.
  - intros Hbuild. by destruct (Hbuilt Hbuild) as [_ Heq].
  - intros error Hbuild. by destruct (Hrejected error Hbuild) as [Hh _].
Qed.

Section NoSkip.
Import Manager.
Context {H : Type} `{BaseHandler H}.
Variable options : Options.

#[local] Arguments Trace.submissions : simpl never.
#[local] Arguments Trace.visits : simpl never.

(** With skipping switched off the loop has skipped nothing. *)
Lemma runBatch_without_skip (h : H) (w : ExifWriter.t) (imagePaths : list string) :
  skipIfCreated options = Some false →
  skipped (summary (runBatch options h w imagePaths)) = 0 ∧
  Trace.submissions (log (runBatch options h w imagePaths)) =
    Trace.visits (log (runBatch options h w imagePaths)).
Proof.
  intros Hflag.
  apply (runBatch_keeps options (λ st,
    skipped (summary st) = 0 ∧ Trace.submissions (log st) = Trace.visits (log st))).
  - done.
  - intros st [Hs Hl]. unfold prepare, updatePrevious. simpl.
    destruct (statusKnown _) as [[prev status]|]; [|done].
    destruct (ExifWriter.incrementCounter _ _ _) as [ok w']. simpl.
    rewrite submissions_app, visits_app, Hl.
    by destruct ok, status.
  - intros total p st _ [Hs Hl]. unfold skipOrSubmit, skipEnabled.
    destruct (ExifWriter.getAppData _ _) as [d w'].
    rewrite Hflag, andb_false_r.
    destruct (processImage _ _ _) as [c h'].
    destruct (waits_are_silent total (fileIndex st)) as (Hw1 & Hw2 & _).
    assert (Hlog : Trace.submissions (log st ++ [EvSubmit (fileIndex st) p] ++
                     (if fileIndex st <? total then [EvWait (fileIndex st)] else [])) =
                   Trace.visits (log st ++ [EvSubmit (fileIndex st) p] ++
                     (if fileIndex st <? total then [EvWait (fileIndex st)] else []))).
    { by rewrite !submissions_app, !visits_app, Hw1, Hw2, Hl. }
    destruct c as [[[] status|success]|e]; done.
  - intros st Hkeep. pose proof Hkeep as [Hs Hl].
    unfold finish, updatePrevious.
    destruct (statusKnown st) as [[prev status]|].
    + destruct (ExifWriter.incrementCounter _ _ _) as [ok w']. simpl.
      rewrite submissions_app, visits_app, Hl.
      by destruct ok, status.
    + destruct (previousImagePath st) as [prev|]; [|exact Hkeep].
      destruct (successStatusForPreviousImage st); [exact Hkeep|].
      destruct (_ && _); [|exact Hkeep].
      destruct (ExifWriter.incrementCounter _ _ _) as [ok w']. simpl.
      rewrite submissions_app, visits_app, Hl.
      by destruct ok.
Qed.

End NoSkip.

(** X11. With [skipIfCreated] set to false nothing is skipped,
    whatever success counts the files hold: the handler is called for
    every image of the list, in the order of the list, and
    [processed] is the number of images. *)
Theorem skip_switched_off_processes_every_image
    {H : Type} `{BaseHandler H} (options : Options)
    (h : H) (w : ExifWriter.t) (imagePaths : list string) :
  let run := Manager.runBatch options h w imagePaths in
  skipIfCreated options = Some false →
  Manager.skipped (Manager.summary run) = 0 ∧
  Manager.processed (Manager.summary run) = length imagePaths ∧
  Trace.submissions (Manager.log run) = Trace.numbered imagePaths.
Proof.
  intros run Hflag.
  destruct (runBatch_without_skip options h w imagePaths Hflag) as [Hs Hl].
  destruct (runBatch_tallied options h w imagePaths) as (Hp & _ & _ & _).
  destruct (runBatch_order options h w imagePaths) as (Hvis & _ & _).
  fold run in Hs, Hl, Hp, Hvis.
  split; [done|]. rewrite Hp, Hl, Hvis. split; [|done].
  unfold Trace.numbered. by rewrite length_imap.
Qed.

(** X11 on the three finished images: all three are processed again. *)
Lemma skip_switched_off_processes_every_image_witness :
  skipIfCreated MoreScenarios.rerunAll = Some false ∧
  Manager.processed (Manager.processImageBatch MoreScenarios.rerunAll
    (Scenarios.chatgpt Scenarios.deferredScript)
    (Scenarios.writer MoreScenarios.allDone)
    [Scenarios.img1; Scenarios.img2; Scenarios.img3]) = 3.
Proof.
  split; [reflexivity|].
  exact (proj1 (proj2 (skip_switched_off_processes_every_image MoreScenarios.rerunAll
    (Scenarios.chatgpt Scenarios.deferredScript)
    (Scenarios.writer MoreScenarios.allDone)
    [Scenarios.img1; Scenarios.img2; Scenarios.img3] eq_refl))).
Defined.

(** X12. The ChatGPT handler's [processImage] rejects exactly when
    its service has to be built and the constructor throws, and then
    with the constructor's error; otherwise it resolves to a
    [{submitted, successStatusOfPrevious}] object. An unsubmitted
    result carries the status false. A submitted result comes from
    the last pass made, on whose view the upload, the prompt, the wait
    for the submit button and the click all went through, and its
    status is true exactly when the latest response block of that
    view holds at least one image. *)
Theorem chatgpt_result_reports_last_pass
    (h : ChatGptHandler.t) (imagePath prompt : string) :
  let call := ChatGptHandler.processImage h imagePath prompt in
  let last := ChatGptService.views (ChatGptHandler.page h)
                (pred (ChatGptService.attempts (ChatGptHandler.page call.2))) in
  (∀ error, call.1 = Throws error ↔ ChatGptHandler.buildService h = Some error) ∧
  (ChatGptHandler.buildService h = None →
     ∃ submitted status, call.1 = Returns (SubmitReport submitted status)) ∧
  (∀ status, call.1 = Returns (SubmitReport false status) → status = false) ∧
  (∀ status, call.1 = Returns (SubmitReport true status) →
     ChatGptService.uploadFails last = None ∧
     ChatGptService.promptFails last = None ∧
     ChatGptService.gateFails last = None ∧
     ChatGptService.clickFails last = None ∧
     (status = true ↔ ∃ n, ChatGptService.latestBlock last = ChatGptService.Images (S n))).
Proof.
  intros call last. subst last call.
  assert (Hsub : ∀ v status,
    ChatGptHandler.tryBlock h v = ChatGptHandler.Submitted status →
    ChatGptService.uploadFails v = None ∧
    ChatGptService.promptFails v = None ∧
    ChatGptService.gateFails v = None ∧
    ChatGptService.clickFails v = None ∧
    (status = true ↔ ∃ n, ChatGptService.latestBlock v = ChatGptService.Images (S n))).
  { intros v status. unfold ChatGptHandler.tryBlock, ChatGptService.uploadImage,
      ChatGptService.enterPrompt, ChatGptService.checkPreviousSuccessAndSubmit.
    destruct (_ && _); [done|].
    destruct (ChatGptService.uploadFails v); [done|].
    destruct (ChatGptService.promptFails v); [done|].
    destruct (ChatGptService.gateFails v) as [e|].
    { by destruct (_ && _). }
    destruct (ChatGptService.clickFails v) as [e|].
    { by destruct (_ && _). }
    intros [= <-]. repeat split; try done.
    - destruct (ChatGptService.latestBlock v) as [| |[|n]|e]; simpl; try done. eauto.
    - by intros [n ->]. }
  rewrite (processImage_cases h imagePath prompt).
  destruct (ChatGptHandler.buildService h) as [error|] eqn:Hbuild.
  { simpl. split; [intros e; split; by intros [= ->]|]. done. }
  assert (Hnever : ∀ (c : Completion) error,
    (∃ submitted status, c = Returns (SubmitReport submitted status)) →
    c = Throws error ↔ None = Some error).
  { intros c error (? & ? & ->). done. }
  destruct (ChatGptHandler.tryBlock h _) as [|status1|e] eqn:Hfirst; simpl.
  - split; [intros; apply Hnever; by eexists _, _|].
    split; [by eexists _, _|]. split; [by intros ? ?; simplify_eq|]. done.
  - split; [intros; apply Hnever; by eexists _, _|].
    split; [by eexists _, _|]. split; [done|]. intros status ?. simplify_eq. eauto.
  - destruct (Js.includes _ _); simpl.
    + destruct (ChatGptService.reloadFails _); simpl.
      * split; [intros; apply Hnever; by eexists _, _|].
        split; [by eexists _, _|]. split; [by intros ? ?; simplify_eq|]. done.
      * destruct (ChatGptHandler.tryBlock h (ChatGptService.views (ChatGptHandler.page h)
                    (S (ChatGptService.attempts (ChatGptHandler.page h)))))
          as [|status2|e2] eqn:Hsecond; simpl.
        -- split; [intros; apply Hnever; by eexists _, _|].
           split; [by eexists _, _|]. split; [by intros ? ?; simplify_eq|]. done.
        -- split; [intros; apply Hnever; by eexists _, _|].
           split; [by eexists _, _|]. split; [done|].
           intros status ?. simplify_eq. eauto.
        -- split; [intros; apply Hnever; by eexists _, _|].
           split; [by eexists _, _|]. split; [by intros ? ?; simplify_eq|]. done.
    + split; [intros; apply Hnever; by eexists _, _|].
      split; [by eexists _, _|]. split; [by intros ? ?; simplify_eq|]. done.
Qed.

(** * File listings *)

(** X12 for options without the selector [fileInputHidden]: the
    constructor of the service throws, and the call rejects with its
    error. *)
Lemma chatgpt_result_reports_last_pass_witness :
  let h := ChatGptHandler.new MoreScenarios.noFileInput
             {| ChatGptService.views := Scenarios.deferredScript;
                ChatGptService.attempts := 0; ChatGptService.reloads := 0 |} in
  let error := Js.newError
    "Required ChatGPT selector 'selectors.chatgpt.fileInputHidden' is missing." in
  ChatGptHandler.buildService h = Some error ∧
  (ChatGptHandler.processImage h Scenarios.img1 (prompt MoreScenarios.noFileInput)).1 =
    Throws error.
Proof.
  intros h error.
  assert (Hbuild : ChatGptHandler.buildService h = Some error)
    by (vm_compute; reflexivity).
  split; [exact Hbuild|].
  exact (proj2 (proj1 (chatgpt_result_reports_last_pass h Scenarios.img1
                         (prompt MoreScenarios.noFileInput)) error) Hbuild).
Defined.

Section Listings.

Lemma prefix_app (a b : string) : String.prefix a (a +:+ b) = true.
Proof.
  induction a as [|c a IH]; simpl; [by destruct b|].
  by destruct (Ascii.ascii_dec c c).
Qed.


Context (extname : string → string) (extensions : list string).
Context (path : FileManager.Path).





End Listings.


(** X14. [findSubdirectories] reads the resolved base path. When the
    directory can be read, it returns the paths joined from the
    resolved base path and the names of its directory entries: each
    directory as often as it is listed and none else, so never an
    entry that is not a directory, and in sorted order. When it
    cannot be read, the error thrown names the resolved base path,
    whatever the error of [fs.readdir] was. *)
Theorem findSubdirectories_lists_every_directory_once
    (fs : FileManager.Fs) (basePath : string) :
  let absoluteBasePath := FileManager.resolve (FileManager.path fs) basePath in
  let joined (entry : FileManager.Dirent) :=
    FileManager.join (FileManager.path fs) absoluteBasePath (FileManager.name entry) in
  (∀ entries, FileManager.readdir fs absoluteBasePath = Js.Ok entries →
     ∃ dirs, FileManager.findSubdirectories fs basePath = Js.Ok dirs ∧
       dirs ≡ₚ joined <$> filter (λ entry, FileManager.isDirectory entry) entries ∧
       Sorted FileManager.codeUnitOrder dirs ∧
       length dirs ≤ length entries ∧
       (∀ d, d ∈ dirs → ∃ entry, entry ∈ entries ∧
                                 FileManager.isDirectory entry = true ∧ d = joined entry)) ∧
  (∀ error, FileManager.readdir fs absoluteBasePath = Js.Thrown error →
     FileManager.findSubdirectories fs basePath =
       Js.Thrown (Js.newError
         ("Failed to list subdirectories for path: " +:+ absoluteBasePath))).
Proof.
  intros absoluteBasePath joined. split.
  - intros entries Hfs.
    assert (Hfind : FileManager.findSubdirectories fs basePath =
      Js.Ok (merge_sort FileManager.codeUnitOrder
               (joined <$> filter (λ entry, FileManager.isDirectory entry) entries))).
    { unfold FileManager.findSubdirectories. fold absoluteBasePath. by rewrite Hfs. }
    eexists. split; [exact Hfind|].
    assert (Hperm := merge_sort_Permutation FileManager.codeUnitOrder
      (joined <$> filter (λ entry, FileManager.isDirectory entry) entries)).
    split; [done|].
    split; [by eapply findSubdirectories_sorted|].
    split.
    { rewrite Hperm, length_fmap. apply length_filter. }
    intros d Hd. rewrite Hperm in Hd.
    apply list_elem_of_fmap in Hd as (entry & -> & Hentry).
    apply list_elem_of_filter in Hentry as [Hdir Hentry].
    exists entry. split; [done|]. split; [|done].
    by destruct (FileManager.isDirectory entry).
  - intros error Hfs. unfold FileManager.findSubdirectories. fold absoluteBasePath.
    by rewrite Hfs.
Qed.

(** * Starting a run *)

Section Starting.

Lemma batch_counts_every_image {H : Type} `{BaseHandler H} (options : Options)
    (h : H) (w : ExifWriter.t) (imagePaths : list string) :
  Manager.processed (Manager.processImageBatch options h w imagePaths) +
  Manager.skipped (Manager.processImageBatch options h w imagePaths) = length imagePaths.
Proof.
  unfold Manager.processImageBatch.
  destruct (runBatch_tallied options h w imagePaths) as (_ & Hv & _ & _).
  destruct (runBatch_order options h w imagePaths) as (Hvis & _ & _).
  rewrite Hv, Hvis. unfold Trace.numbered. by rewrite length_imap.
Qed.

Lemma toLowerCase_truthy (s : string) :
  Js.truthy (JsText.toLowerCase s) = Js.truthy s.
Proof. by destruct s. Qed.

Lemma includes_truthy (needle hay : string) :
  Js.truthy needle = true → Js.includes needle hay = true → Js.truthy hay = true.
Proof. destruct hay; [|done]. by destruct needle. Qed.

Lemma includes_app (needle before after : string) :
  Js.includes needle (before +:+ needle +:+ after) = true.
Proof.
  induction before as [|c before IH].
  - change ("" +:+ needle +:+ after) with (needle +:+ after).
    assert (Hpre := prefix_app needle after).
    destruct (needle +:+ after); cbn -[String.prefix]; by rewrite Hpre.
  - change (String c before +:+ needle +:+ after)
      with (String c (before +:+ needle +:+ after)).
    cbn -[String.prefix]. fold Js.includes. rewrite IH. apply orb_true_r.
Qed.

Lemma orElse_falsy (a : option string) (b : string) :
  JsText.orElse a "" = "" → JsText.orElse a b = b.
Proof.
  unfold JsText.orElse. destruct a as [s|]; [|done].
  destruct (Js.truthy s) eqn:Hs; [|done]. intros ->. done.
Qed.

Lemma orElse_truthy (s b : string) :
  Js.truthy s = true → JsText.orElse (Some s) b = s.
Proof. unfold JsText.orElse. by intros ->. Qed.

(** A launch leaves a browser when it succeeds, and makes at most one
    call to [puppeteer.launch]. *)
Lemma launchBrowser_facts (puppeteerLaunch : option Js.error) (st : BrowserFactory.State) :
  let r := BrowserFactory.launchBrowser puppeteerLaunch st in
  BrowserFactory.launches st ≤ BrowserFactory.launches r.2 ∧
  BrowserFactory.launches r.2 ≤ S (BrowserFactory.launches st) ∧
  (∀ b, r.1 = Js.Ok b → BrowserFactory.browser r.2 = Some b) ∧
  (∀ e, r.1 = Js.Thrown e → BrowserFactory.browser r.2 = None) ∧
  (puppeteerLaunch = None → ∃ b, r.1 = Js.Ok b).
Proof.
  unfold BrowserFactory.launchBrowser.
  destruct (BrowserFactory.browser st) as [b|] eqn:Hb; simpl.
  - repeat split; try lia; try done; [by intros ? [= <-]|eauto].
  - destruct puppeteerLaunch as [e|]; simpl.
    + repeat split; try lia; done.
    + repeat split; try lia; try done; [by intros ? [= <-]|eauto].
Qed.

Lemma close_facts (st : BrowserFactory.State) :
  BrowserFactory.browser (BrowserFactory.close st) = None ∧
  BrowserFactory.launches (BrowserFactory.close st) = BrowserFactory.launches st.
Proof. unfold BrowserFactory.close. by destruct (BrowserFactory.browser st) eqn:Hb. Qed.

End Starting.

(** X15. A [--platform] value that is not empty and is, in lower
    case, neither "gemini" nor "chatgpt" makes [getHandler] throw,
    whatever URLs the options hold: the URL is looked at only when no
    platform is given. *)
Theorem unknown_platform_is_not_rescued_by_url
    (options : HandlerFactory.Options) (p : string) :
  HandlerFactory.platform options = Some p →
  Js.truthy p = true →
  JsText.toLowerCase p ≠ "gemini" →
  JsText.toLowerCase p ≠ "chatgpt" →
  ∃ error, HandlerFactory.getHandler options = Js.Thrown error ∧
           Js.includes (JsText.toLowerCase p) (Js.message error) = true.
Proof.
  intros Hp Htruthy Hg Hc. unfold HandlerFactory.getHandler. rewrite Hp. simpl.
  rewrite !bool_decide_eq_false_2 by (intros [= ?]; done).
  rewrite toLowerCase_truthy, Htruthy. simpl.
  eexists. split; [done|].
  unfold HandlerFactory.failure, JsText.shown, Js.newError.
  cbn [Js.message default]. apply includes_app.
Qed.

(** X15 for [--platform Bard] with the URL of Gemini. *)
Lemma unknown_platform_is_not_rescued_by_url_witness :
  HandlerFactory.platform MoreScenarios.bardFlag = Some "Bard" ∧
  Js.truthy "Bard" = true ∧
  JsText.toLowerCase "Bard" ≠ "gemini" ∧
  JsText.toLowerCase "Bard" ≠ "chatgpt" ∧
  ∃ error, HandlerFactory.getHandler MoreScenarios.bardFlag = Js.Thrown error ∧
           Js.includes (JsText.toLowerCase "Bard") (Js.message error) = true.
Proof.
  assert (Hg : JsText.toLowerCase "Bard" ≠ "gemini") by discriminate.
  assert (Hc : JsText.toLowerCase "Bard" ≠ "chatgpt") by discriminate.
  split; [reflexivity|]. split; [reflexivity|]. split; [exact Hg|]. split; [exact Hc|].
  exact (unknown_platform_is_not_rescued_by_url MoreScenarios.bardFlag "Bard"
           eq_refl eq_refl Hg Hc).
Defined.

(** X16. [delayIfCaptcha] waits exactly when it was given ready
    selectors and the quick wait for them ended in a [TimeoutError];
    any other error and a page that is ready give no wait. When it
    waits, the time is never zero: a zero [delayMs] falls back to
    [waitTimeout], and a zero or missing [waitTimeout] to 5000. *)
Theorem delayIfCaptcha_waits_only_after_timeout
    (readySelectors : list string) (delayMs waitTimeout : option nat)
    (readyFails : option Js.error) :
  let waited := BaseHandlerGuards.delayIfCaptcha readySelectors delayMs waitTimeout
                  readyFails in
  (0 < waited ↔ readySelectors ≠ [] ∧
                ∃ error, readyFails = Some error ∧ Js.name error = "TimeoutError") ∧
  (0 < waited → waited = BaseHandlerGuards.waitTime delayMs waitTimeout) ∧
  BaseHandlerGuards.waitTime (Some 0) waitTimeout =
    BaseHandlerGuards.waitTime None waitTimeout ∧
  BaseHandlerGuards.waitTime None (Some 0) = 5000 ∧
  BaseHandlerGuards.waitTime None None = 5000.
Proof.
  intros waited. subst waited.
  assert (Hpos : 0 < BaseHandlerGuards.waitTime delayMs waitTimeout).
  { unfold BaseHandlerGuards.waitTime, JsText.orNumber.
    destruct delayMs as [[|d]|]; destruct waitTimeout as [[|w]|]; lia. }
  unfold BaseHandlerGuards.delayIfCaptcha.
  destruct readySelectors as [|r rs]; simpl.
  { split; [split; [lia|by intros [? _]]|]. split; [lia|done]. }
  destruct readyFails as [error|].
  - destruct (String.eqb_spec (Js.name error) "TimeoutError") as [Hname|Hname].
    + split; [split; [eauto|done]|]. done.
    + split; [|split; [lia|done]].
      split; [lia|]. intros [_ (e & [= <-] & He)]. done.
  - split; [|split; [lia|done]].
    split; [lia|]. by intros [_ (e & ? & _)].
Qed.

(** X17. [handlePotentialCaptcha] pauses for manual solving exactly
    when CAPTCHA selectors are configured, the race of the two waits
    does not throw and a CAPTCHA element is found; the pause lasts
    [manualSolveWaitTimeMs]. It returns true only after such a pause,
    and false after a pause when the ready selectors do not come back
    within their wait. *)
Theorem captcha_pause_follows_found_element
    (captchaSelectors readySelectors : list string) (manualSolveWaitTimeMs : nat)
    (v : BaseHandlerGuards.CaptchaView) :
  let r := BaseHandlerGuards.handlePotentialCaptcha captchaSelectors readySelectors
             manualSolveWaitTimeMs v in
  let found := captchaSelectors ≠ [] ∧ BaseHandlerGuards.raceFails v = None ∧
               BaseHandlerGuards.captchaElement v = Js.Ok true in
  (found → r.2 = manualSolveWaitTimeMs) ∧
  (¬ found → r = (false, 0)) ∧
  (r.1 = true → found) ∧
  (found → (r.1 = false ↔ readySelectors ≠ [] ∧
                          is_Some (BaseHandlerGuards.readyAfterFails v))).
Proof.
  intros r found. subst r found. unfold BaseHandlerGuards.handlePotentialCaptcha.
  destruct captchaSelectors as [|c cs]; simpl.
  { split; [by intros [? _]|]. split; [done|]. split; [done|]. by intros [? _]. }
  destruct (BaseHandlerGuards.raceFails v) as [e|]; simpl.
  { split; [by intros (_ & ? & _)|]. split; [done|]. split; [done|].
    by intros (_ & ? & _). }
  destruct (BaseHandlerGuards.captchaElement v) as [[]|e]; simpl.
  - destruct readySelectors as [|s rs]; simpl.
    + split; [done|]. split; [by intros []|]. split; [done|].
      intros _. split; [done|by intros [? _]].
    + destruct (BaseHandlerGuards.readyAfterFails v) as [e|]; simpl.
      * split; [done|]. split; [by intros []|]. split; [done|].
        intros _. split; [eauto|done].
      * split; [done|]. split; [by intros []|]. split; [done|].
        intros _. split; [done|]. intros [_ [? ?]]. done.
  - split; [by intros (_ & _ & ?)|]. split; [done|]. split; [done|].
    by intros (_ & _ & ?).
  - split; [by intros (_ & _ & ?)|]. split; [done|]. split; [done|].
    by intros (_ & _ & ?).
Qed.

(** X18. The browser factory keeps one browser: while one is open a
    second [launchBrowser] returns it without calling
    [puppeteer.launch], whatever that call would do; a launch that
    throws leaves no browser behind, so that [newPage] throws; after
    [close], and after the browser has disconnected, [newPage] throws
    and the next [launchBrowser] calls [puppeteer.launch] again. *)
Theorem browser_factory_keeps_one_browser
    (first second : option Js.error) (browserNewPage : option Js.error)
    (st : BrowserFactory.State) :
  let launched := BrowserFactory.launchBrowser first st in
  let again := BrowserFactory.launchBrowser second launched.2 in
  let unavailable := Js.Thrown (Js.newError "Browser not available") in
  (∀ b, launched.1 = Js.Ok b → again = (Js.Ok b, launched.2)) ∧
  (∀ error, launched.1 = Js.Thrown error →
     BrowserFactory.browser launched.2 = None ∧
     BrowserFactory.newPage browserNewPage launched.2 = unavailable) ∧
  BrowserFactory.newPage browserNewPage (BrowserFactory.close launched.2) = unavailable ∧
  BrowserFactory.newPage browserNewPage (BrowserFactory.disconnected launched.2) =
    unavailable ∧
  BrowserFactory.launches
    (BrowserFactory.launchBrowser second (BrowserFactory.close launched.2)).2 =
    S (BrowserFactory.launches launched.2).
Proof.
  intros launched again unavailable. subst again unavailable.
  destruct (launchBrowser_facts first st) as (_ & _ & Hok & Hthrown & _).
  fold launched in Hok, Hthrown.
  destruct (close_facts launched.2) as [Hclosed Hsame].
  destruct launched as [[b|e] st1]; simpl in *.
  - specialize (Hok b eq_refl).
    split.
    { intros ? [= <-]. unfold BrowserFactory.launchBrowser. by rewrite Hok. }
    split; [done|].
    split; [unfold BrowserFactory.newPage; by rewrite Hclosed|].
    split; [done|].
    unfold BrowserFactory.launchBrowser. rewrite Hclosed.
    destruct second; simpl; by rewrite Hsame.
  - specialize (Hthrown e eq_refl).
    split; [done|].
    split; [intros ? _; split; [done|]; unfold BrowserFactory.newPage; by rewrite Hthrown|].
    split; [unfold BrowserFactory.newPage; by rewrite Hclosed|].
    split; [done|].
    unfold BrowserFactory.launchBrowser. rewrite Hclosed.
    destruct second; simpl; by rewrite Hsame.
Qed.

(** X19. However a run in single mode ends, the browser factory is
    left without a browser and [puppeteer.launch] was called at most
    once; when no image is found it was not called at all. The
    summary is all zero unless the batch ran, and then
    [processed + skipped] is the number of images found. *)
Theorem single_mode_cleans_up_and_counts
    (extname : string → string) (extensions : list string) (path : FileManager.Path)
    (options : Options) (target : HandlerFactory.Options)
    (input : string) (recurse : bool) (world : SingleMode.World)
    (sharedExifWriter : ExifWriter.t) (st : BrowserFactory.State) :
  let r := SingleMode.runSingleMode extname extensions path options target input recurse
             world sharedExifWriter st in
  let s := SingleMode.resultSummary r in
  BrowserFactory.browser (SingleMode.factory r) = None ∧
  BrowserFactory.launches st ≤ BrowserFactory.launches (SingleMode.factory r) ∧
  BrowserFactory.launches (SingleMode.factory r) ≤ S (BrowserFactory.launches st) ∧
  SingleMode.imagePaths r =
    FileManagerImages.findImageFiles extname extensions path (SingleMode.stat world)
      input recurse ∧
  (SingleMode.imagePaths r = [] →
     SingleMode.ending r = SingleMode.NoImagesFound ∧
     BrowserFactory.launches (SingleMode.factory r) = BrowserFactory.launches st) ∧
  (SingleMode.ending r ≠ SingleMode.Completed → s = Manager.zeroSummary) ∧
  (SingleMode.ending r = SingleMode.Completed →
     SingleMode.imagePaths r ≠ [] ∧
     Manager.processed s + Manager.skipped s = length (SingleMode.imagePaths r)).
Proof.
  intros r s. subst s r.
  unfold SingleMode.runSingleMode, SingleMode.tryBlock.
  set (images := FileManagerImages.findImageFiles _ _ _ _ _ _).
  destruct (launchBrowser_facts (SingleMode.puppeteerLaunch world) st)
    as (Hlo & Hhi & _).
  destruct (length images =? 0) eqn:Hlen.
  { apply Nat.eqb_eq in Hlen. cbn [SingleMode.factory SingleMode.imagePaths
      SingleMode.ending SingleMode.resultSummary].
    destruct (close_facts st) as [-> ->].
    split; [done|]. split; [lia|]. split; [lia|]. split; [done|].
    split; [done|]. split; [done|]. done. }
  apply Nat.eqb_neq in Hlen.
  assert (Hne : images ≠ []) by (by intros ->).
  destruct (BrowserFactory.launchBrowser _ st) as [[b|e] st1]; simpl in Hlo, Hhi.
  2:{ cbn [SingleMode.factory SingleMode.imagePaths SingleMode.ending
        SingleMode.resultSummary].
      destruct (close_facts st1) as [-> ->].
      split; [done|]. split; [lia|]. split; [lia|]. split; [done|].
      split; [done|]. split; [done|]. done. }
  assert (Hstop : ∀ error h url,
    let r := {| SingleMode.imagePaths := images;
                SingleMode.resultSummary := Manager.zeroSummary;
                SingleMode.ending := SingleMode.Failed error;
                SingleMode.factory := st1; SingleMode.handler := h;
                SingleMode.navigatedTo := url |} in
    BrowserFactory.browser (BrowserFactory.close (SingleMode.factory r)) = None ∧
    BrowserFactory.launches st ≤
      BrowserFactory.launches (BrowserFactory.close (SingleMode.factory r)) ∧
    BrowserFactory.launches (BrowserFactory.close (SingleMode.factory r)) ≤
      S (BrowserFactory.launches st) ∧
    SingleMode.imagePaths r = images ∧
    (SingleMode.imagePaths r = [] →
       SingleMode.ending r = SingleMode.NoImagesFound ∧
       BrowserFactory.launches (BrowserFactory.close (SingleMode.factory r)) =
         BrowserFactory.launches st) ∧
    (SingleMode.ending r ≠ SingleMode.Completed →
       SingleMode.resultSummary r = Manager.zeroSummary) ∧
    (SingleMode.ending r = SingleMode.Completed →
       SingleMode.imagePaths r ≠ [] ∧
       Manager.processed (SingleMode.resultSummary r) +
       Manager.skipped (SingleMode.resultSummary r) =
         length (SingleMode.imagePaths r))).
  { intros error h url. simpl. destruct (close_facts st1) as [-> ->].
    split; [done|]. split; [lia|]. split; [lia|]. split; [done|].
    split; [done|]. split; [done|]. done. }
  destruct (HandlerFactory.getHandler target) as [h|e]; [|apply Hstop].
  destruct (BrowserFactory.newPage _ st1) as [page|e]; [|apply Hstop].
  destruct (SingleMode.initialUrl target) as [url|e]; [|apply Hstop].
  destruct (SingleMode.gotoFails world) as [e|]; [apply Hstop|].
  destruct (if 0 <? length (SingleMode.readySelectors options h)
            then SingleMode.readyFails world else None) as [e|]; [apply Hstop|].
  cbn [SingleMode.factory SingleMode.imagePaths SingleMode.ending
         SingleMode.resultSummary].
  destruct (close_facts st1) as [-> ->].
  split; [done|]. split; [lia|]. split; [lia|]. split; [done|].
  split; [done|]. split; [done|]. intros _. split; [done|].
  destruct h; apply batch_counts_every_image.
Qed.

(** X20. In single mode with neither [--platform] nor [--url], a
    Gemini default URL and a ChatGPT default URL: [getHandler] takes
    the Gemini URL and chooses the Gemini handler, while the page is
    sent to the ChatGPT URL, so the batch runs the Gemini handler on
    the ChatGPT page. *)
Theorem single_mode_without_flags_sends_gemini_handler_to_chatgpt_url
    (extname : string → string) (extensions : list string) (path : FileManager.Path)
    (options : Options) (target : HandlerFactory.Options)
    (input : string) (recurse : bool) (world : SingleMode.World)
    (sharedExifWriter : ExifWriter.t) (st : BrowserFactory.State)
    (gemini chatgpt : string) :
  let r := SingleMode.runSingleMode extname extensions path options target input recurse
             world sharedExifWriter st in
  HandlerFactory.platform target = None →
  HandlerFactory.url target = None →
  HandlerFactory.geminiUrl target = Some gemini →
  Js.includes "gemini.google.com" (JsText.toLowerCase gemini) = true →
  HandlerFactory.chatgptUrl target = Some chatgpt →
  Js.truthy chatgpt = true →
  FileManagerImages.findImageFiles extname extensions path (SingleMode.stat world)
    input recurse ≠ [] →
  SingleMode.puppeteerLaunch world = None →
  SingleMode.browserNewPage world = None →
  SingleMode.handler r = Some HandlerFactory.Gemini ∧
  SingleMode.navigatedTo r = Some chatgpt ∧
  (SingleMode.ending r = SingleMode.Completed →
   SingleMode.resultSummary r =
     Manager.processImageBatch options
       (GeminiHandler.new options (SingleMode.geminiPage world)) sharedExifWriter
       (SingleMode.imagePaths r)).
Proof.
  intros r Hplatform Hurl Hgemini Hsite Hchatgpt Htruthy Himages Hlaunch Hpage.
  assert (Hg : Js.truthy gemini = true).
  { rewrite <- toLowerCase_truthy.
    apply (includes_truthy "gemini.google.com"); [done|exact Hsite]. }
  assert (Hhandler : HandlerFactory.getHandler target = Js.Ok HandlerFactory.Gemini).
  { unfold HandlerFactory.getHandler. rewrite Hplatform, Hurl, Hgemini.
    rewrite (orElse_truthy gemini _ Hg). simpl. by rewrite Hg, Hsite. }
  assert (Hinitial : SingleMode.initialUrl target = Js.Ok chatgpt).
  { unfold SingleMode.initialUrl. rewrite Hurl, Hchatgpt.
    rewrite (orElse_truthy chatgpt _ Htruthy). simpl. by rewrite Htruthy. }
  subst r. unfold SingleMode.runSingleMode, SingleMode.tryBlock.
  destruct (launchBrowser_facts (SingleMode.puppeteerLaunch world) st)
    as (_ & _ & Hok & _ & Hsome).
  destruct (Hsome Hlaunch) as [b Hb]. specialize (Hok b Hb).
  destruct (BrowserFactory.launchBrowser _ st) as [res st1]. simpl in Hb, Hok. subst res.
  destruct (FileManagerImages.findImageFiles _ _ _ _ _ _) as [|image images]; [done|].
  cbn [length Nat.eqb].
  rewrite Hhandler, Hinitial. unfold BrowserFactory.newPage. rewrite Hok, Hpage.
  destruct (SingleMode.gotoFails world); [done|].
  destruct (if _ <? _ then _ else _); done.
Qed.

(** X20 with the default URLs of src/config.js over the album. *)
Lemma single_mode_without_flags_sends_gemini_handler_to_chatgpt_url_witness :
  let r := SingleMode.runSingleMode MoreScenarios.extname MoreScenarios.extensions
             Scenarios.posix defaultConfig MoreScenarios.noFlags "/album" false MoreScenarios.calm
             (Scenarios.writer ∅) BrowserFactory.initial in
  FileManagerImages.findImageFiles MoreScenarios.extname MoreScenarios.extensions
    Scenarios.posix (SingleMode.stat MoreScenarios.calm) "/album" false =
    ["/album/a.JPG"; "/album/b.webp"] ∧
  SingleMode.handler r = Some HandlerFactory.Gemini ∧
  SingleMode.navigatedTo r = Some "https://chatgpt.com/".
Proof.
  intros r.
  assert (Himages : FileManagerImages.findImageFiles MoreScenarios.extname
            MoreScenarios.extensions Scenarios.posix (SingleMode.stat MoreScenarios.calm) "/album" false =
            ["/album/a.JPG"; "/album/b.webp"]) by (vm_compute; reflexivity).
  assert (Hne : FileManagerImages.findImageFiles MoreScenarios.extname
            MoreScenarios.extensions Scenarios.posix (SingleMode.stat MoreScenarios.calm) "/album" false ≠ [])
    by (rewrite Himages; discriminate).
  split; [exact Himages|].
  destruct (single_mode_without_flags_sends_gemini_handler_to_chatgpt_url
    MoreScenarios.extname MoreScenarios.extensions Scenarios.posix defaultConfig
    MoreScenarios.noFlags
    "/album" false MoreScenarios.calm (Scenarios.writer ∅) BrowserFactory.initial
    "https://gemini.google.com/app" "https://chatgpt.com/"
    eq_refl eq_refl eq_refl eq_refl eq_refl eq_refl Hne eq_refl eq_refl)
    as (Hh & Hn & _).
  split; [exact Hh|exact Hn].
Defined.

(** X21. In recursive mode the aggregate [processed + skipped] is the
    number of images found by the sessions that started, summed over
    the pairs; a pair whose session fails to start adds nothing, and
    every pair has its result. *)
Theorem recursive_totals_count_images_of_started_sessions
    {H : Type} `{BaseHandler H} (options : Options) (input userDataDir : string)
    (fs : FileManager.Fs) (launch : string → string → Manager.Session) :
  let report := Manager.runRecursiveMode options input userDataDir fs launch in
  let found (pair : string * string) :=
    match Manager.startupFails (launch pair.1 pair.2) with
    | Some _ => 0
    | None => length (Manager.imagePaths (launch pair.1 pair.2))
    end in
  Manager.processed (Manager.aggregateSummary report) +
  Manager.skipped (Manager.aggregateSummary report) =
    sum_list (found <$> Manager.tasks report) ∧
  length (Manager.results report) = length (Manager.tasks report).
Proof.
  intros report found.
  assert (Htask : ∀ pair,
    Manager.processed (Manager.task options launch pair.1 pair.2) +
    Manager.skipped (Manager.task options launch pair.1 pair.2) = found pair).
  { intros pair. subst found. unfold Manager.task. simpl.
    destruct (Manager.startupFails _); [done|].
    destruct (Manager.imagePaths _) as [|image images] eqn:Himages; [done|].
    cbn [length Nat.ltb Nat.leb]. apply batch_counts_every_image. }
  assert (Hsum : ∀ pairs : list (string * string),
    sum_list (Manager.processed <$>
      ((λ pair, Manager.task options launch pair.1 pair.2) <$> pairs)) +
    sum_list (Manager.skipped <$>
      ((λ pair, Manager.task options launch pair.1 pair.2) <$> pairs)) =
    sum_list (found <$> pairs)).
  { induction pairs as [|pair pairs IH]; csimpl; [done|].
    rewrite <- IH, <- (Htask pair). lia. }
  subst report. unfold Manager.runRecursiveMode.
  destruct (FileManager.findSubdirectories fs input) as [inputSubDirs|]; [|done].
  destruct (FileManager.findSubdirectories fs userDataDir) as [userDataSubDirs|]; [|done].
  destruct (_ =? 0); [done|].
  destruct (PLimit.pLimit _); [done|].
  cbn [Manager.aggregateSummary Manager.tasks Manager.results].
  split; [|by rewrite length_fmap].
  destruct (fold_accumulate
    ((λ pair, Manager.task options launch pair.1 pair.2) <$>
       ((λ i, (inputSubDirs !!! i, userDataSubDirs !!! i)) <$>
          seq 0 (length inputSubDirs `min` length userDataSubDirs)))
    Manager.zeroSummary) as (Hp & Hs & _).
  rewrite Hp, Hs, <- Hsum. simpl. lia.
Qed.

Section Alike.
Import Manager Invariants.

Lemma updatePrevious_alike options ph (a b : Loop GeminiHandler.t) :
  Alike a b → Alike (updatePrevious options ph a) (updatePrevious options ph b).
Proof.
  destruct a, b. unfold Alike, updatePrevious, statusKnown. simpl.
  intros (-> & -> & -> & -> & -> & ->).
  destruct previousImagePath1 as [prev|]; [|done].
  destruct successStatusForPreviousImage1 as [status|]; [|done].
  destruct (Js.truthy prev); [|done].
  by destruct (ExifWriter.incrementCounter _ _ _) as [ok w].
Qed.

Lemma loopBody_alike options total p (a b : Loop GeminiHandler.t) :
  Alike a b → Alike (loopBody options total p a) (loopBody options total p b).
Proof.
  intros Hab. unfold loopBody.
  assert (Hprep : Alike (prepare options a) (prepare options b)).
  { revert Hab. destruct a, b. unfold Alike, prepare, updatePrevious, statusKnown. simpl.
    intros (-> & -> & -> & -> & -> & ->).
    destruct previousImagePath1 as [prev|]; [|done].
    destruct successStatusForPreviousImage1 as [status|]; [|done].
    destruct (Js.truthy prev); [|done].
    by destruct (ExifWriter.incrementCounter _ _ _) as [ok w]. }
  revert Hprep. generalize (prepare options a) (prepare options b).
  intros [] []. unfold Alike, skipOrSubmit. simpl.
  intros (-> & -> & -> & -> & -> & ->).
  destruct (ExifWriter.getAppData _ _) as [d w].
  destruct (_ && _); [done|].
  unfold GeminiHandler.processImage.
  by do 2 destruct (GeminiHandler.buildService _).
Qed.

Lemma finish_alike options (a b : Loop GeminiHandler.t) :
  Alike a b → Alike (finish options a) (finish options b).
Proof.
  intros Hab. unfold finish.
  pose proof (updatePrevious_alike options FinalKnown a b Hab) as Hup.
  destruct a, b. unfold Alike, statusKnown in *. simpl in *.
  destruct Hab as (-> & -> & -> & -> & -> & ->).
  destruct previousImagePath1 as [prev|]; [|done].
  destruct successStatusForPreviousImage1 as [status|].
  - destruct (Js.truthy prev); [exact Hup|done].
  - destruct (_ && _); [|done].
    by destruct (ExifWriter.incrementCounter _ _ _) as [ok w].
Qed.

Lemma forOf_alike options total imagePaths : ∀ (a b : Loop GeminiHandler.t),
  Alike a b →
  Alike (forOf options total imagePaths a) (forOf options total imagePaths b).
Proof.
  induction imagePaths as [|p rest IH]; intros a b Hab; simpl; [done|].
  by apply IH, loopBody_alike.
Qed.

End Alike.

(** X22. What a batch under the Gemini handler records does not
    depend on the page: two runs over the same images and the same
    stored data, on pages that show different things (an image found
    every time on one, none on the other), give the same summary,
    the same log and the same data on disk. *)
Theorem gemini_batch_ignores_what_the_page_shows
    (options : Options) (h h' : GeminiHandler.t) (w : ExifWriter.t)
    (imagePaths : list string) :
  let run := Manager.runBatch options h w imagePaths in
  let run' := Manager.runBatch options h' w imagePaths in
  Manager.summary run = Manager.summary run' ∧
  Manager.log run = Manager.log run' ∧
  Manager.exifWriterInstance run = Manager.exifWriterInstance run'.
Proof.
  intros run run'. subst run run'. unfold Manager.runBatch.
  destruct (finish_alike options _ _
    (forOf_alike options (length imagePaths) imagePaths
       (Manager.start h w) (Manager.start h' w)
       (conj eq_refl (conj eq_refl (conj eq_refl (conj eq_refl (conj eq_refl eq_refl)))))))
    as (Hs & _ & _ & _ & Hw & Hl).
  done.
Qed.

Section Metering.
Import Manager Invariants.
Context {H : Type} `{BaseHandler H}.
Variable options : Options.

#[local] Arguments Trace.submissions : simpl never.
#[local] Arguments Trace.visits : simpl never.
#[local] Arguments Trace.updates : simpl never.

(** The rule of [runBatch_keeps] for a property that mentions the
    number of images. *)
Lemma forOf_keeps (P : Loop H → Prop) (total : nat) (imagePaths : list string) :
  (∀ st, P st → P (prepare options st)) →
  (∀ p st, P st → P (skipOrSubmit options total p st)) →
  ∀ st, P st → P (forOf options total imagePaths st).
Proof.
  intros Hprep Hbody.
  induction imagePaths as [|p rest IH]; intros st Hst; simpl; [done|].
  apply IH. unfold loopBody. by apply Hbody, Hprep.
Qed.

Lemma elem_of_waits (l : list Event) (i : nat) : i ∈ waits l ↔ EvWait i ∈ l.
Proof.
  unfold waits. rewrite list_elem_of_omap. split.
  - intros ([] & Hin & Heq); simplify_eq. done.
  - intros Hin. by exists (EvWait i).
Qed.

(** An increment under one of the writer's keys calls exiftool twice:
    to read and to write. *)
Lemma incrementCounter_calls (w : ExifWriter.t) filePath key :
  key = ExifWriter.successKey w ∨ key = ExifWriter.failedKey w →
  ExifWriter.calls (ExifWriter.exiftool (ExifWriter.incrementCounter w filePath key).2) =
    S (S (ExifWriter.calls (ExifWriter.exiftool w))).
Proof.
  intros Hkey. unfold ExifWriter.incrementCounter.
  assert (Hvalid : negb (String.eqb key (ExifWriter.successKey w)) &&
                   negb (String.eqb key (ExifWriter.failedKey w)) = false).
  { destruct Hkey as [->| ->]; rewrite String.eqb_refl; simpl; try done.
    by rewrite andb_false_r. }
  rewrite Hvalid. unfold ExifWriter._readAppDataInternal.
  destruct (ExifWriter.healthy _ _); simpl; by destruct (ExifWriter.healthy _ _).
Qed.

Lemma updatePrevious_metered calls0 ph (st : Loop H) :
  Metered options calls0 st → Metered options calls0 (updatePrevious options ph st).
Proof.
  intros (Hsk & Hfk & Hcalls). unfold updatePrevious.
  destruct (statusKnown st) as [[prev status]|]; [|done].
  set (key := if status then exifSuccessKey options else exifFailedKey options).
  assert (Hkey : key = ExifWriter.successKey (exifWriterInstance st) ∨
                 key = ExifWriter.failedKey (exifWriterInstance st)).
  { subst key. rewrite Hsk, Hfk. destruct status; auto. }
  pose proof (incrementCounter_calls (exifWriterInstance st) prev key Hkey) as Hc.
  destruct (incrementCounter_keeps_keys (exifWriterInstance st) prev key)
    as (Hsk' & Hfk' & _).
  destruct (ExifWriter.incrementCounter _ _ _) as [ok w']. simpl in *.
  unfold Metered. simpl.
  rewrite Hsk', Hfk', Hc, Hcalls, visits_app, updates_app, !length_app.
  cbv [Trace.visits Trace.updates]. simpl. repeat split; try done. lia.
Qed.

Lemma runBatch_metered calls0 (h : H) (w : ExifWriter.t) (imagePaths : list string) :
  Metered options calls0 (start h w) →
  Metered options calls0 (runBatch options h w imagePaths).
Proof.
  intros Hstart. apply runBatch_keeps; [done| | |].
  - intros st Hst. unfold prepare.
    pose proof (updatePrevious_metered calls0 (InLoop (S (fileIndex st)))
      {| summary := summary st; previousImagePath := previousImagePath st;
         successStatusForPreviousImage := successStatusForPreviousImage st;
         fileIndex := S (fileIndex st); exifWriterInstance := exifWriterInstance st;
         handler := handler st; log := log st |} Hst) as Hup.
    exact Hup.
  - intros total p st _ (Hsk & Hfk & Hcalls). unfold Metered, skipOrSubmit.
    destruct (readAppData_keeps_files (exifWriterInstance st) p)
      as (_ & _ & Hc & Hsk' & Hfk').
    unfold ExifWriter.getAppData.
    destruct (ExifWriter._readAppDataInternal _ _) as [d w']. simpl in *.
    destruct (_ && _); simpl.
    + rewrite Hsk', Hfk', Hc, Hcalls, visits_app, updates_app, !length_app.
      cbv [Trace.visits Trace.updates]. simpl. repeat split; try done. lia.
    + destruct (processImage _ _ _) as [c h'].
      destruct (waits_are_silent total (fileIndex st)) as (_ & Hw2 & Hw3).
      assert (Hlog :
        length (Trace.visits (log st ++ EvSubmit (fileIndex st) p ::
          (if fileIndex st <? total then [EvWait (fileIndex st)] else []))) =
          S (length (Trace.visits (log st))) ∧
        length (Trace.updates (log st ++ EvSubmit (fileIndex st) p ::
          (if fileIndex st <? total then [EvWait (fileIndex st)] else []))) =
          length (Trace.updates (log st))).
      { change (EvSubmit (fileIndex st) p ::
                  (if fileIndex st <? total then [EvWait (fileIndex st)] else []))
          with ([EvSubmit (fileIndex st) p] ++
                  (if fileIndex st <? total then [EvWait (fileIndex st)] else [])).
        rewrite !visits_app, !updates_app, !length_app, Hw2, Hw3.
        cbv [Trace.visits Trace.updates]. simpl. lia. }
      destruct Hlog as [Hv Hu].
      destruct c as [[[] status|success]|e]; simpl;
        rewrite Hsk', Hfk', Hc, Hcalls, Hv, Hu; repeat split; try done; lia.
  - intros st Hst. unfold finish.
    destruct (statusKnown st) as [[prev status]|] eqn:Hk.
    + by apply updatePrevious_metered.
    + destruct (previousImagePath st) as [prev|]; [|exact Hst].
      destruct (successStatusForPreviousImage st); [exact Hst|].
      destruct (_ && _); [|exact Hst].
      destruct Hst as (Hsk & Hfk & Hcalls).
      assert (Hkey : exifFailedKey options = ExifWriter.successKey (exifWriterInstance st) ∨
                     exifFailedKey options = ExifWriter.failedKey (exifWriterInstance st))
        by (rewrite Hfk; auto).
      pose proof (incrementCounter_calls (exifWriterInstance st) prev _ Hkey) as Hc.
      destruct (incrementCounter_keeps_keys (exifWriterInstance st) prev
                  (exifFailedKey options)) as (Hsk' & Hfk' & _).
      destruct (ExifWriter.incrementCounter _ _ _) as [ok w']. simpl in *.
      unfold Metered. simpl.
      rewrite Hsk', Hfk', Hc, Hcalls, visits_app, updates_app, !length_app.
      cbv [Trace.visits Trace.updates]. simpl. repeat split; try done. lia.
Qed.

(** A wait is logged with the index of a submission made before the
    last image of the list. *)
Lemma runBatch_waits (h : H) (w : ExifWriter.t) (imagePaths : list string) (i : nat) :
  EvWait i ∈ log (runBatch options h w imagePaths) ↔
  i < length imagePaths ∧ ∃ p, EvSubmit i p ∈ log (runBatch options h w imagePaths).
Proof.
  set (Q := λ l : list Event,
    ∀ i, EvWait i ∈ l ↔ i < length imagePaths ∧ ∃ p, EvSubmit i p ∈ l).
  assert (Hsnoc : ∀ l e, Q l → (∀ j, e ≠ EvWait j) → (∀ j q, e ≠ EvSubmit j q) →
                         Q (l ++ [e])).
  { intros l e Hl Hw Hs j. rewrite elem_of_snoc_event, (Hl j). split.
    - intros [[Hlt [q Hq]]|Heq]; [|by destruct (Hw j)]. split; [done|]. exists q.
      apply elem_of_snoc_event. by left.
    - intros [Hlt [q [Hq|Heq]%elem_of_snoc_event]]; [left; eauto|].
      by destruct (Hs j q). }
  cut (Q (log (runBatch options h w imagePaths))); [intros HQ; apply HQ|].
  unfold runBatch.
  assert (Hloop : Q (log (forOf options (length imagePaths) imagePaths (start h w)))).
  { apply (forOf_keeps (λ st, Q (log st))).
    - intros st Hst. unfold prepare, updatePrevious. simpl.
      destruct (statusKnown _) as [[prev status]|]; [|exact Hst].
      destruct (ExifWriter.incrementCounter _ _ _) as [ok w']. simpl.
      by apply Hsnoc.
    - intros p st Hst. unfold skipOrSubmit.
      destruct (ExifWriter.getAppData _ _) as [d w'].
      destruct (_ && _).
      + simpl. by apply Hsnoc.
      + destruct (processImage _ _ _) as [c h'].
        assert (Hnew : Q (log st ++ [EvSubmit (fileIndex st) p] ++
            (if fileIndex st <? length imagePaths then [EvWait (fileIndex st)] else []))).
        { intros j. rewrite !elem_of_app, (Hst j), list_elem_of_singleton.
          destruct (fileIndex st <? length imagePaths) eqn:Hlt.
          - apply Nat.ltb_lt in Hlt. rewrite list_elem_of_singleton. split.
            + intros [[Hj [q Hq]]|[?|Heq]]; [|done|].
              * split; [done|]. exists q. rewrite !elem_of_app. by left.
              * simplify_eq. split; [done|]. exists p.
                rewrite !elem_of_app, list_elem_of_singleton. right. by left.
            + intros [Hj [q Hq]]. rewrite !elem_of_app, !list_elem_of_singleton in Hq.
              destruct Hq as [Hq|[Hq|Hq]]; [left; eauto|simplify_eq; auto|done].
          - apply Nat.ltb_ge in Hlt. split.
            + intros [[Hj [q Hq]]|[?|Hnil]]; [|done|by apply elem_of_nil in Hnil].
              split; [done|]. exists q. rewrite !elem_of_app. by left.
            + intros [Hj [q Hq]]. rewrite !elem_of_app, list_elem_of_singleton in Hq.
              destruct Hq as [Hq|[Hq|Hq]]; [left; eauto|simplify_eq; lia|].
              by apply elem_of_nil in Hq. }
        destruct c as [[[] status|success]|e]; exact Hnew.
    - intros j. simpl. split; [by intros ?%elem_of_nil|].
      by intros [_ [q ?%elem_of_nil]]. }
  revert Hloop. generalize (forOf options (length imagePaths) imagePaths (start h w)).
  intros st Hst. unfold finish, updatePrevious.
  destruct (statusKnown st) as [[prev status]|].
  - destruct (ExifWriter.incrementCounter _ _ _) as [ok w']. simpl. by apply Hsnoc.
  - destruct (previousImagePath st) as [prev|]; [|exact Hst].
    destruct (successStatusForPreviousImage st); [exact Hst|].
    destruct (_ && _); [|exact Hst].
    destruct (ExifWriter.incrementCounter _ _ _) as [ok w']. simpl. by apply Hsnoc.
Qed.

End Metering.

(** X23. With the writer built from the batch's options, a batch
    calls exiftool once for every image of the list (the read of the
    skip check) and twice for every counter update (a read and a
    write), whether the calls succeed or not. *)
Theorem batch_calls_exiftool_once_per_image_twice_per_update
    {H : Type} `{BaseHandler H} (options : Options)
    (h : H) (tool : ExifWriter.ExifTool) (imagePaths : list string) :
  let run := Manager.runBatch options h (ExifWriter.new options tool) imagePaths in
  let s := Manager.summary run in
  ExifWriter.calls (ExifWriter.exiftool (Manager.exifWriterInstance run)) =
    ExifWriter.calls tool + length imagePaths +
    2 * (Manager.success s + Manager.failed s + Manager.exifErrors s).
Proof.
  intros run s.
  destruct (runBatch_metered options (ExifWriter.calls tool) h
              (ExifWriter.new options tool) imagePaths) as (_ & _ & Hcalls).
  { unfold Invariants.Metered. simpl. repeat split; try done. lia. }
  destruct (runBatch_tallied options h (ExifWriter.new options tool) imagePaths)
    as (_ & _ & Hu & _).
  destruct (runBatch_order options h (ExifWriter.new options tool) imagePaths)
    as (Hvis & _ & _).
  fold run in Hcalls, Hu, Hvis. fold s in Hu.
  rewrite Hcalls, Hvis, Hu. unfold Trace.numbered. by rewrite length_imap.
Qed.

(** X24. The loop waits after a submission and only then, and not
    after the last image of the list: a wait is logged for a file
    index exactly when an image was submitted under that index and
    the index is below the number of images. A skipped image is
    followed by no wait. *)
Theorem wait_follows_each_submission_but_the_last
    {H : Type} `{BaseHandler H} (options : Options)
    (h : H) (w : ExifWriter.t) (imagePaths : list string) (i : nat) :
  let run := Manager.runBatch options h w imagePaths in
  (i ∈ Invariants.waits (Manager.log run) ↔
     i < length imagePaths ∧ ∃ p, Manager.EvSubmit i p ∈ Manager.log run) ∧
  (∀ p, Manager.EvSkip i p ∈ Manager.log run → i ∉ Invariants.waits (Manager.log run)).
Proof.
  intros run. subst run. rewrite elem_of_waits. split.
  - apply runBatch_waits.
  - intros p Hskip Hwait. apply elem_of_waits, runBatch_waits in Hwait as [_ [q Hq]].
    destruct (runBatch_order options h w imagePaths) as (_ & Hapart & _).
    eauto.
Qed.

Section Growth.
Import Manager Invariants.

(** With an exiftool process that does not fail, an increment lowers
    no stored count. *)
Lemma incrementCounter_grows (w : ExifWriter.t) p keyToIncrement filePath key :
  (∀ n, ExifWriter.healthy (ExifWriter.exiftool w) n = true) →
  stored (ExifWriter.files (ExifWriter.exiftool w)) filePath key ≤
  stored (ExifWriter.files (ExifWriter.exiftool
            (ExifWriter.incrementCounter w p keyToIncrement).2)) filePath key.
Proof.
  intros Hh. unfold ExifWriter.incrementCounter.
  destruct (_ && _); [done|].
  unfold ExifWriter._readAppDataInternal. rewrite Hh. simpl. rewrite Hh. simpl.
  unfold stored.
  destruct (decide (filePath = p)) as [->|Hne]; [|by rewrite lookup_insert_ne].
  rewrite lookup_insert_eq. simpl.
  destruct (ExifWriter.files (ExifWriter.exiftool w) !! p) as [data|] eqn:Hdata; simpl;
    [|lia].
  destruct (data !! key) as [n|] eqn:Hkey; simpl; [|lia].
  destruct (decide (key = keyToIncrement)) as [->|Hk].
  - rewrite lookup_insert_eq. simpl.
    rewrite (lookup_union_Some_l _ _ _ _ Hkey). simpl. lia.
  - rewrite lookup_insert_ne by done.
    by rewrite (lookup_union_Some_l _ _ _ _ Hkey).
Qed.

End Growth.

(** X25. With an exiftool process that does not fail, a batch lowers
    no stored count: for every file and every key, the count stored
    after the batch is at least the count stored before it. (After a
    failed read an increment starts again from zero; see X3.) *)
Theorem working_exiftool_never_lowers_a_count
    {H : Type} `{BaseHandler H} (options : Options)
    (h : H) (w : ExifWriter.t) (imagePaths : list string) (filePath key : string) :
  let run := Manager.runBatch options h w imagePaths in
  (∀ n, ExifWriter.healthy (ExifWriter.exiftool w) n = true) →
  Invariants.stored (ExifWriter.files (ExifWriter.exiftool w)) filePath key ≤
  Invariants.stored
    (ExifWriter.files (ExifWriter.exiftool (Manager.exifWriterInstance run)))
    filePath key.
Proof.
  intros run Hhealthy.
  assert (Hinv : Invariants.Growing (ExifWriter.files (ExifWriter.exiftool w)) run).
  { assert (Hstep : ∀ (st : Manager.Loop H) prev k,
      Invariants.Growing (ExifWriter.files (ExifWriter.exiftool w)) st →
      (∀ n, ExifWriter.healthy (ExifWriter.exiftool
              (ExifWriter.incrementCounter (Manager.exifWriterInstance st) prev k).2) n
            = true) ∧
      ∀ f key',
        Invariants.stored (ExifWriter.files (ExifWriter.exiftool w)) f key' ≤
        Invariants.stored (ExifWriter.files (ExifWriter.exiftool
          (ExifWriter.incrementCounter (Manager.exifWriterInstance st) prev k).2)) f key').
    { intros st prev k [Hh Hle].
      destruct (incrementCounter_keeps_keys (Manager.exifWriterInstance st) prev k)
        as (_ & _ & Hh').
      split; [intros n; by rewrite Hh'|].
      intros f key'. etrans; [apply Hle|]. by apply incrementCounter_grows. }
    subst run. apply runBatch_keeps.
    - split; [done|]. intros f k. done.
    - intros st Hst. unfold Manager.prepare, Manager.updatePrevious. simpl.
      destruct (Manager.statusKnown _) as [[prev status]|]; [|exact Hst].
      specialize (Hstep st prev
        (if status then exifSuccessKey options else exifFailedKey options) Hst).
      destruct (ExifWriter.incrementCounter _ _ _) as [ok w']. exact Hstep.
    - intros total p st _ [Hh Hle]. unfold Manager.skipOrSubmit.
      destruct (getAppData_keeps (Manager.exifWriterInstance st) p) as (Hf & Hh' & _).
      destruct (ExifWriter.getAppData _ _) as [d w']. simpl in Hf, Hh'.
      assert (Hkeep : (∀ n, ExifWriter.healthy (ExifWriter.exiftool w') n = true) ∧
        ∀ f key', Invariants.stored (ExifWriter.files (ExifWriter.exiftool w)) f key' ≤
                  Invariants.stored (ExifWriter.files (ExifWriter.exiftool w')) f key').
      { split; [intros n; by rewrite Hh'|]. intros f key'. rewrite Hf. apply Hle. }
      destruct (_ && _); [exact Hkeep|].
      destruct (processImage _ _ _) as [c h'].
      destruct c as [[[] status|success]|e]; exact Hkeep.
    - intros st Hst. unfold Manager.finish, Manager.updatePrevious.
      destruct (Manager.statusKnown st) as [[prev status]|].
      + specialize (Hstep st prev
          (if status then exifSuccessKey options else exifFailedKey options) Hst).
        destruct (ExifWriter.incrementCounter _ _ _) as [ok w']. exact Hstep.
      + destruct (Manager.previousImagePath st) as [prev|]; [|exact Hst].
        destruct (Manager.successStatusForPreviousImage st); [exact Hst|].
        destruct (_ && _); [|exact Hst].
        specialize (Hstep st prev (exifFailedKey options) Hst).
        destruct (ExifWriter.incrementCounter _ _ _) as [ok w']. exact Hstep. }
  destruct Hinv as [_ Hle]. apply Hle.
Qed.

(** X25 on the batch that skips img2: its success count stays two. *)
Lemma working_exiftool_never_lowers_a_count_witness :
  let w := Scenarios.writer Scenarios.img2Done in
  let run := Manager.runBatch defaultConfig (Scenarios.chatgpt Scenarios.deferredScript)
               w [Scenarios.img1; Scenarios.img2; Scenarios.img3] in
  (∀ n, ExifWriter.healthy (ExifWriter.exiftool w) n = true) ∧
  2 ≤ Invariants.stored
        (ExifWriter.files (ExifWriter.exiftool (Manager.exifWriterInstance run)))
        Scenarios.img2 "successCount".
Proof.
  intros w run.
  assert (Hh : ∀ n, ExifWriter.healthy (ExifWriter.exiftool w) n = true)
    by (intros n; reflexivity).
  split; [exact Hh|].
  exact (working_exiftool_never_lowers_a_count defaultConfig
    (Scenarios.chatgpt Scenarios.deferredScript) w
    [Scenarios.img1; Scenarios.img2; Scenarios.img3] Scenarios.img2 "successCount" Hh).
Defined.

(** X26. With [--url] and no [--platform] the handler and the page
    agree: the run navigates to that URL, the other two URL options
    play no part, and the handler chosen is the one whose site the
    URL names (Gemini first when it names both); a URL that names
    neither site makes [getHandler] throw. *)
Theorem with_url_the_handler_follows_the_page
    (target : HandlerFactory.Options) (url : string) :
  HandlerFactory.platform target = None →
  HandlerFactory.url target = Some url →
  Js.truthy url = true →
  let lower := JsText.toLowerCase url in
  SingleMode.initialUrl target = Js.Ok url ∧
  (HandlerFactory.getHandler target = Js.Ok HandlerFactory.Gemini ↔
     Js.includes "gemini.google.com" lower = true) ∧
  (HandlerFactory.getHandler target = Js.Ok HandlerFactory.ChatGpt ↔
     Js.includes "gemini.google.com" lower = false ∧
     (Js.includes "chatgpt.com" lower = true ∨
      Js.includes "chat.openai.com" lower = true)) ∧
  ((∃ error, HandlerFactory.getHandler target = Js.Thrown error) ↔
     Js.includes "gemini.google.com" lower = false ∧
     Js.includes "chatgpt.com" lower = false ∧
     Js.includes "chat.openai.com" lower = false).
Proof.
  intros Hplatform Hurl Htruthy lower.
  unfold SingleMode.initialUrl, HandlerFactory.getHandler.
  rewrite Hplatform, Hurl, !(orElse_truthy url _ Htruthy). fold lower.
  simpl. rewrite Htruthy. simpl.
  split; [done|].
  destruct (Js.includes "gemini.google.com" lower);
    destruct (Js.includes "chatgpt.com" lower);
    destruct (Js.includes "chat.openai.com" lower); simpl;
    (split; [split; [done|try done]|]);
    (split; [split; [try done; auto|try done; by intros [? []]]|]);
    (split; [try by intros [? ?]; eauto|try done; eauto; by intros (? & ? & ?)]).
Qed.

(** X26 for a conversation URL of chat.openai.com. *)
Lemma with_url_the_handler_follows_the_page_witness :
  HandlerFactory.platform MoreScenarios.urlFlag = None ∧
  HandlerFactory.url MoreScenarios.urlFlag = Some "https://chat.openai.com/c/1" ∧
  Js.truthy "https://chat.openai.com/c/1" = true ∧
  SingleMode.initialUrl MoreScenarios.urlFlag = Js.Ok "https://chat.openai.com/c/1".
Proof.
  split; [reflexivity|]. split; [reflexivity|]. split; [reflexivity|].
  exact (proj1 (with_url_the_handler_follows_the_page MoreScenarios.urlFlag
    "https://chat.openai.com/c/1" eq_refl eq_refl eq_refl)).
Defined.
